(** * The challenge runner of [index.js]: test engine, comparator, validator,
      keypress reader and duration formatter.

    The development follows the layout of the source file.  The first part
    is a model of the fragment of the JavaScript run time the program relies
    on (values as the YAML loader and the solution return them, the
    coercions behind [==], [>=], [typeof], template literals and
    [JSON.stringify]).  The second part embeds [runTest],
    [Challenge.test], [validateChallengeById], [CharReader] and
    [msToReadableDuration]; the third part states and proves their
    properties.  The fourth part has further properties of the engine, the
    validator, the reader and the formatter; the fifth embeds the
    interactive part, [Challenge]'s constructor, [run] and [submit], with
    the properties of its loop of commands; the sixth returns to the
    comparator, the validator and the report; the seventh has the report
    of [Challenge.test] entry by entry, with the calls into the sandbox. *)

From Stdlib Require Import ZArith Lia Bool List String Ascii.
From Stdlib Require Import Numbers.DecimalString Numbers.DecimalPos.
From Stdlib Require Import Floats.PrimFloat Floats.FloatOps Floats.SpecFloat.
From Stdlib Require Floats.FloatAxioms.
From Equations Require Import Equations.
Import ListNotations.

Set Warnings "-inexact-float,-register-all".

Local Open Scope string_scope.
Local Open Scope Z_scope.

(* ================================================================== *)
(** * Part I: the JavaScript values and coercions the program uses     *)
(* ================================================================== *)

Module JS.

(** ** Numbers

    A JavaScript number is an IEEE 754 binary64 value: the primitive
    [float] of the kernel, with its own arithmetic and comparisons. *)

Definition number := float.

(** Decimal digits of an integer, as [Number::toString] prints the safe
    integers. *)
Definition Z_to_string (z : Z) : string :=
  NilEmpty.string_of_int (Z.to_int z).

(** Non-negative rationals as fractions with a positive denominator. *)
Definition frac := (Z * Z)%type.
Definition frac_le (a b : frac) : bool := fst a * snd b <=? fst b * snd a.
Definition frac_lt (a b : frac) : bool := fst a * snd b <? fst b * snd a.
Definition scale2 (m e : Z) : frac :=
  if 0 <=? e then (m * 2 ^ e, 1) else (m, 2 ^ (- e)).
Definition scale10 (s p : Z) : frac :=
  if 0 <=? p then (s * 10 ^ p, 1) else (s, 10 ^ (- p)).

(** The least [n] among [g, g+1, ...] with [v < 10^n]. *)
Fixpoint decimal_order_from (fuel : nat) (v : frac) (g : Z) : Z :=
  match fuel with
  | O => g
  | S fuel' =>
      if frac_lt v (scale10 1 g) then g
      else decimal_order_from fuel' v (g + 1)
  end.

(** [Number::toString] picks integers [n], [k], [s] with [k] as small as
    possible, [10^(k-1) <= s < 10^k] and [s * 10^(n-k)] a decimal that
    reads back as the number itself; among several [s] the one closest to
    the number, the even one on a tie. *)
Record shortest := { sh_n : Z; sh_k : Z; sh_s : Z }.

Section Shortest.
(** The number is [m * 2^e], [m > 0]; [lo] and [hi] are the midpoints
    to its two neighbours, which round to it when [m] is even. *)
Variables m e : Z.

Let v : frac := scale2 (4 * m) (e - 2).
Let hi : frac := scale2 (4 * m + 2) (e - 2).
Let lo : frac :=
  scale2 (4 * m - (if (m =? 2 ^ 52) && (-1074 <? e) then 1 else 2)) (e - 2).

Definition reads_back (c : frac) : bool :=
  if Z.even m then frac_le lo c && frac_le c hi
  else frac_lt lo c && frac_lt c hi.

Definition order : Z :=
  decimal_order_from 8 v (((Z.log2 m + e) * 30103) / 100000 - 1).

Definition candidate (n k s : Z) : shortest :=
  if s =? 10 ^ k then {| sh_n := n + 1; sh_k := k; sh_s := 10 ^ (k - 1) |}
  else {| sh_n := n; sh_k := k; sh_s := s |}.

Fixpoint shortest_from (fuel : nat) (n k : Z) : shortest :=
  let p := n - k in
  (* v / 10^p as a fraction *)
  let xn := if 0 <=? p then fst v else fst v * 10 ^ (- p) in
  let xd := if 0 <=? p then snd v * 10 ^ p else snd v in
  let s_lo := xn / xd in
  let s_hi := s_lo + 1 in
  let r := xn mod xd in
  let ok_lo := reads_back (scale10 s_lo p) in
  let ok_hi := reads_back (scale10 s_hi p) in
  match fuel with
  | O => candidate n k (if 2 * r <? xd then s_lo else s_hi)
  | S fuel' =>
      if ok_lo && ok_hi then
        candidate n k
          (if 2 * r <? xd then s_lo
           else if xd <? 2 * r then s_hi
           else if Z.even s_lo then s_lo else s_hi)
      else if ok_lo then candidate n k s_lo
      else if ok_hi then candidate n k s_hi
      else shortest_from fuel' n (k + 1)
  end.

Definition shortest_digits : shortest := shortest_from 17 order 1.
End Shortest.

Fixpoint zeros (n : nat) : string :=
  match n with O => "" | S n' => String "0" (zeros n') end.

Definition substring_from (n : nat) (s : string) : string :=
  substring n (String.length s - n) s.

(** The layout rules of [Number::toString] for a positive finite number
    with digits [s] ([k] of them) and decimal exponent [n]. *)
Definition layout (d : shortest) : string :=
  let n := sh_n d in
  let k := sh_k d in
  let ds := Z_to_string (sh_s d) in
  if (k <=? n) && (n <=? 21) then ds ++ zeros (Z.to_nat (n - k))
  else if (0 <? n) && (n <=? 21) then
    substring 0 (Z.to_nat n) ds ++ "." ++ substring_from (Z.to_nat n) ds
  else if (-6 <? n) && (n <=? 0) then "0." ++ zeros (Z.to_nat (- n)) ++ ds
  else
    let ex := (if n - 1 <? 0 then "-" else "+") ++ Z_to_string (Z.abs (n - 1)) in
    if k =? 1 then ds ++ "e" ++ ex
    else substring 0 1 ds ++ "." ++ substring_from 1 ds ++ "e" ++ ex.

Definition Number_toString (x : number) : string :=
  match Prim2SF x with
  | S754_nan => "NaN"
  | S754_zero _ => "0"
  | S754_infinity s => if s then "-Infinity" else "Infinity"
  | S754_finite s m e =>
      (if s then "-" else "") ++ layout (shortest_digits (Zpos m) e)
  end.

(** ** [StringToNumber]: the numeric value of a string, [NaN] when the
    string is not a [StringNumericLiteral]. *)

Definition is_white (c : ascii) : bool :=
  let n := nat_of_ascii c in
  existsb (Nat.eqb n) [9; 10; 11; 12; 13; 32; 160]%nat.

Fixpoint trim_left (s : string) : string :=
  match s with
  | String c s' => if is_white c then trim_left s' else s
  | EmptyString => s
  end.

Fixpoint rev_string (acc s : string) : string :=
  match s with
  | EmptyString => acc
  | String c s' => rev_string (String c acc) s'
  end.

Definition trim (s : string) : string :=
  rev_string "" (trim_left (rev_string "" (trim_left s))).

Definition digit_value (radix : Z) (c : ascii) : option Z :=
  let n := Z.of_nat (nat_of_ascii c) in
  let d :=
    if (48 <=? n) && (n <=? 57) then n - 48
    else if (97 <=? n) && (n <=? 102) then n - 87
    else if (65 <=? n) && (n <=? 70) then n - 55
    else 99 in
  if d <? radix then Some d else None.

(** Reads the longest prefix of digits: their value on top of [acc], how
    many were read on top of [cnt], and the rest of the string. *)
Fixpoint read_digits (radix acc cnt : Z) (s : string) : Z * Z * string :=
  match s with
  | String c s' =>
      match digit_value radix c with
      | Some d => read_digits radix (acc * radix + d) (cnt + 1) s'
      | None => (acc, cnt, s)
      end
  | EmptyString => (acc, cnt, s)
  end.

Definition read_sign (s : string) : bool * string :=
  match s with
  | String "-" s' => (true, s')
  | String "+" s' => (false, s')
  | _ => (false, s)
  end.

(** The double nearest to [(-1)^neg * d * 10^p], ties to even. *)
Definition round_decimal (neg : bool) (d p : Z) : number :=
  match d with
  | Zpos dp =>
      if 0 <=? p then
        SF2Prim (binary_normalize prec emax
                   (if neg then - (d * 10 ^ p) else d * 10 ^ p) 0 false)
      else
        SF2Prim (SFdiv prec emax (S754_finite neg dp 0)
                   (S754_finite false (Z.to_pos (10 ^ (- p))) 0))
  | _ => if neg then neg_zero else zero
  end.

Definition parse_exponent (s : string) : option Z :=
  match s with
  | EmptyString => Some 0
  | String c s' =>
      if (Ascii.eqb c "e" || Ascii.eqb c "E")%bool then
        let '(neg, s2) := read_sign s' in
        match read_digits 10 0 0 s2 with
        | (ex, cnt, EmptyString) =>
            if 0 <? cnt then Some (if neg then - ex else ex) else None
        | _ => None
        end
      else None
  end.

Definition parse_decimal (neg : bool) (s : string) : number :=
  if String.eqb s "Infinity" then (if neg then neg_infinity else infinity)
  else
    let '(ip, ci, s1) := read_digits 10 0 0 s in
    let '(d, cf, s2) :=
      match s1 with
      | String "." s1' => read_digits 10 ip 0 s1'
      | _ => (ip, 0, s1)
      end in
    if (ci + cf =? 0) then nan
    else
      match parse_exponent s2 with
      | Some ex => round_decimal neg d (ex - cf)
      | None => nan
      end.

Definition parse_radix (radix : Z) (s : string) : number :=
  match read_digits radix 0 0 s with
  | (n, cnt, EmptyString) => if 0 <? cnt then round_decimal false n 0 else nan
  | _ => nan
  end.

Definition StringToNumber (str : string) : number :=
  match trim str with
  | EmptyString => zero
  | String "0" (String "x" s) | String "0" (String "X" s) => parse_radix 16 s
  | String "0" (String "o" s) | String "0" (String "O" s) => parse_radix 8 s
  | String "0" (String "b" s) | String "0" (String "B" s) => parse_radix 2 s
  | s => let '(neg, s') := read_sign s in parse_decimal neg s'
  end.

(** ** Values

    The values the program handles are the ones a YAML document parses to
    and the plain data a solution returns: [undefined], [null], booleans,
    numbers, strings, arrays and plain objects.  An object is the list of
    its own enumerable string-keyed properties in enumeration order (the
    order of [for ... in] and [Object.keys]); its keys are distinct.
    Strings are sequences of code units below 256.  Functions, big
    integers, symbols as values returned, and objects with accessors,
    [toJSON], [valueOf] or cycles are outside the model. *)

Inductive value : Type :=
| VUndefined
| VNull
| VBool (b : bool)
| VNum (x : number)
| VStr (s : string)
| VArr (items : list value)
| VObj (props : list (string * value)).

(** What a [throw] carries: an [Error] object ([TypeError],
    [SyntaxError], [ReferenceError], ...), a plain value, or a symbol,
    which stands here for the values that cannot be converted to a
    string. *)
Inductive thrown : Type :=
| Exception (name message : string)
| ThrownValue (v : value)
| ThrownSymbol (description : string).

Definition typeof (v : value) : string :=
  match v with
  | VUndefined => "undefined"
  | VNull => "object"
  | VBool _ => "boolean"
  | VNum _ => "number"
  | VStr _ => "string"
  | VArr _ | VObj _ => "object"
  end.

Definition ToBoolean (v : value) : bool :=
  match v with
  | VUndefined | VNull => false
  | VBool b => b
  | VNum x => negb (is_zero x || is_nan x)
  | VStr s => negb (String.eqb s "")
  | VArr _ | VObj _ => true
  end.

(** [ToString]; an array prints as [join(",")], where [null] and
    [undefined] elements print as nothing; a plain object prints as
    "[object Object]". *)
Fixpoint ToString (v : value) : string :=
  match v with
  | VUndefined => "undefined"
  | VNull => "null"
  | VBool b => if b then "true" else "false"
  | VNum x => Number_toString x
  | VStr s => s
  | VArr items =>
      (fix join (l : list value) : string :=
         match l with
         | [] => ""
         | x :: l' =>
             let sx := match x with
                       | VUndefined | VNull => ""
                       | _ => ToString x
                       end in
             match l' with
             | [] => sx
             | _ :: _ => sx ++ "," ++ join l'
             end
         end) items
  | VObj _ => "[object Object]"
  end.

(** [ToPrimitive] with hint number or default: [valueOf] of an array or a
    plain object returns the object itself, so [toString] decides. *)
Definition ToPrimitive (v : value) : value :=
  match v with
  | VArr _ | VObj _ => VStr (ToString v)
  | _ => v
  end.

Definition ToNumber (v : value) : number :=
  match ToPrimitive v with
  | VUndefined => nan
  | VNull => zero
  | VBool b => if b then one else zero
  | VNum x => x
  | VStr s => StringToNumber s
  | VArr _ | VObj _ => nan
  end.

(** *** [JSON.stringify] *)

Definition hex_digit (n : nat) : ascii :=
  ascii_of_nat (if Nat.ltb n 10 then 48 + n else 87 + n).

(** The double quote, as a string. *)
Definition dquote : string := String (ascii_of_nat 34) "".

(** [QuoteJSONString] *)
Definition quote_char (c : ascii) : string :=
  let n := nat_of_ascii c in
  if Nat.eqb n 8 then "\b"
  else if Nat.eqb n 9 then "\t"
  else if Nat.eqb n 10 then "\n"
  else if Nat.eqb n 12 then "\f"
  else if Nat.eqb n 13 then "\r"
  else if Nat.eqb n 34 then String "\" dquote
  else if Nat.eqb n 92 then "\\"
  else if Nat.ltb n 32 then
    "\u00" ++ String (hex_digit (Nat.div n 16)) (String (hex_digit (Nat.modulo n 16)) "")
  else String c "".

Fixpoint quote_chars (s : string) : string :=
  match s with
  | EmptyString => ""
  | String c s' => quote_char c ++ quote_chars s'
  end.

Definition QuoteJSONString (s : string) : string :=
  dquote ++ quote_chars s ++ dquote.

Fixpoint join_comma (l : list string) : string :=
  match l with
  | [] => ""
  | [x] => x
  | x :: l' => x ++ "," ++ join_comma l'
  end.

(** [JSON.stringify(v)]: [None] stands for the result [undefined].  An
    [undefined] array element prints as [null]; a property whose value is
    [undefined] is left out; a number that is not finite prints as
    [null]. *)
Fixpoint JSON_stringify (v : value) : option string :=
  match v with
  | VUndefined => None
  | VNull => Some "null"
  | VBool b => Some (if b then "true" else "false")
  | VNum x => Some (if is_finite x then Number_toString x else "null")
  | VStr s => Some (QuoteJSONString s)
  | VArr items =>
      Some ("[" ++
            join_comma
              ((fix elements (l : list value) : list string :=
                  match l with
                  | [] => []
                  | x :: l' =>
                      match JSON_stringify x with
                      | Some s => s
                      | None => "null"
                      end :: elements l'
                  end) items) ++ "]")
  | VObj props =>
      Some ("{" ++
            join_comma
              ((fix members (l : list (string * value)) : list string :=
                  match l with
                  | [] => []
                  | (k, x) :: l' =>
                      match JSON_stringify x with
                      | Some s => (QuoteJSONString k ++ ":" ++ s) :: members l'
                      | None => members l'
                      end
                  end) props) ++ "}")
  end.

(** *** Operators *)

(** [x == y] for [x] the result of [JSON.stringify], that is [undefined]
    ([None]) or a string.  A string against a number or a boolean compares
    as numbers; against an array or an object it compares with their
    primitive, a string; [undefined] loosely equals [undefined] and
    [null] only. *)
Definition IsLooselyEqual (x : option string) (y : value) : bool :=
  match x with
  | None =>
      match y with
      | VUndefined | VNull => true
      | _ => false
      end
  | Some s =>
      match y with
      | VUndefined | VNull => false
      | VBool b => PrimFloat.eqb (StringToNumber s) (if b then one else zero)
      | VNum n => PrimFloat.eqb (StringToNumber s) n
      | VStr t => String.eqb s t
      | VArr _ | VObj _ => String.eqb s (ToString y)
      end
  end.

(** [a >= b], [a <= b] and [a > b] against a number: the other operand is
    coerced with [ToNumber], and the comparison is false when either side
    is [NaN]. *)
Definition ge (a : value) (b : number) : bool := PrimFloat.leb b (ToNumber a).
Definition le (a : value) (b : number) : bool := PrimFloat.leb (ToNumber a) b.
Definition gt (a : number) (b : value) : bool := PrimFloat.ltb (ToNumber b) a.

(** *** Properties

    Own enumerable string keys, in enumeration order.  The list of a
    [VObj] is kept in this order, the one of [for ... in] and
    [Object.keys]: for an object read from a YAML mapping it is the order
    of declaration as long as no key is integer-like, since the
    integer-like keys are enumerated first, in ascending order.  The
    properties that speak of the declared order assume names that are not
    integer-like ([names_ok] below). *)
Fixpoint index_keys (i : Z) (n : nat) : list string :=
  match n with
  | O => []
  | S n' => Z_to_string i :: index_keys (i + 1) n'
  end.

Definition own_keys (v : value) : list string :=
  match v with
  | VObj props => map fst props
  | VArr items => index_keys 0 (List.length items)
  | VStr s => index_keys 0 (String.length s)
  | _ => []
  end.

Fixpoint assoc {A : Type} (key : string) (l : list (string * A)) : option A :=
  match l with
  | [] => None
  | (k, x) :: l' => if String.eqb k key then Some x else assoc key l'
  end.

Fixpoint nth_keyed {A : Type} (i : Z) (key : string) (l : list A) : option A :=
  match l with
  | [] => None
  | x :: l' =>
      if String.eqb (Z_to_string i) key then Some x
      else nth_keyed (i + 1) key l'
  end.

(** [v[key]] and [v.key] for the data fields and own keys the program reads
    ([length] and inherited properties are never read): a [TypeError] on
    [undefined] and [null], [undefined] for a missing property.  A name
    inherited from [Object.prototype], such as [constructor], is outside
    this definition when the object has no own property of that name:
    where the program reads a name given from outside ([challenges[cid]]),
    the properties state that it is not one ([inherited] below). *)
Definition Get (v : value) (key : string) : value + thrown :=
  match v with
  | VUndefined =>
      inr (Exception "TypeError"
             ("Cannot read properties of undefined (reading '" ++ key ++ "')"))
  | VNull =>
      inr (Exception "TypeError"
             ("Cannot read properties of null (reading '" ++ key ++ "')"))
  | VObj props =>
      inl (match assoc key props with Some x => x | None => VUndefined end)
  | VArr items =>
      inl (match nth_keyed 0 key items with Some x => x | None => VUndefined end)
  | VStr s =>
      inl (match nth_keyed 0 key (list_ascii_of_string s) with
           | Some c => VStr (String c "")
           | None => VUndefined
           end)
  | VBool _ | VNum _ => inl VUndefined
  end.

(** [Object.keys(v)] *)
Definition Object_keys (v : value) : list string + thrown :=
  match v with
  | VUndefined | VNull =>
      inr (Exception "TypeError" "Cannot convert undefined or null to object")
  | _ => inl (own_keys v)
  end.

(** [`${e}`] for a caught value: [Error.prototype.toString] for an error
    object; a [TypeError] for a symbol. *)
Definition thrown_to_string (e : thrown) : string + thrown :=
  match e with
  | Exception name message =>
      inl (if String.eqb message "" then name
           else if String.eqb name "" then message
           else name ++ ": " ++ message)
  | ThrownValue v => inl (ToString v)
  | ThrownSymbol _ =>
      inr (Exception "TypeError" "Cannot convert a Symbol value to a string")
  end.

(** [e] as a condition, as in [if (testResult.error)]. *)
Definition thrown_truthy (e : thrown) : bool :=
  match e with
  | Exception _ _ => true
  | ThrownValue v => ToBoolean v
  | ThrownSymbol _ => true
  end.

(** [obj[key] = x] on an object kept as its property list: an existing
    property keeps its place, a new one is added at the end.  This is for
    a key other than [__proto__], which an assignment does not store as an
    own property; the properties on the report assume suite and test names
    other than that one ([names_ok] below). *)
Fixpoint obj_set {A : Type} (key : string) (x : A) (l : list (string * A))
  : list (string * A) :=
  match l with
  | [] => [(key, x)]
  | (k, y) :: l' =>
      if String.eqb k key then (k, x) :: l' else (k, y) :: obj_set key x l'
  end.

End JS.

Import JS.

(* ================================================================== *)
(** * Part II: the program                                             *)
(* ================================================================== *)

(** ** The sandbox

    [vm.runInNewContext] is the one door to the solution's code.  Its two
    uses are taken as given: evaluating a piece of code returns the value
    of its last expression or throws; running it under [Benchmark] returns
    [benchRes.stats.mean] or throws.  The [world] stands for everything
    the outcome may depend on besides the code (clock, random numbers,
    machine load), so two runs of the same code may differ. *)
Class Sandbox : Type := {
  world : Type;
  vm_runInNewContext : string -> world -> (value + thrown) * world;
  vm_benchmark : string -> world -> (number + thrown) * world
}.

(** ** Results *)

Record test_result : Type := {
  pass : bool;
  res : option value;
  error : option thrown;
  time : option number;
  validityPass : option bool
}.

Record suite_result : Type := {
  suite_pass : bool;
  suite_tests : list (string * test_result)
}.

Record report : Type := {
  report_all : bool;
  report_pass : bool;
  report_suites : list (string * suite_result)
}.

(** ** What the program does to the outside: calls into the sandbox and
    lines on the console.  A console line is kept as the data it renders. *)
Inductive message : Type :=
| Text (s : string)
| TestFailed (suiteName testName : string) (r : test_result) (test : value).

Inductive line : Type :=
| SuiteLine (suiteName : string)
| TestLine (testName : string) (args res : value)
| OutcomeLine (test : value) (r : test_result)
| WentOverLimit (max_time_s : value)
| ReceivedError (text : string)
| ExpectedButGot (expected delta : value) (got : option value)
| SummaryLine (fails : nat)
| Validating (cid : string)
| Blank
| Red (m : message)
| Yellow (m : message)
| Green (s : string).

Inductive event : Type :=
| VmRun (code : string)
| VmBench (code : string)
| Out (l : line).

Record state {sandbox : Sandbox} : Type := {
  st_world : world;
  st_trace : list event
}.

(** ** Computations that read and change a state and may throw *)

Definition M (S A : Type) : Type := S -> (A + thrown) * S.

Definition ret {S A : Type} (a : A) : M S A := fun s => (inl a, s).

Definition throw {S A : Type} (e : thrown) : M S A := fun s => (inr e, s).

Definition bind {S A B : Type} (m : M S A) (k : A -> M S B) : M S B :=
  fun s =>
    match m s with
    | (inl a, s') => k a s'
    | (inr e, s') => (inr e, s')
    end.

Definition try_catch {S A : Type} (m : M S A) (handler : thrown -> M S A)
  : M S A :=
  fun s =>
    match m s with
    | (inl a, s') => (inl a, s')
    | (inr e, s') => handler e s'
    end.

(** A pure step that may throw, such as a property read. *)
Definition lift {S A : Type} (r : A + thrown) : M S A := fun s => (r, s).

Declare Scope js_scope.
Delimit Scope js_scope with js.
Notation "x <- m ;; k" := (bind m (fun x => k))
  (at level 100, m at next level, right associativity) : js_scope.
Notation "m ;;; k" := (bind m (fun _ => k))
  (at level 100, right associativity) : js_scope.
Notation "' p <- m ;; k" := (bind m (fun x => let 'p := x in k))
  (at level 100, p pattern, m at next level, right associativity) : js_scope.

(** [for (const key in obj) body], with the variables the body assigns
    threaded as [acc]. *)
Fixpoint for_in {S Acc : Type} (keys : list string)
  (body : string -> Acc -> M S Acc) (acc : Acc) : M S Acc :=
  match keys with
  | [] => ret acc
  | key :: keys' => bind (body key acc) (for_in keys' body)
  end.

Local Open Scope js_scope.
Local Open Scope float_scope.

(** ** The comparator: lines 182 to 189 of [runTest], which decide
    [result.pass] from the value returned, [test.res] and [test.delta]. *)
Definition comparator (testResult res delta : value) : bool :=
  if IsLooselyEqual (JSON_stringify testResult) res then true
  else if String.eqb (typeof res) "number" && ToBoolean delta then
    (* test.res within delta/2 of testResult *)
    ge testResult (ToNumber res - ToNumber delta / 2)
    && le testResult (ToNumber res + ToNumber delta / 2)
  else false.

Definition newline : string := String (ascii_of_nat 10) "".

Definition test_runner_code (content fnName args : value) : string :=
  ToString content ++ ";" ++ newline ++
  "      /* test runner */ " ++ ToString fnName ++ "(" ++ ToString args ++ ")".

Definition benchmark_runner_code (content fnName args : value) : string :=
  ToString content ++ ";" ++ newline ++
  "        /* benchmark runner */ new Benchmark({maxTime: 0.5}, () => "
  ++ ToString fnName ++ "(" ++ ToString args ++ ")).run()".

Section Engine.
Context {sandbox : Sandbox}.

Definition console (l : line) : M state unit :=
  fun s => (inl tt, {| st_world := st_world s;
                       st_trace := st_trace s ++ [Out l] |}).

Definition run_in_new_context (code : string) : M state value :=
  fun s =>
    let (r, w) := vm_runInNewContext code (st_world s) in
    (r, {| st_world := w; st_trace := st_trace s ++ [VmRun code] |}).

Definition run_benchmark (code : string) : M state number :=
  fun s =>
    let (r, w) := vm_benchmark code (st_world s) in
    (r, {| st_world := w; st_trace := st_trace s ++ [VmBench code] |}).

(** ** [runTest]

    The fields of [test] are read where the source reads them first; a
    read of a field cannot throw once another has succeeded. *)
Definition runTest (fnName test content : value) : M state test_result :=
  try_catch
    (args <- lift (Get test "args") ;;
     testResult <- run_in_new_context (test_runner_code content fnName args) ;;
     expected <- lift (Get test "res") ;;
     delta <- lift (Get test "delta") ;;
     max_time_s <- lift (Get test "max_time_s") ;;
     let result :=
       {| pass := comparator testResult expected delta;
          res := Some testResult;
          error := None; time := None; validityPass := None |} in
     if pass result && ToBoolean max_time_s then
       mean <- run_benchmark (benchmark_runner_code content fnName args) ;;
       if ToBoolean max_time_s && gt mean max_time_s then
         ret {| pass := false;
                res := Some testResult;
                error := None;
                time := Some mean;
                validityPass := Some true |}
       else
         ret {| pass := pass result;
                res := Some testResult;
                error := None;
                time := Some mean;
                validityPass := None |}
     else ret result)
    (fun e =>
       ret {| pass := false; res := None; error := Some e;
              time := None; validityPass := None |}).
End Engine.

Local Close Scope float_scope.

(** ** [Challenge.test]

    [data] is [this.data], [all] the parameter, [content] what
    [fs.readFile] returned.  The function ends by storing the report in
    [this.testResults]: the report is the result here.  The line on a
    test after it ran (ok or fail, and the time) is an [OutcomeLine]; what
    follows on a failure is one of [WentOverLimit], [ReceivedError] and
    [ExpectedButGot]. *)
Module Challenge.
Section Test.
Context {sandbox : Sandbox}.

(** [results.suites[suiteName].tests[testName] = testResult] *)
Definition set_test (suiteName testName : string) (testResult : test_result)
  (results : report) : report + thrown :=
  match assoc suiteName (report_suites results) with
  | Some sr =>
      inl {| report_all := report_all results;
             report_pass := report_pass results;
             report_suites :=
               obj_set suiteName
                 {| suite_pass := suite_pass sr;
                    suite_tests := obj_set testName testResult (suite_tests sr) |}
                 (report_suites results) |}
  | None =>
      inr (Exception "TypeError"
             "Cannot read properties of undefined (reading 'tests')")
  end.

(** [results.suites[suiteName].pass = false; results.pass = false] *)
Definition set_failed (suiteName : string) (results : report)
  : report + thrown :=
  match assoc suiteName (report_suites results) with
  | Some sr =>
      inl {| report_all := report_all results;
             report_pass := false;
             report_suites :=
               obj_set suiteName
                 {| suite_pass := false; suite_tests := suite_tests sr |}
                 (report_suites results) |}
  | None =>
      inr (Exception "TypeError"
             "Cannot set properties of undefined (setting 'pass')")
  end.

(** [testResult.time > test.max_time_s], where [time] may be absent. *)
Definition over_limit (time : option number) (max_time_s : value) : bool :=
  match time with
  | Some mean => gt mean max_time_s
  | None => false
  end.

(** The lines after a failed test.  The second one converts the value
    caught to a string inside a template literal. *)
Definition explain_failure (test : value) (testResult : test_result)
  : M state unit :=
  max_time_s <- lift (Get test "max_time_s") ;;
  if ToBoolean max_time_s && over_limit (time testResult) max_time_s then
    console (WentOverLimit max_time_s)
  else
    match error testResult with
    | Some e =>
        if thrown_truthy e then
          text <- lift (thrown_to_string e) ;;
          console (ReceivedError text)
        else
          expected <- lift (Get test "res") ;;
          delta <- lift (Get test "delta") ;;
          console (ExpectedButGot expected delta (res testResult))
    | None =>
        expected <- lift (Get test "res") ;;
        delta <- lift (Get test "delta") ;;
        console (ExpectedButGot expected delta (res testResult))
    end.

(** The body of the inner loop, for one [testName] of [suite]. *)
Definition test_case (data : value) (all : bool) (content : string)
  (suiteName : string) (suite : value)
  (testName : string) (acc : report * nat) : M state (report * nat) :=
  let '(results, fails) := acc in
  test <- lift (Get suite testName) ;;
  selected <- (if all then ret true
               else visible <- lift (Get test "visible") ;;
                    ret (ToBoolean visible)) ;;
  if (selected : bool) then
    args <- lift (Get test "args") ;;
    expected <- lift (Get test "res") ;;
    console (TestLine testName args expected) ;;;
    fn_name <- lift (Get data "fn_name") ;;
    testResult <- runTest fn_name test (VStr content) ;;
    results <- lift (set_test suiteName testName testResult results) ;;
    console (OutcomeLine test testResult) ;;;
    if negb (pass testResult) then
      results <- lift (set_failed suiteName results) ;;
      explain_failure test testResult ;;;
      ret (results, S fails)
    else ret (results, fails)
  else ret (results, fails).

(** The body of the outer loop, for one [suiteName]. *)
Definition test_suite (data : value) (all : bool) (content : string)
  (tests : value) (suiteName : string) (acc : report * nat)
  : M state (report * nat) :=
  let '(results, fails) := acc in
  suite <- lift (Get tests suiteName) ;;
  keys <- lift (Object_keys suite) ;;
  if Nat.eqb (List.length keys) 0 then ret (results, fails)
  else
    let results :=
      {| report_all := report_all results;
         report_pass := report_pass results;
         report_suites :=
           obj_set suiteName {| suite_pass := true; suite_tests := [] |}
             (report_suites results) |} in
    console (SuiteLine suiteName) ;;;
    for_in (own_keys suite)
      (test_case data all content suiteName suite) (results, fails).

Definition test (data : value) (all : bool) (content : string)
  : M state report :=
  let results :=
    {| report_all := all; report_pass := true; report_suites := [] |} in
  tests <- lift (Get data "tests") ;;
  '(results, fails) <-
     for_in (own_keys tests) (test_suite data all content tests)
       (results, 0%nat) ;;
  console (SummaryLine fails) ;;;
  ret results.
End Test.
End Challenge.

(** ** [validateChallengeById]

    [challenges] is the parsed [challenges.yml].  The counters [errors] and
    [warnings] live in the closure and keep their value when the [try]
    block is left by a throw, so they are part of the state.  The function
    returns nothing; the counters at its end are the result here. *)
Module Validator.
Section Validate.
Context {sandbox : Sandbox}.

Record vstate : Type := {
  errors : nat;
  warnings : nat;
  base : state
}.

Definition console_log (l : line) : M vstate unit :=
  fun s =>
    (inl tt,
     {| errors := errors s; warnings := warnings s;
        base := {| st_world := st_world (base s);
                   st_trace := st_trace (base s) ++ [Out l] |} |}).

Definition gets {A : Type} (f : vstate -> A) : M vstate A :=
  fun s => (inl (f s), s).

Definition in_base {A : Type} (m : M state A) : M vstate A :=
  fun s =>
    let (r, b) := m (base s) in
    (r, {| errors := errors s; warnings := warnings s; base := b |}).

Definition when (c : bool) (m : M vstate unit) : M vstate unit :=
  if c then m else ret tt.

Definition error (str : message) : M vstate unit :=
  e <- gets errors ;;
  w <- gets warnings ;;
  when (Nat.eqb e 0 && Nat.eqb w 0) (console_log Blank) ;;;
  (fun s => (inl tt, {| errors := S (errors s); warnings := warnings s;
                        base := base s |})) ;;;
  console_log (Red str).

Definition warn (str : message) : M vstate unit :=
  e <- gets errors ;;
  w <- gets warnings ;;
  when (Nat.eqb e 0 && Nat.eqb w 0) (console_log Blank) ;;;
  (fun s => (inl tt, {| errors := errors s; warnings := S (warnings s);
                        base := base s |})) ;;;
  console_log (Yellow str).

Definition is_undefined (v : value) : bool :=
  match v with VUndefined => true | _ => false end.

Definition count_string (n : nat) : string := Z_to_string (Z.of_nat n).

(** The body of the inner loop. *)
Definition validate_test (challenge : value) (suiteName : string)
  (suite : value) (testName : string) (_ : unit) : M vstate unit :=
  test <- lift (Get suite testName) ;;
  args <- lift (Get test "args") ;;
  when (is_undefined args)
    (warn (Text (suiteName ++ ">" ++ testName ++
                 " lacks 'args'. Set to empty string if no args required"))) ;;;
  expected <- lift (Get test "res") ;;
  when (is_undefined expected)
    (error (Text (suiteName ++ ">" ++ testName ++ " lacks 'res'"))) ;;;
  max_time_s <- lift (Get test "max_time_s") ;;
  when (String.eqb suiteName "performance" && negb (ToBoolean max_time_s))
    (warn (Text (suiteName ++ ">" ++ testName ++
                 " lacks a 'max_time_s'. Set to '!!float Infinity' to disable warning"))) ;;;
  delta <- lift (Get test "delta") ;;
  when (String.eqb (typeof expected) "number" && is_undefined delta)
    (warn (Text (suiteName ++ ">" ++ testName ++
                 " has a numeric 'res' but lacks a delta. Set to '0' to disable warning"))) ;;;
  fn_name <- lift (Get challenge "fn_name") ;;
  sample_solution <- lift (Get challenge "sample_solution") ;;
  r <- in_base (runTest fn_name test sample_solution) ;;
  when (negb (pass r)) (error (TestFailed suiteName testName r test)).

Definition validate_suite (challenge tests : value) (suiteName : string)
  (_ : unit) : M vstate unit :=
  suite <- lift (Get tests suiteName) ;;
  for_in (own_keys suite) (validate_test challenge suiteName suite) tt.

(** The [try] block. *)
Definition validate_body (challenges : value) (cid : string)
  : M vstate unit :=
  challenge <- lift (Get challenges cid) ;;
  fn_name <- lift (Get challenge "fn_name") ;;
  when (negb (ToBoolean fn_name)) (error (Text "no `fn_name`")) ;;;
  template <- lift (Get challenge "template") ;;
  when (negb (ToBoolean template)) (error (Text "no `template`")) ;;;
  sample_solution <- lift (Get challenge "sample_solution") ;;
  when (negb (ToBoolean sample_solution)) (warn (Text "no `sample_solution`")) ;;;
  recommended_time_ms <- lift (Get challenge "recommended_time_ms") ;;
  when (negb (ToBoolean recommended_time_ms))
    (warn (Text "no `recommended_time_ms`")) ;;;
  tests <- lift (Get challenge "tests") ;;
  when (negb (ToBoolean tests)) (error (Text "no `tests`")) ;;;
  e <- gets errors ;;
  w <- gets warnings ;;
  when (Nat.ltb 0 (e + w)) (console_log Blank) ;;;
  correctness <- lift (Get tests "correctness") ;;
  when (negb (ToBoolean correctness)) (warn (Text "no suite named `correctness`")) ;;;
  edges <- lift (Get tests "edges") ;;
  when (negb (ToBoolean edges)) (warn (Text "no suite named `edges`")) ;;;
  performance <- lift (Get tests "performance") ;;
  when (negb (ToBoolean performance)) (warn (Text "no suite named `performance`")) ;;;
  for_in (own_keys tests) (validate_suite challenge tests) tt.

(** The lines after the [try] statement. *)
Definition summarize : M vstate unit :=
  e <- gets errors ;;
  w <- gets warnings ;;
  if Nat.ltb 0 e then
    console_log Blank ;;;
    error (Text ("failed with " ++ count_string e ++ " errors"))
  else if Nat.ltb 0 w then
    console_log Blank ;;;
    warn (Text ("found " ++ count_string w ++ " warnings"))
  else console_log (Green "ok").

Definition validate (challenges : value) (cid : string) : M vstate unit :=
  console_log (Validating cid) ;;;
  try_catch (validate_body challenges cid)
    (fun e =>
       text <- lift (thrown_to_string e) ;;
       error (Text ("problem occured while trying to verify " ++ cid ++ ": "
                    ++ text))) ;;;
  summarize.

Definition validateChallengeById (challenges : value) (cid : string)
  : M state (nat * nat) :=
  fun s =>
    let (r, vs) := validate challenges cid
                     {| errors := 0; warnings := 0; base := s |} in
    (match r with
     | inl _ => inl (errors vs, warnings vs)
     | inr e => inr e
     end, base vs).
End Validate.
End Validator.

(** ** [CharReader]

    The promises a [read] hands out are named by numbers, counted from
    [allocated]; [promises] is the array [this.promises] of the deferred
    ones, oldest first; [resolved] records which promise was resolved with
    which key name, in the order it happened. *)
Module CharReader.

Record t : Type := {
  promises : list nat;
  resolved : list (nat * string);
  allocated : nat
}.

(** The reader [new CharReader()] returns.  It returns one when
    [process.stdin] is a terminal; when it is not, [setRawMode] throws in
    the constructor and no reader is built: this outcome is an input of
    [ChallengeRun.run] below. *)
Definition constructor : t :=
  {| promises := []; resolved := []; allocated := 0 |}.

(** The listener of ['keypress'], called with [key.name]. *)
Definition keypress (name : string) (r : t) : t :=
  match promises r with
  | deferredPromise :: rest =>
      {| promises := rest;
         resolved := resolved r ++ [(deferredPromise, name)];
         allocated := allocated r |}
  | [] => r
  end.

(** [read()]: the promise returned and the reader afterwards. *)
Definition read (r : t) : nat * t :=
  (allocated r,
   {| promises := promises r ++ [allocated r];
      resolved := resolved r;
      allocated := S (allocated r) |}).

(** [CharReader.get()] on the static field [instance]. *)
Definition get (instance : option t) : t :=
  match instance with
  | Some r => r
  | None => constructor
  end.

(** [readChar()], that is [CharReader.read()]. *)
Definition readChar (instance : option t) : nat * option t :=
  let (promise, r) := read (get instance) in (promise, Some r).

(** The key name a promise was resolved with, if it was. *)
Fixpoint outcome (promise : nat) (l : list (nat * string)) : option string :=
  match l with
  | [] => None
  | (p, name) :: l' =>
      if Nat.eqb p promise then Some name else outcome promise l'
  end.

(** Every promise handed out so far is below [allocated]. *)
Definition well_formed (r : t) : Prop :=
  (forall p, In p (promises r) -> (p < allocated r)%nat) /\
  (forall p name, In (p, name) (resolved r) -> (p < allocated r)%nat).

End CharReader.

(** ** [msToReadableDuration]

    [ms] is a whole number of milliseconds (a difference of two
    [Date.now()], or [recommended_time_ms]) that binary64 holds exactly, a
    safe integer: there the comparisons, [%] and [Math.floor] of the
    quotients of the source are the ones on integers written here.  The
    properties below are stated for safe integers only. *)
Definition SECOND : Z := 1000.
Definition MINUTE : Z := SECOND * 60.
Definition HOUR : Z := MINUTE * 60.

Definition spacing (isChildCall : bool) : string :=
  if isChildCall then " " else "".

(** How many of the units hour and minute [ms] still reaches: what
    decreases along the recursion. *)
Definition units_left (ms : Z) : nat :=
  if HOUR <=? ms then 2 else if MINUTE <=? ms then 1 else 0.

Equations? msToReadableDuration (ms : Z) (isChildCall : bool) : string
  by wf (units_left ms) lt :=
msToReadableDuration ms isChildCall with Z_le_gt_dec HOUR ms := {
  | left _ =>
      spacing isChildCall ++ Z_to_string (ms / HOUR) ++ "h"
      ++ msToReadableDuration (Z.rem ms HOUR) true
  | right _ with Z_le_gt_dec MINUTE ms := {
    | left _ =>
        spacing isChildCall ++ Z_to_string (ms / MINUTE) ++ "min"
        ++ msToReadableDuration (Z.rem ms MINUTE) true
    | right _ with Z_le_gt_dec SECOND ms := {
      | left _ => spacing isChildCall ++ Z_to_string (ms / SECOND) ++ "s"
      | right _ =>
          (* ignore sub-second differences unless only difference *)
          if negb isChildCall then Z_to_string ms ++ "ms" else ""
      }
    }
  }.
Proof.
  - assert (0 <= Z.rem ms HOUR < HOUR)
      by (apply Z.rem_bound_pos; unfold HOUR, MINUTE, SECOND in *; lia).
    unfold units_left.
    destruct (Z.leb_spec HOUR (Z.rem ms HOUR)); [lia|].
    destruct (Z.leb_spec HOUR ms); [|lia].
    destruct (MINUTE <=? Z.rem ms HOUR); lia.
  - assert (0 <= Z.rem ms MINUTE < MINUTE)
      by (apply Z.rem_bound_pos; unfold MINUTE, SECOND in *; lia).
    unfold units_left.
    assert (MINUTE < HOUR) by (unfold HOUR, MINUTE, SECOND; lia).
    destruct (Z.leb_spec HOUR (Z.rem ms MINUTE)); [lia|].
    destruct (Z.leb_spec MINUTE (Z.rem ms MINUTE)); [lia|].
    destruct (Z.leb_spec HOUR ms); [lia|].
    destruct (Z.leb_spec MINUTE ms); lia.
Qed.

(* ================================================================== *)
(** * Part III: properties                                             *)
(* ================================================================== *)

(** ** The number conversions on known values *)

Example Number_toString_samples :
  map Number_toString
    [3.15; 0.1 + 0.2; 1e21; 123456789012345680000; 0.000001; 1e-7;
     5e-324; -42; 3.14 - 0.02 / 2]%float
  = ["3.15"; "0.30000000000000004"; "1e+21"; "123456789012345680000";
     "0.000001"; "1e-7"; "5e-324"; "-42"; "3.1300000000000003"].
Proof. vm_compute. reflexivity. Qed.

Example StringToNumber_samples :
  map (fun s => Number_toString (StringToNumber s))
    ["3.15"; " 42 "; ""; "0x1F"; "1e3"; ".5"; "5."; "-0"; "1e"; "true";
     "[5]"; "-Infinity"; "9007199254740993"]
  = ["3.15"; "42"; "0"; "31"; "1000"; "0.5"; "5"; "0"; "NaN"; "NaN";
     "NaN"; "-Infinity"; "9007199254740992"].
Proof. vm_compute. reflexivity. Qed.

Example JSON_stringify_sample :
  JSON_stringify
    (VObj [("a", VNum 1%float); ("u", VUndefined);
           ("b", VArr [VNull; VUndefined; VStr "x"; VNum nan; VBool true])])
  = Some ("{" ++ dquote ++ "a" ++ dquote ++ ":1," ++ dquote ++ "b" ++ dquote
          ++ ":[null,null," ++ dquote ++ "x" ++ dquote ++ ",null,true]}").
Proof. vm_compute. reflexivity. Qed.

(** ** The comparator *)

Section ComparatorFacts.
Local Open Scope float_scope.

Lemma IsLooselyEqual_string (s t : string) :
  IsLooselyEqual (Some s) (VStr t) = true <-> s = t.
Proof. simpl. apply String.eqb_eq. Qed.

(** The comparator is the primary check, or else the tolerance check
    under its guard. *)
Lemma comparator_unfold (actual expected delta : value) :
  comparator actual expected delta
  = (IsLooselyEqual (JSON_stringify actual) expected
     || (String.eqb (typeof expected) "number" && ToBoolean delta
         && (ge actual (ToNumber expected - ToNumber delta / 2)
             && le actual (ToNumber expected + ToNumber delta / 2))))%bool.
Proof.
  unfold comparator.
  destruct (IsLooselyEqual (JSON_stringify actual) expected); [reflexivity|].
  destruct (String.eqb (typeof expected) "number" && ToBoolean delta);
    reflexivity.
Qed.

Lemma typeof_number (v : value) :
  String.eqb (typeof v) "number" = true <-> exists x, v = VNum x.
Proof.
  split.
  - destruct v; simpl; try discriminate. intros _. now exists x.
  - intros [x ->]. reflexivity.
Qed.

(** C1: whenever [JSON.stringify] of the value returned is the text
    stored in [test.res], the comparator passes, whatever [test.delta]
    is (absent, that is [undefined], or any value). *)
Theorem comparator_passes_on_equal_text (actual delta : value) (expected : string) :
  JSON_stringify actual = Some expected ->
  comparator actual (VStr expected) delta = true.
Proof.
  intros Hjson. unfold comparator. rewrite Hjson.
  simpl. now rewrite String.eqb_refl.
Qed.

Lemma comparator_passes_on_equal_text_witness :
  JSON_stringify (VArr [VNum 3.15; VBool true]) = Some "[3.15,true]"
  /\ comparator (VArr [VNum 3.15; VBool true]) (VStr "[3.15,true]") VUndefined
     = true.
Proof.
  split.
  - vm_compute. reflexivity.
  - apply (comparator_passes_on_equal_text
             (VArr [VNum 3.15; VBool true]) VUndefined "[3.15,true]").
    vm_compute. reflexivity.
Defined.

(** The example of the specification, [res: "3.14", delta: "0.02"] both
    stored as text, and the value 3.15 returned: the texts differ, 3.15
    lies within 3.14 - 0.02/2 and 3.14 + 0.02/2 once the texts are read
    as numbers, and the comparator fails, because [typeof test.res] is
    not ['number']. *)
Lemma comparator_fails_on_text_with_delta :
  IsLooselyEqual (JSON_stringify (VNum 3.15)) (VStr "3.14") = false
  /\ (ge (VNum 3.15) (ToNumber (VStr "3.14") - ToNumber (VStr "0.02") / 2)
      && le (VNum 3.15) (ToNumber (VStr "3.14") + ToNumber (VStr "0.02") / 2)
      = true)
  /\ comparator (VNum 3.15) (VStr "3.14") (VStr "0.02") = false.
Proof. vm_compute. repeat split. Qed.

(** The same test with [res] stored as the number 3.14: 3.15 passes, and
    3.13 does not, since 3.14 - 0.02/2 is 3.1300000000000003 in binary64
    arithmetic. *)
Example comparator_tolerance_in_doubles :
  comparator (VNum 3.15) (VNum 3.14) (VNum 0.02) = true
  /\ comparator (VNum 3.15) (VNum 3.14) (VStr "0.02") = true
  /\ comparator (VNum 3.13) (VNum 3.14) (VNum 0.02) = false
  /\ comparator (VNum 3.16) (VNum 3.14) (VNum 0.02) = false.
Proof. vm_compute. repeat split. Qed.

(** With [delta: 0] the tolerance branch is not taken, even for a value
    that is not the text expected and compares equal as a number. *)
Example comparator_delta_zero :
  comparator (VBool true) (VNum 1) (VNum 0) = false
  /\ ge (VBool true) (1 - 0 / 2) && le (VBool true) (1 + 0 / 2) = true.
Proof. vm_compute. split; reflexivity. Qed.

(** C2, as the code has it: when [test.res] is stored as a number and
    [test.delta] is truthy (so neither absent nor 0), and the primary
    check failed, the comparator passes exactly when the value returned,
    coerced to a number, lies between [res - delta/2] and
    [res + delta/2] as binary64 arithmetic computes them, both bounds
    included; when [test.res] is not of type number or [test.delta] is
    falsy, the comparator fails once the primary check failed. *)
Theorem comparator_tolerance (actual expected delta : value) :
  IsLooselyEqual (JSON_stringify actual) expected = false ->
  (forall e, expected = VNum e -> ToBoolean delta = true ->
     (comparator actual expected delta = true <->
      (e - ToNumber delta / 2 <=? ToNumber actual) = true
      /\ (ToNumber actual <=? e + ToNumber delta / 2) = true))
  /\ ((typeof expected <> "number" \/ ToBoolean delta = false) ->
      comparator actual expected delta = false).
Proof.
  intros Hprimary. split.
  - intros e -> Hdelta.
    rewrite comparator_unfold, Hprimary, Hdelta. simpl.
    unfold ge, le. simpl. apply andb_true_iff.
  - intros Hguard. rewrite comparator_unfold, Hprimary. simpl.
    destruct Hguard as [Htype | Hdelta].
    + destruct (String.eqb_spec (typeof expected) "number");
        [contradiction | reflexivity].
    + rewrite Hdelta. now rewrite andb_false_r.
Qed.

Lemma comparator_tolerance_witness :
  IsLooselyEqual (JSON_stringify (VNum 3.15)) (VNum 3.14) = false
  /\ (comparator (VNum 3.15) (VNum 3.14) (VNum 0.02) = true <->
      (3.14 - ToNumber (VNum 0.02) / 2 <=? ToNumber (VNum 3.15)) = true
      /\ (ToNumber (VNum 3.15) <=? 3.14 + ToNumber (VNum 0.02) / 2) = true)
  /\ comparator (VNum 3.15) (VStr "3.14") (VNum 0.02) = false.
Proof.
  assert (H : IsLooselyEqual (JSON_stringify (VNum 3.15)) (VNum 3.14) = false)
    by (vm_compute; reflexivity).
  assert (H' : IsLooselyEqual (JSON_stringify (VNum 3.15)) (VStr "3.14") = false)
    by (vm_compute; reflexivity).
  split; [exact H|]. split.
  - apply (proj1 (comparator_tolerance (VNum 3.15) (VNum 3.14) (VNum 0.02) H)
             3.14 eq_refl).
    vm_compute. reflexivity.
  - apply (proj2 (comparator_tolerance (VNum 3.15) (VStr "3.14") (VNum 0.02) H')).
    left. simpl. discriminate.
Defined.

(** C9: the primary check is the loose equality [==] of the text
    [JSON.stringify] returns with [test.res]: against a number [n] it
    holds exactly when there is such a text and it reads, as a number,
    equal to [n]; an expected value stored as text passes the comparator
    exactly when it is that text, whatever [test.delta]; and the
    tolerance check counts only under [typeof test.res === 'number']. *)
Theorem comparator_loose_equality :
  (forall actual n,
      IsLooselyEqual (JSON_stringify actual) (VNum n) = true <->
      exists s, JSON_stringify actual = Some s
                /\ (StringToNumber s =? n) = true)
  /\ (forall actual s delta,
         comparator actual (VStr s) delta = true <->
         JSON_stringify actual = Some s)
  /\ (forall actual expected delta,
         comparator actual expected delta = true <->
         IsLooselyEqual (JSON_stringify actual) expected = true
         \/ ((exists e, expected = VNum e) /\ ToBoolean delta = true
             /\ ge actual (ToNumber expected - ToNumber delta / 2) = true
             /\ le actual (ToNumber expected + ToNumber delta / 2) = true)).
Proof.
  split; [|split].
  - intros actual n. destruct (JSON_stringify actual) as [s|]; simpl.
    + split.
      * intros H. now exists s.
      * intros [s' [Hs H]]. now inversion Hs; subst.
    + split; [discriminate|]. intros [s [Hs _]]. discriminate.
  - intros actual s delta. rewrite comparator_unfold. simpl.
    rewrite orb_false_r.
    destruct (JSON_stringify actual) as [s'|]; simpl.
    + rewrite String.eqb_eq. split; [now intros -> | now intros [= ->]].
    + split; discriminate.
  - intros actual expected delta. rewrite comparator_unfold.
    rewrite orb_true_iff, !andb_true_iff, typeof_number. tauto.
Qed.

(** A number stored in [test.res] against texts that read equal to it
    or not. *)
Example loose_equality_samples :
  IsLooselyEqual (JSON_stringify (VNum 5)) (VNum 5) = true
  /\ IsLooselyEqual (JSON_stringify (VStr "5")) (VNum 5) = false
  /\ IsLooselyEqual (JSON_stringify (VNum 5)) (VStr "5.0") = false
  /\ IsLooselyEqual (JSON_stringify (VArr [])) (VNum 0) = false
  /\ IsLooselyEqual (JSON_stringify VUndefined) VNull = true.
Proof. vm_compute. repeat split. Qed.
End ComparatorFacts.

(** ** [runTest] *)

(** What a property read returns when it does not throw. *)
Definition field (v : value) (key : string) : value :=
  match Get v key with
  | inl x => x
  | inr _ => VUndefined
  end.

Lemma Get_field (v : value) (key : string) (x : value) :
  Get v key = inl x -> forall key', Get v key' = inl (field v key').
Proof.
  intros H key'. unfold field.
  destruct v; simpl in *; try discriminate; reflexivity.
Qed.

Definition not_nullish (v : value) : bool :=
  match v with
  | VUndefined | VNull => false
  | _ => true
  end.

Lemma Get_not_nullish (v : value) (key : string) :
  not_nullish v = true -> Get v key = inl (field v key).
Proof.
  intros H. unfold field. destruct v; simpl in *; try discriminate; reflexivity.
Qed.

(** The result [{pass: false, error: e}] of the [catch] block. *)
Definition error_result (e : thrown) : test_result :=
  {| pass := false; res := None; error := Some e;
     time := None; validityPass := None |}.

(** The values caught that convert to a string. *)
Definition printable (e : thrown) : bool :=
  match e with
  | ThrownSymbol _ => false
  | _ => true
  end.

Lemma printable_to_string (e : thrown) :
  printable e = true -> exists text, thrown_to_string e = inl text.
Proof. destruct e; simpl; try discriminate; eauto. Qed.

Lemma Get_throws_exception (v : value) (key : string) (e : thrown) :
  Get v key = inr e -> exists name message, e = Exception name message.
Proof. destruct v; simpl; intros H; inversion H; eauto. Qed.

(** The solution and the benchmark throw only values that convert to a
    string. *)
Definition throws_printable (sandbox : Sandbox) : Prop :=
  forall code w e w',
    (vm_runInNewContext code w = (inr e, w') -> printable e = true)
    /\ (vm_benchmark code w = (inr e, w') -> printable e = true).

Section RunTestFacts.
Context {sandbox : Sandbox}.

(** The state after some more events, in the world [w]. *)
Definition after (s : state) (w : world) (evs : list event) : state :=
  {| st_world := w; st_trace := st_trace s ++ evs |}.

Lemma after_nil (s : state) : after s (st_world s) [] = s.
Proof. destruct s. unfold after. simpl. now rewrite app_nil_r. Qed.

Lemma after_after (s : state) w1 w2 evs1 evs2 :
  after (after s w1 evs1) w2 evs2 = after s w2 (evs1 ++ evs2).
Proof. unfold after. simpl. now rewrite app_assoc. Qed.

(** The six ways through [runTest], each with the result returned, the
    world left behind and the events on the way. *)
Inductive runTest_spec (fnName test content : value) (w : world)
  : test_result -> world -> list event -> Prop :=
| run_no_test e :
    Get test "args" = inr e ->
    runTest_spec fnName test content w (error_result e) w []
| run_eval_throws e w1 :
    not_nullish test = true ->
    vm_runInNewContext
      (test_runner_code content fnName (field test "args")) w = (inr e, w1) ->
    runTest_spec fnName test content w (error_result e) w1
      [VmRun (test_runner_code content fnName (field test "args"))]
| run_compared v w1 :
    not_nullish test = true ->
    vm_runInNewContext
      (test_runner_code content fnName (field test "args")) w = (inl v, w1) ->
    comparator v (field test "res") (field test "delta")
    && ToBoolean (field test "max_time_s") = false ->
    runTest_spec fnName test content w
      {| pass := comparator v (field test "res") (field test "delta");
         res := Some v; error := None; time := None; validityPass := None |}
      w1
      [VmRun (test_runner_code content fnName (field test "args"))]
| run_bench_throws v w1 e w2 :
    not_nullish test = true ->
    vm_runInNewContext
      (test_runner_code content fnName (field test "args")) w = (inl v, w1) ->
    comparator v (field test "res") (field test "delta") = true ->
    ToBoolean (field test "max_time_s") = true ->
    vm_benchmark
      (benchmark_runner_code content fnName (field test "args")) w1 = (inr e, w2) ->
    runTest_spec fnName test content w (error_result e) w2
      [VmRun (test_runner_code content fnName (field test "args"));
       VmBench (benchmark_runner_code content fnName (field test "args"))]
| run_too_slow v w1 mean w2 :
    not_nullish test = true ->
    vm_runInNewContext
      (test_runner_code content fnName (field test "args")) w = (inl v, w1) ->
    comparator v (field test "res") (field test "delta") = true ->
    ToBoolean (field test "max_time_s") = true ->
    vm_benchmark
      (benchmark_runner_code content fnName (field test "args")) w1 = (inl mean, w2) ->
    gt mean (field test "max_time_s") = true ->
    runTest_spec fnName test content w
      {| pass := false; res := Some v; error := None;
         time := Some mean; validityPass := Some true |}
      w2
      [VmRun (test_runner_code content fnName (field test "args"));
       VmBench (benchmark_runner_code content fnName (field test "args"))]
| run_in_time v w1 mean w2 :
    not_nullish test = true ->
    vm_runInNewContext
      (test_runner_code content fnName (field test "args")) w = (inl v, w1) ->
    comparator v (field test "res") (field test "delta") = true ->
    ToBoolean (field test "max_time_s") = true ->
    vm_benchmark
      (benchmark_runner_code content fnName (field test "args")) w1 = (inl mean, w2) ->
    gt mean (field test "max_time_s") = false ->
    runTest_spec fnName test content w
      {| pass := true; res := Some v; error := None;
         time := Some mean; validityPass := None |}
      w2
      [VmRun (test_runner_code content fnName (field test "args"));
       VmBench (benchmark_runner_code content fnName (field test "args"))].

Lemma Get_throws_or_not (v : value) (key : string) :
  (exists e, Get v key = inr e) \/ not_nullish v = true.
Proof. destruct v; simpl; eauto. Qed.

(** [runTest] always returns, and takes one of the six ways. *)
Lemma runTest_run (fnName test content : value) (s : state) :
  exists r w evs,
    runTest fnName test content s = (inl r, after s w evs)
    /\ runTest_spec fnName test content (st_world s) r w evs.
Proof.
  unfold runTest, try_catch, bind, lift, ret.
  destruct (Get_throws_or_not test "args") as [[e He] | Hdef].
  - rewrite He. exists (error_result e), (st_world s), [].
    rewrite after_nil. split; [reflexivity | now constructor].
  - rewrite !(Get_not_nullish test _ Hdef).
    unfold run_in_new_context.
    destruct (vm_runInNewContext _ (st_world s)) as [[v | e] w1] eqn:Hrun.
    + simpl.
      destruct (comparator v (field test "res") (field test "delta")
                && ToBoolean (field test "max_time_s")) eqn:Hguard.
      * apply andb_true_iff in Hguard as [Hcmp Hmax].
        unfold run_benchmark. simpl.
        destruct (vm_benchmark _ w1) as [[mean | e] w2] eqn:Hbench.
        -- rewrite Hmax. simpl.
           destruct (gt mean (field test "max_time_s")) eqn:Hgt.
           ++ eexists _, w2, [_; _]. split.
              { unfold after. simpl. rewrite <- app_assoc. reflexivity. }
              eapply run_too_slow; eauto.
           ++ rewrite Hcmp. eexists _, w2, [_; _]. split.
              { unfold after. simpl. rewrite <- app_assoc. reflexivity. }
              eapply run_in_time; eauto.
        -- eexists _, w2, [_; _]. split.
           { unfold after. simpl. rewrite <- app_assoc. reflexivity. }
           eapply run_bench_throws; eauto.
      * eexists _, w1, [_]. split; [reflexivity|].
        eapply run_compared; eauto.
    + eexists _, w1, [_]. split; [reflexivity|].
      eapply run_eval_throws; eauto.
Qed.

Lemma runTest_spec_printable fnName test content w r w' evs :
  throws_printable sandbox ->
  runTest_spec fnName test content w r w' evs ->
  forall e, error r = Some e -> printable e = true.
Proof.
  intros Hsandbox Hspec e He.
  inversion Hspec; subst; simpl in He; try discriminate; inversion He; subst.
  - match goal with
    | H : Get _ _ = inr _ |- _ =>
        destruct (Get_throws_exception _ _ _ H) as (name & message & ->)
    end.
    reflexivity.
  - match goal with
    | H : vm_runInNewContext _ _ = (inr _, _) |- _ =>
        exact (proj1 (Hsandbox _ _ _ _) H)
    end.
  - match goal with
    | H : vm_benchmark _ _ = (inr _, _) |- _ =>
        exact (proj2 (Hsandbox _ _ _ _) H)
    end.
Qed.

Lemma runTest_inv (fnName test content : value) (s s' : state) r :
  runTest fnName test content s = (inl r, s') ->
  exists w evs,
    s' = after s w evs
    /\ runTest_spec fnName test content (st_world s) r w evs.
Proof.
  intros H.
  destruct (runTest_run fnName test content s) as (r0 & w & evs & Hrun & Hspec).
  rewrite Hrun in H. inversion H; subst. eauto.
Qed.

Lemma runTest_never_throws (fnName test content : value) (s s' : state) e :
  runTest fnName test content s <> (inr e, s').
Proof.
  destruct (runTest_run fnName test content s) as (r0 & w & evs & Hrun & _).
  rewrite Hrun. discriminate.
Qed.
End RunTestFacts.

(** ** Loops and objects as property lists *)

Lemma for_in_cons {S Acc : Type} (key : string) (keys : list string)
  (body : string -> Acc -> M S Acc) (acc : Acc) (s : S) :
  for_in (key :: keys) body acc s
  = match body key acc s with
    | (inl acc', s') => for_in keys body acc' s'
    | (inr e, s') => (inr e, s')
    end.
Proof. reflexivity. Qed.


Section PropertyLists.
Context {A : Type}.
Implicit Types (l : list (string * A)) (key : string).

Lemma assoc_In_NoDup l key x :
  NoDup (map fst l) -> In (key, x) l -> assoc key l = Some x.
Proof.
  induction l as [|[k y] l IH]; simpl; intros Hnd Hin; [contradiction|].
  inversion Hnd as [|? ? Hk Hnd']; subst.
  destruct Hin as [Heq | Hin].
  - inversion Heq; subst. now rewrite String.eqb_refl.
  - destruct (String.eqb_spec k key) as [-> | _].
    + exfalso. apply Hk. now apply (in_map fst) in Hin.
    + now apply IH.
Qed.

Lemma assoc_app_last l key x :
  ~ In key (map fst l) -> assoc key (l ++ [(key, x)])%list = Some x.
Proof.
  induction l as [|[k y] l IH]; simpl; intros Hfresh.
  - now rewrite String.eqb_refl.
  - destruct (String.eqb_spec k key) as [-> | _]; [tauto|].
    apply IH. tauto.
Qed.

Lemma obj_set_app_last l key x y :
  ~ In key (map fst l) -> obj_set key x (l ++ [(key, y)])%list = (l ++ [(key, x)])%list.
Proof.
  induction l as [|[k z] l IH]; simpl; intros Hfresh.
  - now rewrite String.eqb_refl.
  - destruct (String.eqb_spec k key) as [-> | _]; [tauto|].
    f_equal. apply IH. tauto.
Qed.

Lemma obj_set_fresh l key x :
  ~ In key (map fst l) -> obj_set key x l = (l ++ [(key, x)])%list.
Proof.
  induction l as [|[k z] l IH]; simpl; intros Hfresh; [reflexivity|].
  destruct (String.eqb_spec k key) as [-> | _]; [tauto|].
  f_equal. apply IH. tauto.
Qed.
End PropertyLists.

Fixpoint distinct (l : list string) : bool :=
  match l with
  | [] => true
  | x :: l' => negb (existsb (String.eqb x) l') && distinct l'
  end.

Lemma distinct_NoDup (l : list string) : distinct l = true -> NoDup l.
Proof.
  induction l as [|x l IH]; simpl; intros H; constructor;
    apply andb_true_iff in H as [Hx Hl].
  - intros Hin. apply negb_true_iff in Hx.
    assert (existsb (String.eqb x) l = true); [|congruence].
    apply existsb_exists. exists x. split; [assumption | apply String.eqb_refl].
  - now apply IH.
Qed.

(** ** [Challenge.test] against a run of the selected tests in declared
    order *)

(** The properties of a plain object. *)
Definition props_of (v : value) : list (string * value) :=
  match v with
  | VObj props => props
  | _ => []
  end.

(** [all || test.visible] *)
Definition selected (all : bool) (test : value) : bool :=
  all || ToBoolean (field test "visible").

Definition selected_cases (all : bool) (suite : value)
  : list (string * value) :=
  filter (fun case => selected all (snd case)) (props_of suite).

Definition has_cases (suite : value) : bool :=
  match props_of suite with
  | [] => false
  | _ :: _ => true
  end.

(** The shape the data model gives a challenge: [tests] maps suite names
    to objects that map test names to test cases, none of them [null] or
    [undefined]. *)
Definition suite_ok (suite : value) : bool :=
  match suite with
  | VObj props =>
      distinct (map fst props) && forallb (fun case => not_nullish (snd case)) props
  | _ => false
  end.

Definition tests_ok (tests : value) : bool :=
  match tests with
  | VObj suites =>
      distinct (map fst suites) && forallb (fun suite => suite_ok (snd suite)) suites
  | _ => false
  end.

Definition passed (entry : string * test_result) : bool := pass (snd entry).

Definition failures (rs : list (string * test_result)) : nat :=
  List.length (filter (fun entry => negb (passed entry)) rs).

Definition suite_passed (entry : string * suite_result) : bool :=
  suite_pass (snd entry).

Section TestEngineFacts.
Context {sandbox : Sandbox}.
Variables (data : value) (all : bool) (content : string).

(** The line that explains a failure. *)
Definition failure_line (test : value) (r : test_result) : line :=
  if ToBoolean (field test "max_time_s")
     && Challenge.over_limit (time r) (field test "max_time_s")
  then WentOverLimit (field test "max_time_s")
  else
    match error r with
    | Some e =>
        if thrown_truthy e then
          ReceivedError match thrown_to_string e with
                        | inl text => text
                        | inr _ => ""
                        end
        else ExpectedButGot (field test "res") (field test "delta") (res r)
    | None => ExpectedButGot (field test "res") (field test "delta") (res r)
    end.

Lemma explain_failure_run (test : value) (r : test_result) (s : state) :
  not_nullish test = true ->
  (forall e, error r = Some e -> printable e = true) ->
  Challenge.explain_failure test r s
  = (inl tt, after s (st_world s) [Out (failure_line test r)]).
Proof.
  intros Htest Hprintable.
  unfold Challenge.explain_failure, failure_line, bind, lift.
  rewrite !(Get_not_nullish test _ Htest).
  destruct (ToBoolean (field test "max_time_s")
            && Challenge.over_limit (time r) (field test "max_time_s"));
    [reflexivity|].
  destruct (error r) as [e|]; [|reflexivity].
  destruct (thrown_truthy e); [|reflexivity].
  destruct (printable_to_string e (Hprintable e eq_refl)) as (text & ->).
  reflexivity.
Qed.

(** One selected test: its line, [runTest], the lines on its outcome. *)
Definition run_case (testName : string) (test : value) (s : state)
  : test_result * state :=
  let s1 := after s (st_world s)
              [Out (TestLine testName (field test "args") (field test "res"))] in
  match runTest (field data "fn_name") test (VStr content) s1 with
  | (inl r, s2) =>
      (r, after s2 (st_world s2)
            (Out (OutcomeLine test r)
             :: if pass r then [] else [Out (failure_line test r)]))
  | (inr e, s2) => (error_result e, s2)
  end.

Fixpoint run_cases (cases : list (string * value)) (s : state)
  : list (string * test_result) * state :=
  match cases with
  | [] => ([], s)
  | (testName, test) :: cases' =>
      let (r, s1) := run_case testName test s in
      let (rs, s2) := run_cases cases' s1 in
      ((testName, r) :: rs, s2)
  end.

(** The suites with at least one declared test, each with the results
    of its selected tests. *)
Fixpoint run_suites (suites : list (string * value)) (s : state)
  : list (string * suite_result) * state :=
  match suites with
  | [] => ([], s)
  | (suiteName, suite) :: suites' =>
      if has_cases suite then
        let (rs, s1) :=
          run_cases (selected_cases all suite)
            (after s (st_world s) [Out (SuiteLine suiteName)]) in
        let (entries, s2) := run_suites suites' s1 in
        ((suiteName,
          {| suite_pass := forallb passed rs; suite_tests := rs |}) :: entries,
         s2)
      else run_suites suites' s
  end.

Definition all_failures (entries : list (string * suite_result)) : nat :=
  fold_right (fun entry n => (failures (suite_tests (snd entry)) + n)%nat) 0%nat
    entries.

(** The report while the suite [suiteName] is being run. *)
Definition running (ok : bool) (prev : list (string * suite_result))
  (suiteName : string) (suite_ok : bool) (ts : list (string * test_result))
  : report :=
  {| report_all := all;
     report_pass := ok;
     report_suites :=
       prev ++ [(suiteName, {| suite_pass := suite_ok; suite_tests := ts |})] |}.

Hypothesis data_defined : not_nullish data = true.
Hypothesis sandbox_printable : throws_printable sandbox.

Lemma test_case_step (suiteName : string) (props : list (string * value))
  (prev : list (string * suite_result)) (testName : string) (test : value)
  (ok sok : bool) (ts : list (string * test_result)) (fails : nat) (s : state) :
  assoc testName props = Some test ->
  not_nullish test = true ->
  ~ In suiteName (map fst prev) ->
  ~ In testName (map fst ts) ->
  Challenge.test_case data all content suiteName (VObj props) testName
    (running ok prev suiteName sok ts, fails) s
  = if selected all test then
      (inl (running (ok && pass (fst (run_case testName test s))) prev suiteName
              (sok && pass (fst (run_case testName test s)))
              (ts ++ [(testName, fst (run_case testName test s))]),
            (fails + failures [(testName, fst (run_case testName test s))])%nat),
       snd (run_case testName test s))
    else (inl (running ok prev suiteName sok ts, fails), s).
Proof.
  intros Hassoc Htest Hsuite Hfresh.
  unfold Challenge.test_case, bind, lift, ret. simpl Get. rewrite Hassoc.
  unfold selected.
  destruct all; simpl orb; cbv iota beta;
    [| rewrite (Get_not_nullish test "visible" Htest);
       destruct (ToBoolean (field test "visible")); [|reflexivity] ].
  all: cbv iota beta.
  all: rewrite !(Get_not_nullish test _ Htest).
  all: rewrite (Get_not_nullish data _ data_defined).
  all: destruct (runTest_run (field data "fn_name") test (VStr content)
              (after s (st_world s)
                 [Out (TestLine testName (field test "args") (field test "res"))]))
    as (r & w & evs & Hrun & Hspec).
  all: pose proof (runTest_spec_printable _ _ _ _ _ _ _ sandbox_printable Hspec)
    as Hprintable.
  all: assert (Hcase :
      run_case testName test s
      = (r, after
              (after
                 (after s (st_world s)
                    [Out (TestLine testName (field test "args") (field test "res"))])
                 w evs)
              w
              (Out (OutcomeLine test r)
               :: if pass r then [] else [Out (failure_line test r)])))
    by (unfold run_case; rewrite Hrun; reflexivity).
  all: rewrite Hcase; simpl fst; simpl snd.
  all: unfold console; simpl.
  all: unfold after in Hrun; simpl in Hrun; rewrite Hrun; simpl.
  all: unfold Challenge.set_test, running; simpl.
  all: rewrite (assoc_app_last prev suiteName _ Hsuite).
  all: rewrite (obj_set_app_last prev suiteName _ _ Hsuite); simpl.
  all: rewrite (obj_set_fresh ts testName r Hfresh).
  all: unfold failures, passed; simpl.
  all: destruct (pass r); simpl.
  all: try (rewrite !andb_true_r, Nat.add_0_r; unfold after; simpl;
            reflexivity).
  all: unfold Challenge.set_failed; simpl.
  all: rewrite (assoc_app_last prev suiteName _ Hsuite).
  all: rewrite (obj_set_app_last prev suiteName _ _ Hsuite); simpl.
  all: rewrite (explain_failure_run test r _ Htest Hprintable).
  all: unfold after; simpl.
  all: rewrite !andb_false_r, Nat.add_1_r, <- !app_assoc; reflexivity.
Qed.

Lemma failures_cons (entry : string * test_result) rs :
  failures (entry :: rs) = (failures [entry] + failures rs)%nat.
Proof. unfold failures. simpl. now destruct (negb (passed entry)). Qed.

(** The inner loop, over any part [cases] of the suite's properties. *)
Lemma test_cases_loop (suiteName : string) (props : list (string * value))
  (prev : list (string * suite_result)) :
  ~ In suiteName (map fst prev) ->
  forall cases,
    (forall testName test, In (testName, test) cases ->
       assoc testName props = Some test /\ not_nullish test = true) ->
    NoDup (map fst cases) ->
    forall ok sok ts fails s,
      (forall testName, In testName (map fst cases) -> ~ In testName (map fst ts)) ->
      for_in (map fst cases)
        (Challenge.test_case data all content suiteName (VObj props))
        (running ok prev suiteName sok ts, fails) s
      = (inl (running
                (ok && forallb passed
                   (fst (run_cases (filter (fun c => selected all (snd c)) cases) s)))
                prev suiteName
                (sok && forallb passed
                   (fst (run_cases (filter (fun c => selected all (snd c)) cases) s)))
                (ts ++ fst (run_cases (filter (fun c => selected all (snd c)) cases) s)),
              (fails + failures
                 (fst (run_cases (filter (fun c => selected all (snd c)) cases) s)))%nat),
         snd (run_cases (filter (fun c => selected all (snd c)) cases) s)).
Proof.
  intros Hsuite cases.
  induction cases as [|[testName test] cases IH];
    intros Hprops Hnd ok sok ts fails s Hfresh.
  - simpl. unfold ret. unfold failures. simpl.
    now rewrite !andb_true_r, app_nil_r, Nat.add_0_r.
  - simpl map. rewrite for_in_cons.
    destruct (Hprops testName test (or_introl eq_refl)) as [Hassoc Htest].
    inversion Hnd as [|? ? Hnotin Hnd']; subst.
    rewrite (test_case_step suiteName props prev testName test ok sok ts
               fails s Hassoc Htest Hsuite
               (Hfresh testName (or_introl eq_refl))).
    simpl filter. simpl snd.
    destruct (selected all test).
    + simpl run_cases.
      destruct (run_case testName test s) as [r s1]. simpl fst. simpl snd.
      rewrite IH.
      * destruct (run_cases (filter (fun c => selected all (snd c)) cases) s1)
          as [rs s2].
        simpl fst. simpl snd. simpl forallb.
        rewrite (failures_cons (testName, r) rs).
        unfold passed at 2 4. simpl snd.
        rewrite <- !andb_assoc, <- app_assoc, Nat.add_assoc. reflexivity.
      * intros k v Hin. apply Hprops. now right.
      * assumption.
      * intros k Hin Hin'. rewrite map_app in Hin'. apply in_app_or in Hin'.
        destruct Hin' as [Hin' | Hin'].
        -- apply (Hfresh k); [now right | assumption].
        -- simpl in Hin'. destruct Hin' as [<- | []]. contradiction.
    + apply IH.
      * intros k v Hin. apply Hprops. now right.
      * assumption.
      * intros k Hin. apply Hfresh. now right.
Qed.

Lemma suite_ok_props (suite : value) :
  suite_ok suite = true ->
  suite = VObj (props_of suite)
  /\ NoDup (map fst (props_of suite))
  /\ (forall testName test, In (testName, test) (props_of suite) ->
        assoc testName (props_of suite) = Some test /\ not_nullish test = true).
Proof.
  destruct suite; simpl; try discriminate.
  intros H. apply andb_true_iff in H as [Hd Hall].
  apply distinct_NoDup in Hd.
  split; [reflexivity|]. split; [assumption|].
  intros testName test Hin. split.
  - now apply assoc_In_NoDup.
  - rewrite forallb_forall in Hall. apply (Hall _ Hin).
Qed.

(** One round of the outer loop. *)
Lemma test_suite_step (suites : list (string * value))
  (prev : list (string * suite_result)) (suiteName : string) (suite : value)
  (ok : bool) (fails : nat) (s : state) :
  assoc suiteName suites = Some suite ->
  suite_ok suite = true ->
  ~ In suiteName (map fst prev) ->
  Challenge.test_suite data all content (VObj suites) suiteName
    ({| report_all := all; report_pass := ok; report_suites := prev |}, fails) s
  = if has_cases suite then
      (inl ({| report_all := all;
               report_pass :=
                 ok && forallb passed
                   (fst (run_cases (selected_cases all suite)
                           (after s (st_world s) [Out (SuiteLine suiteName)])));
               report_suites :=
                 prev ++
                 [(suiteName,
                   {| suite_pass :=
                        forallb passed
                          (fst (run_cases (selected_cases all suite)
                                  (after s (st_world s) [Out (SuiteLine suiteName)])));
                      suite_tests :=
                        fst (run_cases (selected_cases all suite)
                               (after s (st_world s) [Out (SuiteLine suiteName)])) |})] |},
            (fails + failures
               (fst (run_cases (selected_cases all suite)
                       (after s (st_world s) [Out (SuiteLine suiteName)]))))%nat),
       snd (run_cases (selected_cases all suite)
              (after s (st_world s) [Out (SuiteLine suiteName)])))
    else
      (inl ({| report_all := all; report_pass := ok; report_suites := prev |},
            fails), s).
Proof.
  intros Hassoc Hok Hfresh.
  destruct (suite_ok_props suite Hok) as (Hshape & Hnd & Hprops).
  unfold Challenge.test_suite, bind, lift, ret. simpl Get. rewrite Hassoc.
  rewrite Hshape. simpl Object_keys. unfold has_cases. simpl props_of.
  destruct (props_of suite) as [|case props] eqn:Hcases; [reflexivity|].
  rewrite <- Hcases in *.
  replace (Nat.eqb (List.length (map fst (props_of suite))) 0) with false
    by (rewrite Hcases; reflexivity).
  unfold console. simpl report_suites. simpl report_all. simpl report_pass.
  rewrite (obj_set_fresh prev suiteName _ Hfresh).
  pose proof (test_cases_loop suiteName (props_of suite) prev Hfresh
                (props_of suite) Hprops Hnd ok true [] fails
                (after s (st_world s) [Out (SuiteLine suiteName)])
                (fun _ _ H => H)) as Hloop.
  unfold running in Hloop. unfold after in Hloop at 1. simpl own_keys.
  rewrite Hloop. unfold selected_cases. rewrite <- Hshape.
  simpl. reflexivity.
Qed.

(** The outer loop, over any part of the declared suites. *)
Lemma test_suites_loop (suites : list (string * value)) :
  forall part,
    (forall suiteName suite, In (suiteName, suite) part ->
       assoc suiteName suites = Some suite /\ suite_ok suite = true) ->
    NoDup (map fst part) ->
    forall prev ok fails s,
      (forall suiteName, In suiteName (map fst part) ->
                         ~ In suiteName (map fst prev)) ->
      for_in (map fst part) (Challenge.test_suite data all content (VObj suites))
        ({| report_all := all; report_pass := ok; report_suites := prev |}, fails) s
      = (inl ({| report_all := all;
                 report_pass := ok && forallb suite_passed (fst (run_suites part s));
                 report_suites := prev ++ fst (run_suites part s) |},
              (fails + all_failures (fst (run_suites part s)))%nat),
         snd (run_suites part s)).
Proof.
  induction part as [|[suiteName suite] part IH];
    intros Hpart Hnd prev ok fails s Hfresh.
  - simpl. unfold ret. now rewrite andb_true_r, app_nil_r, Nat.add_0_r.
  - simpl map. rewrite for_in_cons.
    destruct (Hpart suiteName suite (or_introl eq_refl)) as [Hassoc Hok].
    inversion Hnd as [|? ? Hnotin Hnd']; subst.
    rewrite (test_suite_step suites prev suiteName suite ok fails s Hassoc Hok
               (Hfresh suiteName (or_introl eq_refl))).
    simpl run_suites.
    destruct (has_cases suite).
    + destruct (run_cases (selected_cases all suite)
                  (after s (st_world s) [Out (SuiteLine suiteName)]))
        as [rs s1].
      simpl fst. simpl snd. rewrite IH.
      * destruct (run_suites part s1) as [entries s2].
        simpl fst. simpl snd. simpl forallb. unfold suite_passed at 2.
        simpl suite_pass. simpl all_failures.
        rewrite <- !andb_assoc, <- app_assoc, Nat.add_assoc. reflexivity.
      * intros k v Hin. apply Hpart. now right.
      * assumption.
      * intros k Hin Hin'. rewrite map_app in Hin'. apply in_app_or in Hin'.
        destruct Hin' as [Hin' | Hin'].
        -- apply (Hfresh k); [now right | assumption].
        -- simpl in Hin'. destruct Hin' as [<- | []]. contradiction.
    + apply IH.
      * intros k v Hin. apply Hpart. now right.
      * assumption.
      * intros k Hin. apply Hfresh. now right.
Qed.

Lemma tests_ok_suites (tests : value) :
  tests_ok tests = true ->
  tests = VObj (props_of tests)
  /\ NoDup (map fst (props_of tests))
  /\ (forall suiteName suite, In (suiteName, suite) (props_of tests) ->
        assoc suiteName (props_of tests) = Some suite /\ suite_ok suite = true).
Proof.
  destruct tests; simpl; try discriminate.
  intros H. apply andb_true_iff in H as [Hd Hall].
  apply distinct_NoDup in Hd.
  split; [reflexivity|]. split; [assumption|].
  intros suiteName suite Hin. split.
  - now apply assoc_In_NoDup.
  - rewrite forallb_forall in Hall. apply (Hall _ Hin).
Qed.

(** [Challenge.test] on a challenge of the expected shape returns the
    report of the suites run in declared order. *)
Lemma test_refines (s : state) :
  tests_ok (field data "tests") = true ->
  Challenge.test data all content s
  = (inl {| report_all := all;
            report_pass :=
              forallb suite_passed
                (fst (run_suites (props_of (field data "tests")) s));
            report_suites := fst (run_suites (props_of (field data "tests")) s) |},
     after (snd (run_suites (props_of (field data "tests")) s))
       (st_world (snd (run_suites (props_of (field data "tests")) s)))
       [Out (SummaryLine
               (all_failures
                  (fst (run_suites (props_of (field data "tests")) s))))]).
Proof.
  intros Hok.
  destruct (tests_ok_suites _ Hok) as (Hshape & Hnd & Hsuites).
  unfold Challenge.test, bind, lift.
  rewrite (Get_not_nullish data "tests" data_defined).
  rewrite Hshape at 1 2. simpl own_keys.
  rewrite (test_suites_loop (props_of (field data "tests"))
             (props_of (field data "tests")) Hsuites Hnd [] true 0%nat s
             (fun _ _ H => H)).
  simpl. reflexivity.
Qed.
End TestEngineFacts.

(** ** What the report and the trace of [Challenge.test] look like *)

(** The names on the [TestLine]s of a trace: the tests executed, in the
    order of execution. *)
Definition executed_tests (evs : list event) : list string :=
  flat_map (fun ev => match ev with
                      | Out (TestLine testName _ _) => [testName]
                      | _ => []
                      end) evs.

(** The selected tests of the declared suites, in declared order. *)
Definition selected_tests (all : bool) (tests : value) : list string :=
  flat_map (fun suite => map fst (selected_cases all (snd suite))) (props_of tests).

(** An entry of [results.suites] against the declared suite it is for. *)
Definition entry_for (all : bool) (entry : string * suite_result)
  (suite : string * value) : Prop :=
  fst entry = fst suite
  /\ map fst (suite_tests (snd entry)) = map fst (selected_cases all (snd suite))
  /\ suite_pass (snd entry) = forallb passed (suite_tests (snd entry)).

Section ReportFacts.
Context {sandbox : Sandbox}.
Variables (data : value) (all : bool) (content : string).

(** A result that some call of [runTest] returned. *)
Definition from_runTest (r : test_result) : Prop :=
  exists fnName test s s',
    runTest fnName test (VStr content) s = (inl r, s').

Lemma executed_tests_app (evs1 evs2 : list event) :
  executed_tests (evs1 ++ evs2) = (executed_tests evs1 ++ executed_tests evs2)%list.
Proof. apply flat_map_app. Qed.

Lemma runTest_spec_executed fnName test c w r w' evs :
  runTest_spec fnName test c w r w' evs -> executed_tests evs = [].
Proof. intros H. inversion H; reflexivity. Qed.

Lemma run_case_facts (testName : string) (test : value) (s : state) :
  executed_tests (st_trace (snd (run_case data content testName test s)))
  = (executed_tests (st_trace s) ++ [testName])%list
  /\ from_runTest (fst (run_case data content testName test s)).
Proof.
  unfold run_case.
  destruct (runTest_run (field data "fn_name") test (VStr content)
              (after s (st_world s)
                 [Out (TestLine testName (field test "args") (field test "res"))]))
    as (r & w & evs & Hrun & Hspec).
  rewrite Hrun. simpl. split.
  - rewrite !executed_tests_app, (runTest_spec_executed _ _ _ _ _ _ _ Hspec).
    assert (Hlines : executed_tests
                       (Out (OutcomeLine test r)
                        :: (if pass r then [] else [Out (failure_line test r)]))
                     = []).
    { destruct (pass r); [reflexivity|]. unfold failure_line.
      destruct (ToBoolean (field test "max_time_s")
                && Challenge.over_limit (time r) (field test "max_time_s"));
        [reflexivity|].
      destruct (error r) as [e|]; [|reflexivity].
      destruct (thrown_truthy e); reflexivity. }
    rewrite Hlines. simpl. now rewrite !app_nil_r.
  - red. eauto.
Qed.

Lemma run_cases_facts (cases : list (string * value)) :
  forall s,
    executed_tests (st_trace (snd (run_cases data content cases s)))
    = (executed_tests (st_trace s) ++ map fst cases)%list
    /\ map fst (fst (run_cases data content cases s)) = map fst cases
    /\ Forall (fun t => from_runTest (snd t)) (fst (run_cases data content cases s)).
Proof.
  induction cases as [|[testName test] cases IH]; intros s; simpl.
  - now rewrite app_nil_r.
  - destruct (run_case_facts testName test s) as [Htrace Hfrom].
    destruct (run_case data content testName test s) as [r s1].
    destruct (IH s1) as (Htrace' & Hnames & Hall).
    destruct (run_cases data content cases s1) as [rs s2].
    simpl in *. rewrite Htrace', Htrace, <- app_assoc, Hnames.
    repeat split. now constructor.
Qed.

Lemma run_suites_facts (suites : list (string * value)) :
  forall s,
    executed_tests (st_trace (snd (run_suites data all content suites s)))
    = (executed_tests (st_trace s)
       ++ flat_map (fun suite => map fst (selected_cases all (snd suite))) suites)%list
    /\ Forall2 (entry_for all) (fst (run_suites data all content suites s))
         (filter (fun suite => has_cases (snd suite)) suites)
    /\ Forall (fun entry => Forall (fun t => from_runTest (snd t))
                              (suite_tests (snd entry)))
         (fst (run_suites data all content suites s)).
Proof.
  induction suites as [|[suiteName suite] suites IH]; intros s; simpl.
  - rewrite app_nil_r. repeat split; constructor.
  - destruct (has_cases suite) eqn:Hcases.
    + destruct (run_cases_facts (selected_cases all suite)
                  (after s (st_world s) [Out (SuiteLine suiteName)]))
        as (Htrace & Hnames & Hall).
      destruct (run_cases data content (selected_cases all suite)
                  (after s (st_world s) [Out (SuiteLine suiteName)]))
        as [rs s1].
      destruct (IH s1) as (Htrace' & Hentries & Hall').
      destruct (run_suites data all content suites s1) as [entries s2].
      simpl in *. rewrite Htrace', Htrace, executed_tests_app. simpl.
      rewrite app_nil_r, <- app_assoc.
      repeat split; try constructor; try assumption.
      repeat split; assumption.
    + replace (selected_cases all suite) with (@nil (string * value)).
      * apply IH.
      * unfold has_cases in Hcases. unfold selected_cases.
        now destruct (props_of suite).
Qed.

(** The report of a run on a challenge of the expected shape. *)
Lemma test_report (s : state) :
  throws_printable sandbox ->
  not_nullish data = true ->
  tests_ok (field data "tests") = true ->
  exists r s',
    Challenge.test data all content s = (inl r, s')
    /\ report_all r = all
    /\ report_pass r = forallb suite_passed (report_suites r)
    /\ Forall2 (entry_for all) (report_suites r)
         (filter (fun suite => has_cases (snd suite))
            (props_of (field data "tests")))
    /\ executed_tests (st_trace s')
       = (executed_tests (st_trace s) ++ selected_tests all (field data "tests"))%list
    /\ Forall (fun entry => Forall (fun t => from_runTest (snd t))
                              (suite_tests (snd entry)))
         (report_suites r).
Proof.
  intros Hsandbox Hdata Hok.
  rewrite (test_refines data all content Hdata Hsandbox s Hok).
  destruct (run_suites_facts (props_of (field data "tests")) s)
    as (Htrace & Hentries & Hall).
  eexists _, _. split; [reflexivity|]. simpl.
  repeat split; try assumption.
  rewrite executed_tests_app, Htrace. simpl. now rewrite app_nil_r.
Qed.

(** A failed test fails its suite and the report. *)
Lemma failed_test_fails_suite (r : report) (suiteName testName : string)
  (sr : suite_result) (tr : test_result) :
  report_pass r = forallb suite_passed (report_suites r) ->
  suite_pass sr = forallb passed (suite_tests sr) ->
  In (suiteName, sr) (report_suites r) ->
  In (testName, tr) (suite_tests sr) ->
  pass tr = false ->
  suite_pass sr = false /\ report_pass r = false.
Proof.
  intros Hreport Hsuite Hin Hin' Hfail.
  assert (Hsr : suite_pass sr = false).
  { rewrite Hsuite. apply not_true_is_false. intros Hall.
    rewrite forallb_forall in Hall. specialize (Hall _ Hin').
    unfold passed in Hall. simpl in Hall. congruence. }
  split; [assumption|].
  rewrite Hreport. apply not_true_is_false. intros Hall.
  rewrite forallb_forall in Hall. specialize (Hall _ Hin).
  unfold suite_passed in Hall. simpl in Hall. congruence.
Qed.
End ReportFacts.

(** ** The claims on [runTest] and [Challenge.test] *)

Section EngineClaims.
Context {sandbox : Sandbox}.

Lemma runTest_spec_exclusive fnName test content w r w' evs :
  runTest_spec fnName test content w r w' evs ->
  ~ (pass r = true /\ validityPass r = Some true).
Proof. intros H [Hpass Hvalid]. inversion H; subst; simpl in *; discriminate. Qed.

Lemma from_runTest_exclusive (content : string) (r : test_result) :
  from_runTest content r -> ~ (pass r = true /\ validityPass r = Some true).
Proof.
  intros (fnName & test & s & s' & Hrun).
  destruct (runTest_inv _ _ _ _ _ _ Hrun) as (w & evs & _ & Hspec).
  exact (runTest_spec_exclusive _ _ _ _ _ _ _ Hspec).
Qed.

Lemma Forall2_In_left {A B : Type} (R : A -> B -> Prop) (l : list A) (l' : list B) :
  Forall2 R l l' -> forall x, In x l -> exists y, In y l' /\ R x y.
Proof.
  induction 1 as [|a b l l' Hab _ IH]; intros x Hin; [contradiction|].
  destruct Hin as [<- | Hin].
  - exists b. split; [now left | assumption].
  - destruct (IH x Hin) as (y & Hy & Hxy). exists y. split; [now right | assumption].
Qed.

(** C4: the benchmark runs only after the evaluation returned and the
    comparator passed, as the second and last call into the sandbox; a
    result carries a [time] only then; and a test whose evaluation threw
    or whose comparison failed has no [time] and ran no benchmark. *)
Theorem benchmark_only_after_correctness (fnName test content : value) (s : state) :
  exists r w evs,
    runTest fnName test content s = (inl r, after s w evs)
    /\ (forall code,
           In (VmBench code) evs ->
           exists v w1,
             vm_runInNewContext
               (test_runner_code content fnName (field test "args")) (st_world s)
             = (inl v, w1)
             /\ comparator v (field test "res") (field test "delta") = true
             /\ evs = [VmRun (test_runner_code content fnName (field test "args"));
                       VmBench code])
    /\ (forall mean,
           time r = Some mean ->
           exists v w1,
             vm_runInNewContext
               (test_runner_code content fnName (field test "args")) (st_world s)
             = (inl v, w1)
             /\ comparator v (field test "res") (field test "delta") = true
             /\ error r = None)
    /\ ((exists e w1,
            vm_runInNewContext
              (test_runner_code content fnName (field test "args")) (st_world s)
            = (inr e, w1))
        \/ (exists v w1,
               vm_runInNewContext
                 (test_runner_code content fnName (field test "args")) (st_world s)
               = (inl v, w1)
               /\ comparator v (field test "res") (field test "delta") = false) ->
        time r = None /\ forall code, ~ In (VmBench code) evs).
Proof.
  destruct (runTest_run fnName test content s) as (r & w & evs & Hrun & Hspec).
  exists r, w, evs. split; [assumption|].
  inversion Hspec as
      [ e Hget | e w1 Htest Heval | v w1 Htest Heval Hguard
      | v w1 e w2 Htest Heval Hcmp Hmax Hbench
      | v w1 mean w2 Htest Heval Hcmp Hmax Hbench Hgt
      | v w1 mean w2 Htest Heval Hcmp Hmax Hbench Hgt ]; subst; simpl.
  - repeat split; try discriminate; intros; intuition.
  - repeat split; try discriminate.
    + intros code [Hin | []]. discriminate.
    + intros code [Hin | []]. discriminate.
  - repeat split; try discriminate.
    + intros code [Hin | []]. discriminate.
    + intros code [Hin | []]. discriminate.
  - split; [|split].
    + intros code [Hin | [Hin | []]]; [discriminate|]. inversion Hin; subst.
      exists v, w1. repeat split; assumption.
    + discriminate.
    + intros [(e' & w' & Hthrows) | (v' & w' & Hret & Hfalse)].
      * rewrite Heval in Hthrows. discriminate.
      * rewrite Heval in Hret. inversion Hret; subst. congruence.
  - split; [|split].
    + intros code [Hin | [Hin | []]]; [discriminate|]. inversion Hin; subst.
      exists v, w1. repeat split; assumption.
    + intros mean' _. exists v, w1. repeat split; assumption.
    + intros [(e' & w' & Hthrows) | (v' & w' & Hret & Hfalse)].
      * rewrite Heval in Hthrows. discriminate.
      * rewrite Heval in Hret. inversion Hret; subst. congruence.
  - split; [|split].
    + intros code [Hin | [Hin | []]]; [discriminate|]. inversion Hin; subst.
      exists v, w1. repeat split; assumption.
    + intros mean' _. exists v, w1. repeat split; assumption.
    + intros [(e' & w' & Hthrows) | (v' & w' & Hret & Hfalse)].
      * rewrite Heval in Hthrows. discriminate.
      * rewrite Heval in Hret. inversion Hret; subst. congruence.
Qed.

(** Errors of the execution.  When the evaluation throws (the code threw,
    did not parse, or [fn_name] is not defined), [runTest] returns
    [{pass: false, error}] after that one call into the sandbox, so
    without a benchmark; [runTest] never throws; and when the values
    thrown convert to strings, [Challenge.test] goes on: it returns a
    report, every selected test was executed and has its entry. *)
Theorem execution_errors_are_captured :
  (forall (fnName test content : value) (s : state) e w1,
      not_nullish test = true ->
      vm_runInNewContext
        (test_runner_code content fnName (field test "args")) (st_world s)
      = (inr e, w1) ->
      runTest fnName test content s
      = (inl {| pass := false; res := None; error := Some e;
                time := None; validityPass := None |},
         after s w1
           [VmRun (test_runner_code content fnName (field test "args"))]))
  /\ (forall (fnName test content : value) (s : state),
         exists r s', runTest fnName test content s = (inl r, s'))
  /\ (forall (data : value) (all : bool) (content : string) (s : state),
         throws_printable sandbox ->
         not_nullish data = true ->
         tests_ok (field data "tests") = true ->
         exists r s',
           Challenge.test data all content s = (inl r, s')
           /\ executed_tests (st_trace s')
              = (executed_tests (st_trace s)
                 ++ selected_tests all (field data "tests"))%list
           /\ flat_map (fun entry => map fst (suite_tests (snd entry)))
                (report_suites r)
              = selected_tests all (field data "tests")).
Proof.
  split; [|split].
  - intros fnName test content s e w1 Htest Heval.
    destruct (runTest_run fnName test content s) as (r & w & evs & Hrun & Hspec).
    rewrite Hrun.
    inversion Hspec; subst;
      try (rewrite (Get_not_nullish test "args" Htest) in *; discriminate);
      try (rewrite Heval in *; discriminate).
    match goal with
    | H : vm_runInNewContext _ _ = (inr _, _) |- _ =>
        rewrite Heval in H; inversion H; subst
    end.
    reflexivity.
  - intros fnName test content s.
    destruct (runTest_run fnName test content s) as (r & w & evs & Hrun & _).
    eauto.
  - intros data all content s Hsandbox Hdata Hok.
    destruct (test_report data all content s Hsandbox Hdata Hok)
      as (r & s' & Hrun & _ & _ & Hentries & Htrace & _).
    exists r, s'. split; [assumption|]. split; [assumption|].
    unfold selected_tests.
    assert (Hdrop : forall suites,
      flat_map (fun suite : string * value => map fst (selected_cases all (snd suite)))
        (filter (fun suite => has_cases (snd suite)) suites)
      = flat_map (fun suite => map fst (selected_cases all (snd suite))) suites).
    { induction suites as [|[suiteName suite] suites IH]; [reflexivity|].
      simpl. destruct (has_cases suite) eqn:Hcases; simpl.
      - now rewrite IH.
      - rewrite IH. unfold has_cases in Hcases. unfold selected_cases.
        now destruct (props_of suite). }
    rewrite <- Hdrop.
    induction Hentries as [|entry suite entries suites Hentry _ IH];
      [reflexivity|].
    simpl. rewrite IH. destruct Hentry as (_ & Hnames & _). now rewrite Hnames.
Qed.
End EngineClaims.

(** ** Runs on a sandbox that plays a script *)

(** The outcomes of the evaluations and of the benchmarks are given in
    advance, each list in the order of the calls: a value returned, or the
    name and the message of an error object thrown.  A call beyond the
    script throws. *)
Definition outcome_of {A : Type} (r : A + string * string) : A + thrown :=
  match r with
  | inl a => inl a
  | inr (name, message) => inr (Exception name message)
  end.

Definition scripted : Sandbox :=
  {| world := (list (value + string * string)
               * list (number + string * string))%type;
     vm_runInNewContext := fun _ w =>
       match fst w with
       | r :: rest => (outcome_of r, (rest, snd w))
       | [] => (inr (Exception "ReferenceError" "add is not defined"), w)
       end;
     vm_benchmark := fun _ w =>
       match snd w with
       | r :: rest => (outcome_of r, (fst w, rest))
       | [] => (inr (Exception "TypeError" "Benchmark is not a constructor"), w)
       end |}.

Definition script (evals : list (value + string * string))
  (means : list (number + string * string)) : @world scripted :=
  (evals, means).

Definition start (evals : list (value + string * string))
  (means : list (number + string * string)) : @state scripted :=
  {| st_world := script evals means; st_trace := [] |}.

Lemma scripted_throws_printable : throws_printable scripted.
Proof.
  intros code [evals means] e w'. simpl. split.
  - destruct evals as [|[v | [name message]] rest]; simpl; intros H;
      inversion H; reflexivity.
  - destruct means as [|[v | [name message]] rest]; simpl; intros H;
      inversion H; reflexivity.
Qed.

(** A solution that throws a symbol whenever it is called. *)
Definition throwing_symbol : Sandbox :=
  {| world := unit;
     vm_runInNewContext := fun _ w => (inr (ThrownSymbol "boom"), w);
     vm_benchmark := fun _ w => (inr (ThrownSymbol "boom"), w) |}.

Definition symbol_start : @state throwing_symbol :=
  @Build_state throwing_symbol tt [].

Definition solution : string := "function add(a, b) { return a + b }".

(** A challenge after the examples of the specification: [add], with a
    visible and a hidden test of correctness, a suite whose only test is
    hidden, and a timed test. *)
Definition sum_case : value :=
  VObj [("args", VStr "2,3"); ("res", VStr "5"); ("visible", VBool true)].
Definition negative_case : value :=
  VObj [("args", VStr "-2,1"); ("res", VStr "-1"); ("visible", VBool false)].
Definition zero_case : value :=
  VObj [("args", VStr "0,0"); ("res", VStr "0"); ("visible", VBool false)].
Definition large_case : value :=
  VObj [("args", VStr "1000000,1"); ("res", VStr "1000001");
        ("visible", VBool true); ("max_time_s", VStr "0.001")].

Definition add_tests : value :=
  VObj [("correctness", VObj [("sum", sum_case); ("negative", negative_case)]);
        ("edges", VObj [("zero", zero_case)]);
        ("performance", VObj [("large", large_case)])].

Definition add_challenge : value :=
  VObj [("fn_name", VStr "add");
        ("template", VStr "function add(a, b) { }");
        ("sample_solution", VStr solution);
        ("recommended_time_ms", VNum 60000%float);
        ("tests", add_tests)].

(** A right solution passes [{args: "2,3", res: "5"}] with [res: 5]; one
    that subtracts fails it with [res: -1]. *)
Example runTest_add :
  fst (@runTest scripted (VStr "add") sum_case (VStr solution)
         (start [inl (VNum 5%float)] []))
  = inl {| pass := true; res := Some (VNum 5%float); error := None;
           time := None; validityPass := None |}
  /\ fst (@runTest scripted (VStr "add") sum_case (VStr solution)
            (start [inl (VNum (-1)%float)] []))
     = inl {| pass := false; res := Some (VNum (-1)%float); error := None;
              time := None; validityPass := None |}.
Proof. vm_compute. split; reflexivity. Qed.

(** A right solution that takes 0.5 s on average against
    [max_time_s: "0.001"]: [{pass: false, validityPass: true, time}], after
    the two calls into the sandbox. *)
Example runTest_too_slow :
  @runTest scripted (VStr "add") large_case (VStr solution)
    (start [inl (VNum 1000001%float)] [inl 0.5%float])
  = (inl {| pass := false; res := Some (VNum 1000001%float); error := None;
            time := Some 0.5%float; validityPass := Some true |},
     {| st_world := script [] [];
        st_trace :=
          [VmRun (test_runner_code (VStr solution) (VStr "add") (VStr "1000000,1"));
           VmBench (benchmark_runner_code (VStr solution) (VStr "add")
                      (VStr "1000000,1"))] |}).
Proof. vm_compute. reflexivity. Qed.

(** The report of a run of the four tests in which the timed one is that
    slow: it is correct and too slow, and its suite and the report fail. *)
Example test_too_slow_report :
  fst (@Challenge.test scripted add_challenge true solution
         (start [inl (VNum 5%float); inl (VNum (-1)%float); inl (VNum 0%float);
                 inl (VNum 1000001%float)] [inl 0.5%float]))
  = inl {| report_all := true;
           report_pass := false;
           report_suites :=
             [("correctness",
               {| suite_pass := true;
                  suite_tests :=
                    [("sum", {| pass := true; res := Some (VNum 5%float);
                                error := None; time := None;
                                validityPass := None |});
                     ("negative", {| pass := true; res := Some (VNum (-1)%float);
                                     error := None; time := None;
                                     validityPass := None |})] |});
              ("edges",
               {| suite_pass := true;
                  suite_tests :=
                    [("zero", {| pass := true; res := Some (VNum 0%float);
                                 error := None; time := None;
                                 validityPass := None |})] |});
              ("performance",
               {| suite_pass := false;
                  suite_tests :=
                    [("large", {| pass := false; res := Some (VNum 1000001%float);
                                  error := None; time := Some 0.5%float;
                                  validityPass := Some true |})] |})] |}.
Proof. vm_compute. reflexivity. Qed.

(** A solution that does not parse on the first test and answers the
    others, with a benchmark that throws. *)
Example execution_errors_on_a_script :
  (@runTest scripted (VStr "add") sum_case (VStr solution)
     (start [inr ("SyntaxError", "Unexpected token")] [])
   = (inl {| pass := false; res := None;
             error := Some (Exception "SyntaxError" "Unexpected token");
             time := None; validityPass := None |},
      after (start [inr ("SyntaxError", "Unexpected token")] [])
        (script [] [])
        [VmRun (test_runner_code (VStr solution) (VStr "add")
                  (field sum_case "args"))]))
  /\ exists r s',
      @Challenge.test scripted add_challenge true solution
        (start [inr ("SyntaxError", "Unexpected token"); inl (VNum (-1)%float);
                inl (VNum 0%float); inl (VNum 1000001%float)]
           [inr ("Error", "timer")])
      = (inl r, s')
      /\ executed_tests (st_trace s')
         = (executed_tests [] ++ selected_tests true (field add_challenge "tests"))%list
      /\ flat_map (fun entry => map fst (suite_tests (snd entry))) (report_suites r)
         = selected_tests true (field add_challenge "tests").
Proof.
  split.
  - apply (proj1 (@execution_errors_are_captured scripted)
             (VStr "add") sum_case (VStr solution)
             (start [inr ("SyntaxError", "Unexpected token")] [])
             (Exception "SyntaxError" "Unexpected token") (script [] []));
      reflexivity.
  - apply (proj2 (proj2 (@execution_errors_are_captured scripted))
             add_challenge true solution
             (start [inr ("SyntaxError", "Unexpected token"); inl (VNum (-1)%float);
                     inl (VNum 0%float); inl (VNum 1000001%float)]
                [inr ("Error", "timer")]));
      [exact scripted_throws_printable | reflexivity | reflexivity].
Qed.

(** C6: [runTest] captures what the evaluation throws as
    [{pass: false, error}], also a symbol; but [Challenge.test] then
    explains the failure with [`${testResult.error}`], which throws a
    [TypeError] for a symbol: the run ends there, after the first of the
    four selected tests, with no report, and the [TypeError] reaches the
    caller. *)
Theorem thrown_symbol_aborts_the_run :
  @runTest throwing_symbol (VStr "add") sum_case (VStr solution) symbol_start
  = (inl {| pass := false; res := None; error := Some (ThrownSymbol "boom");
            time := None; validityPass := None |},
     after symbol_start (st_world symbol_start)
       [VmRun (test_runner_code (VStr solution) (VStr "add") (VStr "2,3"))])
  /\ selected_tests true (field add_challenge "tests")
     = ["sum"; "negative"; "zero"; "large"]
  /\ exists s',
      @Challenge.test throwing_symbol add_challenge true solution symbol_start
      = (inr (Exception "TypeError" "Cannot convert a Symbol value to a string"),
         s')
      /\ executed_tests (st_trace s') = ["sum"].
Proof.
  split; [vm_compute; reflexivity|]. split; [reflexivity|].
  eexists. split; vm_compute; reflexivity.
Qed.

(** ** The validator *)

(** Computations that throw only values that convert to a string. *)
Definition raises_printable {S A : Type} (m : M S A) : Prop :=
  forall s e s', m s = (inr e, s') -> printable e = true.

Section RaisesFacts.
Context {S : Type}.

Lemma raises_ret {A : Type} (a : A) : raises_printable (@ret S A a).
Proof. intros s e s' H. discriminate. Qed.

Lemma raises_Get (v : value) (key : string) :
  raises_printable (@lift S value (Get v key)).
Proof.
  intros s e s' H. unfold lift in H. inversion H as [[Hget Hs]].
  destruct (Get_throws_exception _ _ _ Hget) as (name & message & ->).
  reflexivity.
Qed.

Lemma raises_bind {A B : Type} (m : M S A) (k : A -> M S B) :
  raises_printable m -> (forall a, raises_printable (k a)) ->
  raises_printable (bind m k).
Proof.
  intros Hm Hk s e s' H. unfold bind in H.
  destruct (m s) as [[a | e0] s0] eqn:Hms.
  - exact (Hk a _ _ _ H).
  - inversion H; subst. exact (Hm _ _ _ Hms).
Qed.

Lemma raises_for_in {Acc : Type} (keys : list string)
  (body : string -> Acc -> M S Acc) :
  (forall key acc, raises_printable (body key acc)) ->
  forall acc, raises_printable (for_in keys body acc).
Proof.
  intros Hbody. induction keys as [|key keys IH]; intros acc.
  - apply raises_ret.
  - simpl. apply raises_bind; [apply Hbody | exact IH].
Qed.
End RaisesFacts.

Section ValidatorFacts.
Context {sandbox : Sandbox}.

Import Validator.

(** The state of the closure after some more lines on the console. *)
Definition printed (vs : vstate) (errors' warnings' : nat) (lines : list line)
  : vstate :=
  {| errors := errors';
     warnings := warnings';
     base := after (base vs) (st_world (base vs)) (map Out lines) |}.

Lemma error_run (str : message) (vs : vstate) :
  Validator.error str vs
  = (inl tt,
     printed vs (S (errors vs)) (warnings vs)
       (if Nat.eqb (errors vs) 0 && Nat.eqb (warnings vs) 0
        then [Blank; Red str] else [Red str])).
Proof.
  unfold Validator.error, bind, gets, when, console_log, ret, printed, after.
  destruct (Nat.eqb (errors vs) 0 && Nat.eqb (warnings vs) 0); simpl;
    [rewrite <- app_assoc|]; reflexivity.
Qed.

Lemma warn_run (str : message) (vs : vstate) :
  warn str vs
  = (inl tt,
     printed vs (errors vs) (S (warnings vs))
       (if Nat.eqb (errors vs) 0 && Nat.eqb (warnings vs) 0
        then [Blank; Yellow str] else [Yellow str])).
Proof.
  unfold warn, bind, gets, when, console_log, ret, printed, after.
  destruct (Nat.eqb (errors vs) 0 && Nat.eqb (warnings vs) 0); simpl;
    [rewrite <- app_assoc|]; reflexivity.
Qed.

Lemma raises_error (str : message) : raises_printable (Validator.error str).
Proof. intros s e s' H. rewrite error_run in H. discriminate. Qed.

Lemma raises_warn (str : message) : raises_printable (warn str).
Proof. intros s e s' H. rewrite warn_run in H. discriminate. Qed.

Lemma raises_console_log (l : line) : raises_printable (console_log l).
Proof. intros s e s' H. discriminate. Qed.

Lemma raises_gets {A : Type} (f : vstate -> A) : raises_printable (gets f).
Proof. intros s e s' H. discriminate. Qed.

Lemma raises_when (c : bool) (m : M vstate unit) :
  raises_printable m -> raises_printable (when c m).
Proof. intros Hm. destruct c; [exact Hm | apply raises_ret]. Qed.

Lemma raises_runTest (fnName test content : value) :
  raises_printable (in_base (runTest fnName test content)).
Proof.
  intros s e s' H. unfold in_base in H.
  destruct (runTest_run fnName test content (base s)) as (r & w & evs & Hrun & _).
  rewrite Hrun in H. discriminate.
Qed.

Ltac raises :=
  repeat first
    [ apply raises_error
    | apply raises_warn
    | apply raises_console_log
    | apply raises_gets
    | apply raises_runTest
    | apply raises_Get
    | apply raises_when
    | apply raises_ret
    | apply raises_bind; [|intros] ].

(** The [try] block throws only the [TypeError]s of its property reads. *)
Lemma raises_validate_body (challenges : value) (cid : string) :
  raises_printable (validate_body challenges cid).
Proof.
  unfold validate_body. raises.
  apply raises_for_in. intros suiteName []. unfold validate_suite. raises.
  apply raises_for_in. intros testName []. unfold validate_test. raises.
Qed.

(** The lines after the [try] block: the summary. *)
Definition summary (vs : vstate) : vstate :=
  if Nat.ltb 0 (errors vs) then
    printed vs (S (errors vs)) (warnings vs)
      [Blank; Red (Text ("failed with " ++ count_string (errors vs) ++ " errors"))]
  else if Nat.ltb 0 (warnings vs) then
    printed vs (errors vs) (S (warnings vs))
      [Blank; Yellow (Text ("found " ++ count_string (warnings vs) ++ " warnings"))]
  else printed vs (errors vs) (warnings vs) [Green "ok"].

(** What the [catch] block reports for the value caught. *)
Definition problem (cid : string) (e : thrown) : message :=
  Text ("problem occured while trying to verify " ++ cid ++ ": "
        ++ match thrown_to_string e with
           | inl text => text
           | inr _ => ""
           end).

Lemma summarize_run (vs : vstate) : summarize vs = (inl tt, summary vs).
Proof.
  unfold summarize, bind, gets, summary.
  destruct (errors vs) as [|n] eqn:He;
    [destruct (warnings vs) as [|m] eqn:Hw|].
  - change (Nat.ltb 0 0) with false. cbv iota.
    unfold console_log, printed, after. simpl. rewrite He, Hw. reflexivity.
  - change (Nat.ltb 0 0) with false. change (Nat.ltb 0 (S m)) with true.
    cbv iota. unfold console_log at 1. cbv beta iota. rewrite warn_run.
    unfold printed, after. simpl. rewrite He, Hw, <- app_assoc. reflexivity.
  - change (Nat.ltb 0 (S n)) with true.
    cbv iota. unfold console_log at 1. cbv beta iota. rewrite error_run.
    unfold printed, after. simpl. rewrite He, <- app_assoc. reflexivity.
Qed.

(** [validate] is the [try] block, the report of what it threw if it
    threw, and the summary. *)
Lemma validate_run (challenges : value) (cid : string) (vs : vstate) :
  validate challenges cid vs
  = (inl tt,
     summary
       match validate_body challenges cid (printed vs (errors vs) (warnings vs)
                                             [Validating cid]) with
       | (inl _, vs') => vs'
       | (inr e, vs') =>
           printed vs' (S (errors vs')) (warnings vs')
             (if Nat.eqb (errors vs') 0 && Nat.eqb (warnings vs') 0
              then [Blank; Red (problem cid e)] else [Red (problem cid e)])
       end).
Proof.
  unfold validate, bind at 1. unfold console_log at 1.
  unfold bind at 1, try_catch.
  change {| errors := errors vs; warnings := warnings vs;
            base := {| st_world := st_world (base vs);
                       st_trace := st_trace (base vs) ++ [Out (Validating cid)] |} |}
    with (printed vs (errors vs) (warnings vs) [Validating cid]).
  destruct (validate_body challenges cid
              (printed vs (errors vs) (warnings vs) [Validating cid]))
    as [[[] | e] vs'] eqn:Hbody.
  - apply summarize_run.
  - destruct (printable_to_string e (raises_validate_body _ _ _ _ _ Hbody))
      as (text & Htext).
    unfold bind at 1, lift, problem. rewrite Htext, error_run.
    apply summarize_run.
Qed.

(** C7: the validator never throws, and a throw inside the [try] block
    becomes one reported error that names the challenge; but a challenge
    that has every field except [tests] gets two errors reported before
    the summary, not one: [no `tests`], and then the [TypeError] of
    reading [challenge.tests.correctness], caught and reported.  The
    counters returned include the summary line, which [error] counts
    too. *)
Theorem validator_on_missing_tests :
  (forall (challenges : value) (cid : string) (s : state),
      exists counts s',
        validateChallengeById challenges cid s = (inl counts, s'))
  /\ (forall (challenges : value) (cid : string) (vs vs' : vstate) e,
         validate_body challenges cid
           (printed vs (errors vs) (warnings vs) [Validating cid]) = (inr e, vs') ->
         validate challenges cid vs
         = (inl tt,
            summary
              (printed vs' (S (errors vs')) (warnings vs')
                 (if Nat.eqb (errors vs') 0 && Nat.eqb (warnings vs') 0
                  then [Blank; Red (problem cid e)] else [Red (problem cid e)]))))
  /\ (forall (challenges challenge : value) (cid : string) (s : state),
         Get challenges cid = inl challenge ->
         ToBoolean (field challenge "fn_name") = true ->
         ToBoolean (field challenge "template") = true ->
         ToBoolean (field challenge "sample_solution") = true ->
         ToBoolean (field challenge "recommended_time_ms") = true ->
         field challenge "tests" = VUndefined ->
         validateChallengeById challenges cid s
         = (inl (3%nat, 0%nat),
            after s (st_world s)
              [Out (Validating cid);
               Out Blank;
               Out (Red (Text "no `tests`"));
               Out Blank;
               Out (Red (Text ("problem occured while trying to verify " ++ cid
                               ++ ": TypeError: Cannot read properties of undefined (reading 'correctness')")));
               Out Blank;
               Out (Red (Text "failed with 2 errors"))])).
Proof.
  split; [|split].
  - intros challenges cid s. unfold validateChallengeById.
    rewrite validate_run. eauto.
  - intros challenges cid vs vs' e Hbody. rewrite validate_run, Hbody.
    reflexivity.
  - intros challenges challenge cid s Hget Hfn Htemplate Hsample Htime Htests.
    assert (Hdef : not_nullish challenge = true).
    { destruct challenge; try reflexivity; simpl in Hfn; discriminate. }
    unfold validateChallengeById. rewrite validate_run.
    unfold validate_body, bind, lift, gets, when, ret.
    rewrite Hget. rewrite !(Get_not_nullish challenge _ Hdef).
    rewrite Hfn, Htemplate, Hsample, Htime, Htests. simpl.
    unfold after, problem. simpl.
    rewrite <- !app_assoc. reflexivity.
Qed.

End ValidatorFacts.

Definition challenge_without_tests : value :=
  VObj [("fn_name", VStr "add");
        ("template", VStr "function add(a, b) { }");
        ("sample_solution", VStr solution);
        ("recommended_time_ms", VNum 60000%float)].

Lemma validator_on_missing_tests_witness :
  @Validator.validateChallengeById scripted
    (VObj [("add", challenge_without_tests)]) "add" (start [] [])
  = (inl (3%nat, 0%nat),
     after (start [] []) (script [] [])
       [Out (Validating "add");
        Out Blank;
        Out (Red (Text "no `tests`"));
        Out Blank;
        Out (Red (Text ("problem occured while trying to verify " ++ "add"
                        ++ ": TypeError: Cannot read properties of undefined (reading 'correctness')")));
        Out Blank;
        Out (Red (Text "failed with 2 errors"))]).
Proof.
  apply (proj2 (proj2 (@validator_on_missing_tests scripted))
           (VObj [("add", challenge_without_tests)]) challenge_without_tests
           "add" (start [] []));
    reflexivity.
Defined.

(** The sample solution validated against the challenge [add]: no error,
    no warning, and three calls into the sandbox besides the benchmark. *)
Example validator_on_add :
  fst (@Validator.validateChallengeById scripted
         (VObj [("add", add_challenge)]) "add"
         (start [inl (VNum 5%float); inl (VNum (-1)%float); inl (VNum 0%float);
                 inl (VNum 1000001%float)] [inl 0.0001%float]))
  = inl (0%nat, 0%nat).
Proof. vm_compute. reflexivity. Qed.

(** ** The duration formatter *)

(** The whole numbers from [Number.MIN_SAFE_INTEGER] to
    [Number.MAX_SAFE_INTEGER], which binary64 holds exactly.  For such an
    [ms] the quotient by [HOUR], [MINUTE] or [SECOND] is below [2^32],
    where the doubles are [2^-21] apart, and when it is not whole it is at
    least [1/3600000], more than [2^-22], away from the next whole number:
    rounding the quotient to a double does not reach that number, so
    [Math.floor] of the quotient of the source is the integer quotient.
    Beyond the safe integers it is not: see [quotients_in_doubles]. *)
Definition MAX_SAFE_INTEGER : Z := 2 ^ 53 - 1.

Definition safe_integer (ms : Z) : Prop :=
  - MAX_SAFE_INTEGER <= ms <= MAX_SAFE_INTEGER.

(** The quotients of the source, in doubles: just below a whole number of
    hours and at the largest safe integer the quotient stays below the
    next whole number; at [1e22] it is rounded up to [2777777777777778],
    one more than the integer quotient. *)
Example quotients_in_doubles :
  (PrimFloat.leb 2501999791 (9007199251199999 / 3600000)
   && PrimFloat.ltb (9007199251199999 / 3600000) 2501999792)%float = true
  /\ 9007199251199999 / HOUR = 2501999791
  /\ (PrimFloat.leb 2501999792 (9007199254740991 / 3600000)
      && PrimFloat.ltb (9007199254740991 / 3600000) 2501999793)%float = true
  /\ MAX_SAFE_INTEGER / HOUR = 2501999792
  /\ PrimFloat.eqb (1e22 / 3600000) 2777777777777778%float = true
  /\ 10 ^ 22 / HOUR = 2777777777777777.
Proof. vm_compute. repeat split. Qed.

(** The (count, unit) fragments of a duration, as the specification words
    them: hours, minutes and seconds, those that are not zero; below one
    second the milliseconds alone. *)
Definition fragments (ms : Z) : list (Z * string) :=
  if ms <? SECOND then [(ms, "ms")]
  else
    filter (fun f => 0 <? fst f)
      [(ms / HOUR, "h");
       ((ms mod HOUR) / MINUTE, "min");
       (((ms mod HOUR) mod MINUTE) / SECOND, "s")].

Definition render (f : Z * string) : string := Z_to_string (fst f) ++ snd f.

(** Adjacent fragments are separated by one space. *)
Fixpoint join_space (l : list string) : string :=
  match l with
  | [] => ""
  | [x] => x
  | x :: l' => x ++ " " ++ join_space l'
  end.

(** The string ends in "ms". *)
Fixpoint ends_with_ms (s : string) : bool :=
  match s with
  | EmptyString => false
  | String c s' => (Ascii.eqb c "m" && String.eqb s' "s") || ends_with_ms s'
  end.

Lemma string_app_assoc (a b c : string) : (a ++ b) ++ c = a ++ b ++ c.
Proof. induction a as [|x a IH]; simpl; [reflexivity | now rewrite IH]. Qed.

Lemma string_app_length (a b : string) :
  String.length (a ++ b) = (String.length a + String.length b)%nat.
Proof. induction a as [|x a IH]; simpl; [reflexivity | now rewrite IH]. Qed.

Lemma ends_with_ms_app (a b : string) :
  (2 <= String.length b)%nat -> ends_with_ms (a ++ b) = ends_with_ms b.
Proof.
  intros Hb. induction a as [|x a IH]; simpl; [reflexivity|].
  rewrite IH.
  destruct (String.eqb_spec (a ++ b) "s") as [Heq | _].
  - apply (f_equal String.length) in Heq.
    rewrite string_app_length in Heq. simpl in Heq. lia.
  - now rewrite andb_false_r.
Qed.

Lemma string_of_uint_last (u : Decimal.uint) :
  u = Decimal.Nil
  \/ exists d c, NilEmpty.string_of_uint u = d ++ String c ""
                 /\ Ascii.eqb c "m" = false.
Proof.
  induction u as [|u IH|u IH|u IH|u IH|u IH|u IH|u IH|u IH|u IH|u IH];
    [now left | right ..];
    (destruct IH as [-> | (d & c & Hd & Hc)];
     [ eexists "", _; split; reflexivity
     | simpl; rewrite Hd; eexists (String _ d), c; split;
       [reflexivity | exact Hc] ]).
Qed.

Lemma Z_to_string_last (n : Z) :
  0 < n ->
  exists d c, Z_to_string n = d ++ String c "" /\ Ascii.eqb c "m" = false.
Proof.
  intros Hn. destruct n as [|p|p]; try lia.
  unfold Z_to_string. simpl.
  destruct (string_of_uint_last (Pos.to_uint p)) as [Hnil | H]; [|exact H].
  now apply Unsigned.to_uint_nonnil in Hnil.
Qed.

(** A count and a unit of hours, minutes or seconds do not end in "ms". *)
Lemma render_not_ms (a : string) (n : Z) (unit : string) :
  0 < n -> unit = "h" \/ unit = "min" \/ unit = "s" ->
  ends_with_ms (a ++ Z_to_string n ++ unit) = false.
Proof.
  intros Hn Hunit.
  destruct (Z_to_string_last n Hn) as (d & c & -> & Hc).
  rewrite (string_app_assoc d), <- string_app_assoc.
  rewrite ends_with_ms_app.
  - simpl. rewrite Hc. destruct Hunit as [-> | [-> | ->]]; reflexivity.
  - destruct Hunit as [-> | [-> | ->]]; simpl; lia.
Qed.

Ltac unfold_units :=
  change HOUR with 3600000 in *; change MINUTE with 60000 in *;
  change SECOND with 1000 in *.

Lemma duration_hours (ms : Z) (c : bool) :
  HOUR <= ms ->
  msToReadableDuration ms c
  = spacing c ++ Z_to_string (ms / HOUR) ++ "h"
    ++ msToReadableDuration (ms mod HOUR) true.
Proof.
  intros H. etransitivity; [apply msToReadableDuration_equation_1|].
  destruct (Z_le_gt_dec HOUR ms) as [Hle | Hgt]; [|lia]. simpl.
  rewrite Z.rem_mod_nonneg by (unfold_units; lia). reflexivity.
Qed.

Lemma duration_minutes (ms : Z) (c : bool) :
  MINUTE <= ms < HOUR ->
  msToReadableDuration ms c
  = spacing c ++ Z_to_string (ms / MINUTE) ++ "min"
    ++ msToReadableDuration (ms mod MINUTE) true.
Proof.
  intros H. etransitivity; [apply msToReadableDuration_equation_1|].
  destruct (Z_le_gt_dec HOUR ms) as [Hle | Hgt]; [lia|]. simpl.
  destruct (Z_le_gt_dec MINUTE ms) as [Hle | Hgt']; [|lia]. simpl.
  rewrite Z.rem_mod_nonneg by (unfold_units; lia). reflexivity.
Qed.

Lemma duration_seconds (ms : Z) (c : bool) :
  ms < MINUTE ->
  msToReadableDuration ms c
  = if SECOND <=? ms then spacing c ++ Z_to_string (ms / SECOND) ++ "s"
    else if negb c then Z_to_string ms ++ "ms" else "".
Proof.
  intros H. etransitivity; [apply msToReadableDuration_equation_1|].
  destruct (Z_le_gt_dec HOUR ms) as [Hle | Hgt]; [unfold_units; lia|]. simpl.
  destruct (Z_le_gt_dec MINUTE ms) as [Hle | Hgt']; [lia|]. simpl.
  destruct (Z_le_gt_dec SECOND ms) as [Hle | Hgt'']; simpl.
  - destruct (Z.leb_spec SECOND ms); [reflexivity | lia].
  - destruct (Z.leb_spec SECOND ms); [lia | reflexivity].
Qed.

(** Below one hour: the minutes, if any, and then the seconds, if any. *)
Lemma duration_below_hour (ms : Z) (c : bool) :
  SECOND <= ms < HOUR ->
  msToReadableDuration ms c
  = spacing c
    ++ join_space
         (map render
            (filter (fun f => 0 <? fst f)
               [(ms / MINUTE, "min"); ((ms mod MINUTE) / SECOND, "s")])).
Proof.
  intros H.
  assert (Hr : 0 <= ms mod MINUTE < MINUTE)
    by (apply Z.mod_pos_bound; unfold_units; lia).
  destruct (Z_le_gt_dec MINUTE ms) as [Hle | Hgt].
  - rewrite duration_minutes by lia.
    rewrite duration_seconds by lia.
    assert (Hm : 0 < ms / MINUTE)
      by (apply Z.div_str_pos; unfold_units; lia).
    simpl filter. destruct (Z.ltb_spec 0 (ms / MINUTE)); [|lia].
    destruct (Z.leb_spec SECOND (ms mod MINUTE)) as [Hs | Hs].
    + assert (0 < (ms mod MINUTE) / SECOND)
        by (apply Z.div_str_pos; unfold_units; lia).
      destruct (Z.ltb_spec 0 ((ms mod MINUTE) / SECOND)); [|lia].
      unfold render. simpl. now rewrite !string_app_assoc.
    + assert ((ms mod MINUTE) / SECOND = 0)
        by (apply Z.div_small; unfold_units; lia).
      destruct (Z.ltb_spec 0 ((ms mod MINUTE) / SECOND)); [lia|].
      unfold render. simpl. now rewrite ?string_app_assoc.
  - rewrite duration_seconds by lia.
    assert (Hm : ms / MINUTE = 0) by (apply Z.div_small; unfold_units; lia).
    assert (Hmod : ms mod MINUTE = ms) by (apply Z.mod_small; unfold_units; lia).
    rewrite Hm, Hmod. simpl filter.
    destruct (Z.leb_spec SECOND ms); [|lia].
    assert (0 < ms / SECOND) by (apply Z.div_str_pos; unfold_units; lia).
    destruct (Z.ltb_spec 0 (ms / SECOND)); [|lia].
    unfold render. simpl. reflexivity.
Qed.

Lemma join_space_cons (x : string) (l : list string) :
  join_space (x :: l)
  = x ++ match l with [] => "" | _ :: _ => " " ++ join_space l end.
Proof.
  destruct l; simpl; [|reflexivity].
  induction x as [|c x IH]; simpl; [reflexivity | now rewrite <- IH].
Qed.

(** A child call below one hour: nothing, or a space and what is left. *)
Lemma duration_child (r : Z) :
  0 <= r < HOUR ->
  msToReadableDuration r true
  = match filter (fun f => 0 <? fst f)
            [(r / MINUTE, "min"); ((r mod MINUTE) / SECOND, "s")] with
    | [] => ""
    | fs => " " ++ join_space (map render fs)
    end.
Proof.
  intros Hr. destruct (Z_le_gt_dec SECOND r) as [Hle | Hgt].
  - rewrite duration_below_hour by lia. simpl spacing.
    destruct (filter _ _) eqn:Hfs; [|reflexivity].
    exfalso. simpl in Hfs.
    destruct (Z_le_gt_dec MINUTE r) as [Hm | Hm].
    + assert (0 < r / MINUTE) by (apply Z.div_str_pos; unfold_units; lia).
      destruct (Z.ltb_spec 0 (r / MINUTE)); [discriminate | lia].
    + assert (Hmod : r mod MINUTE = r) by (apply Z.mod_small; lia).
      rewrite Hmod in Hfs.
      assert (0 < r / SECOND) by (apply Z.div_str_pos; unfold_units; lia).
      destruct (0 <? r / MINUTE); [discriminate|].
      destruct (Z.ltb_spec 0 (r / SECOND)); [discriminate | lia].
  - rewrite duration_seconds by (unfold_units; lia).
    destruct (Z.leb_spec SECOND r); [lia|]. simpl negb. cbv iota.
    assert (Hm : r / MINUTE = 0) by (apply Z.div_small; unfold_units; lia).
    assert (Hmod : r mod MINUTE = r) by (apply Z.mod_small; unfold_units; lia).
    assert (Hs : r / SECOND = 0) by (apply Z.div_small; lia).
    rewrite Hm, Hmod, Hs. reflexivity.
Qed.

(** The formatter against the fragments. *)
Lemma duration_refines (ms : Z) :
  msToReadableDuration ms false = join_space (map render (fragments ms)).
Proof.
  unfold fragments. destruct (Z.ltb_spec ms SECOND) as [Hlt | Hge].
  - rewrite duration_seconds by (unfold_units; lia).
    destruct (Z.leb_spec SECOND ms); [lia | reflexivity].
  - destruct (Z_le_gt_dec HOUR ms) as [Hle | Hgt].
    + rewrite duration_hours by assumption.
      assert (Hr : 0 <= ms mod HOUR < HOUR)
        by (apply Z.mod_pos_bound; unfold_units; lia).
      rewrite (duration_child _ Hr).
      assert (0 < ms / HOUR) by (apply Z.div_str_pos; unfold_units; lia).
      change (filter (fun f : Z * string => 0 <? fst f)
                [(ms / HOUR, "h"); (ms mod HOUR / MINUTE, "min");
                 ((ms mod HOUR) mod MINUTE / SECOND, "s")])
        with (if 0 <? ms / HOUR
              then (ms / HOUR, "h")
                   :: filter (fun f : Z * string => 0 <? fst f)
                        [(ms mod HOUR / MINUTE, "min");
                         ((ms mod HOUR) mod MINUTE / SECOND, "s")]
              else filter (fun f : Z * string => 0 <? fst f)
                     [(ms mod HOUR / MINUTE, "min");
                      ((ms mod HOUR) mod MINUTE / SECOND, "s")]).
      destruct (Z.ltb_spec 0 (ms / HOUR)); [|lia].
      set (fs := filter (fun f : Z * string => 0 <? fst f)
                   [(ms mod HOUR / MINUTE, "min");
                    ((ms mod HOUR) mod MINUTE / SECOND, "s")]).
      change (map render ((ms / HOUR, "h") :: fs))
        with (render (ms / HOUR, "h") :: map render fs).
      rewrite join_space_cons. unfold render at 2. simpl spacing.
      simpl fst. simpl snd.
      destruct fs; simpl; now rewrite ?string_app_assoc.
    + rewrite duration_below_hour by lia. simpl spacing.
      assert (Hh : ms / HOUR = 0) by (apply Z.div_small; unfold_units; lia).
      assert (Hmod : ms mod HOUR = ms) by (apply Z.mod_small; unfold_units; lia).
      rewrite Hh, Hmod. reflexivity.
Qed.

Lemma fragments_units (ms : Z) (f : Z * string) :
  SECOND <= ms -> In f (fragments ms) ->
  0 < fst f /\ (snd f = "h" \/ snd f = "min" \/ snd f = "s").
Proof.
  intros Hge Hin. unfold fragments in Hin.
  destruct (Z.ltb_spec ms SECOND); [lia|].
  apply filter_In in Hin as [Hin Hpos]. apply Z.ltb_lt in Hpos.
  split; [assumption|].
  simpl in Hin. destruct Hin as [<- | [<- | [<- | []]]]; simpl; tauto.
Qed.

Lemma fragments_not_empty (ms : Z) : fragments ms <> [].
Proof.
  unfold fragments. destruct (Z.ltb_spec ms SECOND) as [Hlt | Hge];
    [discriminate|].
  intros Hnil.
  assert (Hnone : forall f,
             In f [(ms / HOUR, "h"); ((ms mod HOUR) / MINUTE, "min");
                   (((ms mod HOUR) mod MINUTE) / SECOND, "s")] ->
             (0 <? fst f) = false).
  { intros f Hin. destruct (0 <? fst f) eqn:Hf; [|reflexivity].
    assert (Hin' : In f []); [|contradiction].
    rewrite <- Hnil. apply filter_In. now split. }
  pose proof (Hnone _ (or_introl eq_refl)) as Hh.
  pose proof (Hnone _ (or_intror (or_introl eq_refl))) as Hm.
  pose proof (Hnone _ (or_intror (or_intror (or_introl eq_refl)))) as Hs.
  simpl in Hh, Hm, Hs. apply Z.ltb_ge in Hh, Hm, Hs.
  unfold_units.
  pose proof (Z.div_mod ms 3600000 ltac:(lia)).
  pose proof (Z.mod_pos_bound ms 3600000 ltac:(lia)).
  pose proof (Z.div_mod (ms mod 3600000) 60000 ltac:(lia)).
  pose proof (Z.mod_pos_bound (ms mod 3600000) 60000 ltac:(lia)).
  pose proof (Z.div_mod ((ms mod 3600000) mod 60000) 1000 ltac:(lia)).
  pose proof (Z.mod_pos_bound ((ms mod 3600000) mod 60000) 1000 ltac:(lia)).
  pose proof (Z.div_pos ms 3600000 ltac:(lia) ltac:(lia)).
  pose proof (Z.div_pos (ms mod 3600000) 60000 ltac:(lia) ltac:(lia)).
  pose proof (Z.div_pos ((ms mod 3600000) mod 60000) 1000 ltac:(lia) ltac:(lia)).
  lia.
Qed.

Lemma join_not_ms (fs : list (Z * string)) :
  fs <> [] ->
  (forall f, In f fs ->
     0 < fst f /\ (snd f = "h" \/ snd f = "min" \/ snd f = "s")) ->
  forall a, ends_with_ms (a ++ join_space (map render fs)) = false.
Proof.
  induction fs as [|f fs IH]; intros Hne Hall a; [contradiction|].
  simpl map. rewrite join_space_cons.
  destruct (Hall f (or_introl eq_refl)) as [Hpos Hunit].
  destruct fs as [|g fs].
  - simpl. unfold render. rewrite string_app_assoc.
    replace (snd f ++ "") with (snd f)
      by (destruct Hunit as [-> | [-> | ->]]; reflexivity).
    now apply render_not_ms.
  - change (map render (g :: fs)) with (render g :: map render fs).
    cbv iota. rewrite <- !string_app_assoc.
    change (render g :: map render fs) with (map render (g :: fs)).
    apply IH; [discriminate|].
    intros h Hin. apply Hall. now right.
Qed.

(** C8: on the safe integers the formatter is a function of the
    milliseconds alone, whose output is the fragments (count, unit) for the
    hours, minutes and seconds that are not zero, in this order and one
    space apart, or the milliseconds alone; the output ends in "ms", and
    the fragments include the milliseconds, exactly when the input is below
    one second. *)
Theorem duration_format (ms : Z) :
  safe_integer ms ->
  msToReadableDuration ms false = join_space (map render (fragments ms))
  /\ (SECOND <= ms ->
      fragments ms
      = filter (fun f => 0 <? fst f)
          [(ms / HOUR, "h"); ((ms mod HOUR) / MINUTE, "min");
           (((ms mod HOUR) mod MINUTE) / SECOND, "s")])
  /\ (ends_with_ms (msToReadableDuration ms false) = true <-> ms < SECOND)
  /\ (In "ms" (map snd (fragments ms)) <-> ms < SECOND).
Proof.
  intros _.
  split; [apply duration_refines|]. split; [|split].
  - intros Hge. unfold fragments. destruct (Z.ltb_spec ms SECOND); [lia|].
    reflexivity.
  - rewrite duration_refines. split.
    + intros Hends. destruct (Z_lt_ge_dec ms SECOND) as [Hlt | Hge];
        [assumption|].
      pose proof (join_not_ms (fragments ms) (fragments_not_empty ms)
                    (fun f => fragments_units ms f ltac:(lia)) "") as Hno.
      simpl in Hno. congruence.
    + intros Hlt. unfold fragments. destruct (Z.ltb_spec ms SECOND); [|lia].
      simpl. unfold render. simpl. now apply ends_with_ms_app.
  - split.
    + intros Hin. destruct (Z_lt_ge_dec ms SECOND) as [Hlt | Hge];
        [assumption|].
      apply in_map_iff in Hin as (f & Hunit & Hin).
      destruct (fragments_units ms f ltac:(lia) Hin) as [_ [H | [H | H]]];
        rewrite H in Hunit; discriminate.
    + intros Hlt. unfold fragments. destruct (Z.ltb_spec ms SECOND); [|lia].
      now left.
Qed.

Lemma duration_format_witness :
  safe_integer 3661500
  /\ msToReadableDuration 3661500 false
     = join_space (map render (fragments 3661500))
  /\ (SECOND <= 3661500 ->
      fragments 3661500
      = filter (fun f => 0 <? fst f)
          [(3661500 / HOUR, "h"); ((3661500 mod HOUR) / MINUTE, "min");
           (((3661500 mod HOUR) mod MINUTE) / SECOND, "s")])
  /\ (ends_with_ms (msToReadableDuration 3661500 false) = true
      <-> 3661500 < SECOND)
  /\ (In "ms" (map snd (fragments 3661500)) <-> 3661500 < SECOND).
Proof.
  split; [split; vm_compute; discriminate|].
  apply (duration_format 3661500). split; vm_compute; discriminate.
Defined.

Example duration_samples :
  map (fun ms => msToReadableDuration ms false)
    [3661000; 3600000; 3601000; 60500; 1500; 1000; 999; 0]
  = ["1h 1min 1s"; "1h"; "1h 1s"; "1min"; "1s"; "1s"; "999ms"; "0ms"].
Proof. vm_compute. reflexivity. Qed.

(** ** The keypress reader *)

Section CharReaderFacts.
Import CharReader.

Lemma outcome_none (promise : nat) (l : list (nat * string)) :
  (forall p name, In (p, name) l -> p <> promise) -> outcome promise l = None.
Proof.
  induction l as [|[p name] l IH]; intros Hl; [reflexivity|]. simpl.
  destruct (Nat.eqb_spec p promise) as [-> | _].
  - exfalso. now apply (Hl promise name (or_introl eq_refl)).
  - apply IH. intros q n Hin. apply (Hl q n). now right.
Qed.

Lemma outcome_last (promise : nat) (name : string) (l : list (nat * string)) :
  (forall p n, In (p, n) l -> p <> promise) ->
  outcome promise (l ++ [(promise, name)]) = Some name.
Proof.
  induction l as [|[p n] l IH]; intros Hl; simpl.
  - now rewrite Nat.eqb_refl.
  - destruct (Nat.eqb_spec p promise) as [-> | _].
    + exfalso. now apply (Hl promise n (or_introl eq_refl)).
    + apply IH. intros q m Hin. apply (Hl q m). now right.
Qed.

Lemma constructor_well_formed : well_formed constructor.
Proof. split; simpl; intros; contradiction. Qed.

Lemma keypress_well_formed (name : string) (r : t) :
  well_formed r -> well_formed (keypress name r).
Proof.
  intros [Hp Hr]. unfold keypress.
  destruct (promises r) as [|p rest] eqn:Hpromises.
  - split; [rewrite Hpromises|]; assumption.
  - split; simpl.
    + intros q Hin. apply Hp. now right.
    + intros q n Hin. apply in_app_or in Hin as [Hin | [Heq | []]].
      * now apply (Hr q n).
      * inversion Heq; subst. apply Hp. now left.
Qed.

Lemma read_well_formed (r : t) : well_formed r -> well_formed (snd (read r)).
Proof.
  intros [Hp Hr]. split; simpl.
  - intros q Hin. apply in_app_or in Hin as [Hin | [<- | []]].
    + specialize (Hp q Hin). lia.
    + lia.
  - intros q n Hin. specialize (Hr q n Hin). lia.
Qed.

(** The key names [names] arriving one after the other. *)
Definition keypresses (names : list string) (r : t) : t :=
  fold_left (fun r name => keypress name r) names r.

Lemma keypresses_fifo (names : list string) :
  forall r,
    (List.length names <= List.length (promises r))%nat ->
    promises (keypresses names r) = skipn (List.length names) (promises r)
    /\ resolved (keypresses names r)
       = (resolved r ++ combine (firstn (List.length names) (promises r)) names)%list
    /\ allocated (keypresses names r) = allocated r.
Proof.
  induction names as [|name names IH]; intros r Hlen.
  - simpl. now rewrite app_nil_r.
  - destruct (promises r) as [|p rest] eqn:Hpromises; simpl in Hlen; [lia|].
    assert (Hk : keypress name r
                 = {| promises := rest;
                      resolved := (resolved r ++ [(p, name)])%list;
                      allocated := allocated r |})
      by (unfold keypress; now rewrite Hpromises).
    change (keypresses (name :: names) r)
      with (keypresses names (keypress name r)).
    rewrite Hk.
    destruct (IH {| promises := rest;
                    resolved := (resolved r ++ [(p, name)])%list;
                    allocated := allocated r |}) as (H1 & H2 & H3);
      [simpl; lia|].
    simpl in *. rewrite H1, H2, H3, <- app_assoc. repeat split.
Qed.

(** C10: a keypress with no request pending leaves the reader as it was:
    the key is not kept, and a read issued afterwards is pending until the
    next keypress, which resolves it; with requests pending, a keypress
    resolves the oldest one and no other, and a run of keypresses resolves
    the pending requests in the order they were issued. *)
Theorem keypress_resolves_oldest_request :
  (forall (name : string) (r : t), promises r = [] -> keypress name r = r)
  /\ (forall (dropped next : string) (r : t),
         well_formed r -> promises r = [] ->
         read (keypress dropped r) = read r
         /\ promises (snd (read (keypress dropped r)))
            = [fst (read (keypress dropped r))]
         /\ outcome (fst (read (keypress dropped r)))
              (resolved (snd (read (keypress dropped r)))) = None
         /\ outcome (fst (read (keypress dropped r)))
              (resolved (keypress next (snd (read (keypress dropped r)))))
            = Some next)
  /\ (forall (name : string) (r : t) (oldest : nat) (rest : list nat),
         promises r = oldest :: rest ->
         promises (keypress name r) = rest
         /\ resolved (keypress name r) = (resolved r ++ [(oldest, name)])%list)
  /\ (forall (names : list string) (r : t),
         (List.length names <= List.length (promises r))%nat ->
         promises (keypresses names r) = skipn (List.length names) (promises r)
         /\ resolved (keypresses names r)
            = (resolved r
               ++ combine (firstn (List.length names) (promises r)) names)%list).
Proof.
  split; [|split; [|split]].
  - intros name r Hnone. unfold keypress. now rewrite Hnone.
  - intros dropped next r [Hp Hr] Hnone.
    assert (Hsame : keypress dropped r = r)
      by (unfold keypress; now rewrite Hnone).
    rewrite Hsame. split; [reflexivity|].
    assert (Hfresh : forall p n, In (p, n) (resolved r) -> p <> allocated r).
    { intros p n Hin. specialize (Hr p n Hin). lia. }
    unfold read, keypress. simpl. rewrite Hnone. simpl.
    split; [reflexivity|]. split.
    + now apply outcome_none.
    + now apply outcome_last.
  - intros name r oldest rest Hpromises. unfold keypress.
    rewrite Hpromises. split; reflexivity.
  - intros names r Hlen.
    destruct (keypresses_fifo names r Hlen) as (H1 & H2 & _). now split.
Qed.

Lemma keypress_resolves_oldest_request_witness :
  well_formed constructor
  /\ promises constructor = []
  /\ outcome (fst (read (keypress "x" constructor)))
       (resolved (keypress "space" (snd (read (keypress "x" constructor)))))
     = Some "space"
  /\ resolved
       (keypresses ["space"; "t"]
          (snd (read (snd (read (snd (read constructor)))))))
     = [(0%nat, "space"); (1%nat, "t")].
Proof.
  split; [exact constructor_well_formed|]. split; [reflexivity|]. split.
  - apply (proj1 (proj2 keypress_resolves_oldest_request) "x" "space" constructor
             constructor_well_formed eq_refl).
  - apply (proj2 (proj2 (proj2 (proj2 keypress_resolves_oldest_request))
                    ["space"; "t"]
                    (snd (read (snd (read (snd (read constructor))))))
                    ltac:(simpl; lia))).
Defined.
End CharReaderFacts.

(* ================================================================== *)
(** * Part IV: further properties of the engine                        *)
(* ================================================================== *)

(** ** [runTest]: the benchmark and the time limit *)

Section RunTestLimits.
Context {sandbox : Sandbox}.

(** No number is above [Infinity]. *)
Lemma nothing_above_infinity (mean : number) :
  PrimFloat.ltb infinity mean = false.
Proof.
  rewrite FloatAxioms.ltb_spec.
  change (Prim2SF infinity) with (S754_infinity false).
  destruct (Prim2SF mean) as [[|] | [|] | | [|] m e]; reflexivity.
Qed.

(** The benchmark of [runTest], when the evaluation returned [v] and the
    comparator accepted it. *)
Lemma runTest_benchmarked (fnName test content : value) (s : state) v w1 :
  not_nullish test = true ->
  vm_runInNewContext
    (test_runner_code content fnName (field test "args")) (st_world s)
  = (inl v, w1) ->
  comparator v (field test "res") (field test "delta") = true ->
  ToBoolean (field test "max_time_s") = true ->
  runTest fnName test content s
  = match vm_benchmark
            (benchmark_runner_code content fnName (field test "args")) w1 with
    | (inl mean, w2) =>
        (inl (if gt mean (field test "max_time_s") then
                {| pass := false; res := Some v; error := None;
                   time := Some mean; validityPass := Some true |}
              else
                {| pass := true; res := Some v; error := None;
                   time := Some mean; validityPass := None |}),
         after s w2
           [VmRun (test_runner_code content fnName (field test "args"));
            VmBench (benchmark_runner_code content fnName (field test "args"))])
    | (inr e, w2) =>
        (inl (error_result e),
         after s w2
           [VmRun (test_runner_code content fnName (field test "args"));
            VmBench (benchmark_runner_code content fnName (field test "args"))])
    end.
Proof.
  intros Htest Hrun Hcmp Hmax.
  unfold runTest, try_catch, bind, lift, ret.
  rewrite !(Get_not_nullish test _ Htest).
  unfold run_in_new_context. rewrite Hrun. simpl.
  rewrite Hcmp, Hmax. simpl.
  unfold run_benchmark. simpl.
  destruct (vm_benchmark _ w1) as [[mean | e] w2].
  - destruct (gt mean (field test "max_time_s"));
      unfold after; simpl; rewrite <- app_assoc; reflexivity.
  - unfold after, error_result. simpl. rewrite <- app_assoc. reflexivity.
Qed.

(** X1: when the value returned passed the comparator, [max_time_s] is set
    and the benchmark throws, [runTest] returns [{pass: false, error}] with
    the error of the benchmark: the value that was returned and accepted is
    not in the result, and the test counts as failed. *)
Theorem benchmark_error_discards_the_value (fnName test content : value)
  (s : state) v w1 e w2 :
  not_nullish test = true ->
  vm_runInNewContext
    (test_runner_code content fnName (field test "args")) (st_world s)
  = (inl v, w1) ->
  comparator v (field test "res") (field test "delta") = true ->
  ToBoolean (field test "max_time_s") = true ->
  vm_benchmark
    (benchmark_runner_code content fnName (field test "args")) w1
  = (inr e, w2) ->
  runTest fnName test content s
  = (inl {| pass := false; res := None; error := Some e;
            time := None; validityPass := None |},
     after s w2
       [VmRun (test_runner_code content fnName (field test "args"));
        VmBench (benchmark_runner_code content fnName (field test "args"))]).
Proof.
  intros Htest Hrun Hcmp Hmax Hbench.
  rewrite (runTest_benchmarked _ _ _ _ _ _ Htest Hrun Hcmp Hmax), Hbench.
  reflexivity.
Qed.

(** X2: a test whose [max_time_s] is [Infinity] is benchmarked, and never
    fails on its time: whatever mean the benchmark returns, a value
    accepted by the comparator gives [pass: true] with the mean as
    [time]. *)
Theorem infinite_limit_never_fails (fnName test content : value)
  (s : state) v w1 mean w2 :
  not_nullish test = true ->
  field test "max_time_s" = VNum infinity ->
  vm_runInNewContext
    (test_runner_code content fnName (field test "args")) (st_world s)
  = (inl v, w1) ->
  comparator v (field test "res") (field test "delta") = true ->
  vm_benchmark
    (benchmark_runner_code content fnName (field test "args")) w1
  = (inl mean, w2) ->
  runTest fnName test content s
  = (inl {| pass := true; res := Some v; error := None;
            time := Some mean; validityPass := None |},
     after s w2
       [VmRun (test_runner_code content fnName (field test "args"));
        VmBench (benchmark_runner_code content fnName (field test "args"))]).
Proof.
  intros Htest Hmax Hrun Hcmp Hbench.
  assert (Htruthy : ToBoolean (field test "max_time_s") = true)
    by (rewrite Hmax; reflexivity).
  rewrite (runTest_benchmarked _ _ _ _ _ _ Htest Hrun Hcmp Htruthy), Hbench.
  rewrite Hmax. unfold gt. simpl ToNumber.
  now rewrite nothing_above_infinity.
Qed.

(** X3: a result of [runTest] holds either the value returned or the error
    caught, never both and never neither; a result with an error has
    [pass: false] and neither [time] nor [validityPass]; and
    [validityPass] comes only with a [time]. *)
Theorem result_holds_value_or_error (fnName test content : value) (s : state) :
  exists r s',
    runTest fnName test content s = (inl r, s')
    /\ ((exists v, res r = Some v /\ error r = None)
        \/ (exists e, error r = Some e /\ res r = None /\ pass r = false
                      /\ time r = None /\ validityPass r = None))
    /\ (validityPass r <> None -> exists mean, time r = Some mean).
Proof.
  destruct (runTest_run fnName test content s) as (r & w & evs & Hrun & Hspec).
  exists r, (after s w evs). split; [assumption|].
  inversion Hspec; subst; unfold error_result; simpl; split;
    first [ left; eexists; split; reflexivity
          | right; eexists; repeat split; reflexivity
          | intros Hnone; exfalso; apply Hnone; reflexivity
          | intros _; eexists; reflexivity ].
Qed.
End RunTestLimits.

Definition untimed_case : value :=
  VObj [("args", VStr "1000000,1"); ("res", VStr "1000001");
        ("visible", VBool true); ("max_time_s", VNum infinity)].

Lemma benchmark_error_discards_the_value_witness :
  comparator (VNum 1000001%float) (field large_case "res")
    (field large_case "delta") = true
  /\ @runTest scripted (VStr "add") large_case (VStr solution)
       (start [inl (VNum 1000001%float)] [inr ("Error", "timer")])
     = (inl {| pass := false; res := None;
               error := Some (Exception "Error" "timer");
               time := None; validityPass := None |},
        after (start [inl (VNum 1000001%float)] [inr ("Error", "timer")])
          (script [] [])
          [VmRun (test_runner_code (VStr solution) (VStr "add")
                    (field large_case "args"));
           VmBench (benchmark_runner_code (VStr solution) (VStr "add")
                      (field large_case "args"))]).
Proof.
  split; [vm_compute; reflexivity|].
  apply (@benchmark_error_discards_the_value scripted (VStr "add") large_case
           (VStr solution)
           (start [inl (VNum 1000001%float)] [inr ("Error", "timer")])
           (VNum 1000001%float) (script [] [inr ("Error", "timer")])
           (Exception "Error" "timer") (script [] []));
    vm_compute; reflexivity.
Defined.

Lemma infinite_limit_never_fails_witness :
  @runTest scripted (VStr "add") untimed_case (VStr solution)
    (start [inl (VNum 1000001%float)] [inl 3600%float])
  = (inl {| pass := true; res := Some (VNum 1000001%float); error := None;
            time := Some 3600%float; validityPass := None |},
     after (start [inl (VNum 1000001%float)] [inl 3600%float])
       (script [] [])
       [VmRun (test_runner_code (VStr solution) (VStr "add")
                 (field untimed_case "args"));
        VmBench (benchmark_runner_code (VStr solution) (VStr "add")
                   (field untimed_case "args"))]).
Proof.
  apply (@infinite_limit_never_fails scripted (VStr "add") untimed_case
           (VStr solution)
           (start [inl (VNum 1000001%float)] [inl 3600%float])
           (VNum 1000001%float) (script [] [inl 3600%float])
           3600%float (script [] []));
    vm_compute; reflexivity.
Defined.

(** ** Names, and calls into the sandbox *)

Fixpoint all_digits (s : string) : bool :=
  match s with
  | EmptyString => true
  | String c s' =>
      (Nat.leb 48 (nat_of_ascii c) && Nat.leb (nat_of_ascii c) 57)
      && all_digits s'
  end.

(** The names made of digits.  They include the integer indices, which
    [for ... in] and [Object.keys] enumerate before the other names and in
    ascending order, whatever the order of declaration. *)
Definition integer_like (name : string) : bool :=
  negb (String.eqb name "") && all_digits name.

(** A name for which the list of an object is at once the order of
    declaration and the order of enumeration, and for which an assignment
    adds an own property. *)
Definition plain_name (name : string) : bool :=
  negb (integer_like name) && negb (String.eqb name "__proto__").

(** The names of the suites and of their tests are plain. *)
Definition names_ok (tests : value) : bool :=
  forallb (fun suite =>
             plain_name (fst suite)
             && forallb (fun case => plain_name (fst case)) (props_of (snd suite)))
    (props_of tests).

(** The names of the properties of [Object.prototype], which a read finds
    on every plain object. *)
Definition inherited (name : string) : bool :=
  existsb (String.eqb name)
    ["constructor"; "__defineGetter__"; "__defineSetter__"; "hasOwnProperty";
     "__lookupGetter__"; "__lookupSetter__"; "isPrototypeOf";
     "propertyIsEnumerable"; "toString"; "valueOf"; "__proto__";
     "toLocaleString"].

(** The pieces of code evaluated in the sandbox, in order. *)
Definition evaluations (evs : list event) : list string :=
  flat_map (fun ev => match ev with
                      | VmRun code => [code]
                      | _ => []
                      end) evs.

Lemma evaluations_app (evs1 evs2 : list event) :
  evaluations (evs1 ++ evs2) = (evaluations evs1 ++ evaluations evs2)%list.
Proof. apply flat_map_app. Qed.

Lemma evaluations_lines (lines : list line) : evaluations (map Out lines) = [].
Proof. induction lines as [|l lines IH]; [reflexivity | exact IH]. Qed.

(** The pieces of code benchmarked in the sandbox, in order. *)
Definition benchmarks (evs : list event) : list string :=
  flat_map (fun ev => match ev with
                      | VmBench code => [code]
                      | _ => []
                      end) evs.

Lemma benchmarks_app (evs1 evs2 : list event) :
  benchmarks (evs1 ++ evs2) = (benchmarks evs1 ++ benchmarks evs2)%list.
Proof. apply flat_map_app. Qed.

Lemma benchmarks_lines (lines : list line) : benchmarks (map Out lines) = [].
Proof. induction lines as [|l lines IH]; [reflexivity | exact IH]. Qed.

(** The selected tests of the suites, suite after suite. *)
Definition selected_of (all : bool) (tests : value) : list (string * value) :=
  flat_map (fun suite => selected_cases all (snd suite)) (props_of tests).

(** The code evaluated, and the code benchmarked, for a test of the
    challenge [data] on the content of the file. *)
Definition test_code (data : value) (content : string) (test : value) : string :=
  test_runner_code (VStr content) (field data "fn_name") (field test "args").

Definition bench_code (data : value) (content : string) (test : value) : string :=
  benchmark_runner_code (VStr content) (field data "fn_name") (field test "args").

Section SandboxCalls.
Context {sandbox : Sandbox}.

Lemma runTest_spec_evaluations fnName test content w r w' evs :
  not_nullish test = true ->
  runTest_spec fnName test content w r w' evs ->
  evaluations evs = [test_runner_code content fnName (field test "args")].
Proof.
  intros Htest H. inversion H; subst; try reflexivity.
  rewrite (Get_not_nullish test "args" Htest) in *. discriminate.
Qed.

Lemma runTest_spec_benchmarks fnName test content w r w' evs :
  runTest_spec fnName test content w r w' evs ->
  incl (benchmarks evs)
    [benchmark_runner_code content fnName (field test "args")].
Proof.
  intros H. inversion H; subst; cbn;
    first [apply incl_nil_l | apply incl_refl].
Qed.

Variables (data : value) (all : bool) (content : string).

Lemma run_case_calls (testName : string) (test : value) (s : state) :
  not_nullish test = true ->
  evaluations (st_trace (snd (run_case data content testName test s)))
  = (evaluations (st_trace s) ++ [test_code data content test])%list
  /\ exists bs,
       benchmarks (st_trace (snd (run_case data content testName test s)))
       = (benchmarks (st_trace s) ++ bs)%list
       /\ incl bs [bench_code data content test].
Proof.
  intros Htest. unfold run_case.
  destruct (runTest_run (field data "fn_name") test (VStr content)
              (after s (st_world s)
                 [Out (TestLine testName (field test "args") (field test "res"))]))
    as (r & w & evs & Hrun & Hspec).
  rewrite Hrun. cbn [snd after st_trace st_world].
  change (Out (OutcomeLine test r)
          :: (if pass r then [] else [Out (failure_line test r)]))
    with (map Out (OutcomeLine test r
                   :: (if pass r then [] else [failure_line test r]))%list)
    || idtac.
  assert (Hlines : exists lines,
             Out (OutcomeLine test r)
             :: (if pass r then [] else [Out (failure_line test r)])
             = map Out lines).
  { destruct (pass r); [exists [OutcomeLine test r]
                       | exists [OutcomeLine test r; failure_line test r]];
      reflexivity. }
  destruct Hlines as (lines & ->).
  change [Out (TestLine testName (field test "args") (field test "res"))]
    with (map Out [TestLine testName (field test "args") (field test "res")]).
  rewrite !evaluations_app, !benchmarks_app, !evaluations_lines, !benchmarks_lines.
  rewrite !app_nil_r.
  rewrite (runTest_spec_evaluations _ _ _ _ _ _ _ Htest Hspec).
  split; [reflexivity|].
  exists (benchmarks evs). split; [reflexivity|].
  exact (runTest_spec_benchmarks _ _ _ _ _ _ _ Hspec).
Qed.

Lemma run_cases_calls (cases : list (string * value)) :
  (forall case, In case cases -> not_nullish (snd case) = true) ->
  forall s,
    evaluations (st_trace (snd (run_cases data content cases s)))
    = (evaluations (st_trace s)
       ++ map (fun case => test_code data content (snd case)) cases)%list
    /\ exists bs,
         benchmarks (st_trace (snd (run_cases data content cases s)))
         = (benchmarks (st_trace s) ++ bs)%list
         /\ incl bs (map (fun case => bench_code data content (snd case)) cases).
Proof.
  induction cases as [|[testName test] cases IH]; intros Hcases s.
  - cbn. rewrite !app_nil_r. split; [reflexivity|].
    exists []. rewrite app_nil_r. split; [reflexivity | apply incl_refl].
  - cbn [run_cases map snd].
    destruct (run_case_calls testName test s (Hcases (testName, test) (or_introl eq_refl)))
      as (Hev & bs & Hbs & Hincl).
    destruct (run_case data content testName test s) as [r s1].
    cbn [snd] in Hev, Hbs.
    destruct (IH (fun case Hin => Hcases case (or_intror Hin)) s1)
      as (Hev' & bs' & Hbs' & Hincl').
    destruct (run_cases data content cases s1) as [rs s2].
    cbn [snd] in Hev', Hbs' |- *.
    rewrite Hev', Hev, Hbs', Hbs, <- !app_assoc. split; [reflexivity|].
    exists (bs ++ bs')%list. split; [reflexivity|].
    apply incl_app.
    + intros b Hb. left. destruct (Hincl b Hb) as [<- | []]. reflexivity.
    + intros b Hb. right. now apply Hincl'.
Qed.

Lemma selected_cases_defined (suite : value) :
  suite_ok suite = true ->
  forall case, In case (selected_cases all suite) -> not_nullish (snd case) = true.
Proof.
  intros Hok [testName test] Hin. unfold selected_cases in Hin.
  apply filter_In in Hin as [Hin _].
  destruct (suite_ok_props suite Hok) as (_ & _ & Hprops).
  exact (proj2 (Hprops testName test Hin)).
Qed.

Lemma run_suites_calls (suites : list (string * value)) :
  (forall suite, In suite suites -> suite_ok (snd suite) = true) ->
  forall s,
    evaluations (st_trace (snd (run_suites data all content suites s)))
    = (evaluations (st_trace s)
       ++ map (fun case => test_code data content (snd case))
            (flat_map (fun suite => selected_cases all (snd suite)) suites))%list
    /\ exists bs,
         benchmarks (st_trace (snd (run_suites data all content suites s)))
         = (benchmarks (st_trace s) ++ bs)%list
         /\ incl bs
              (map (fun case => bench_code data content (snd case))
                 (flat_map (fun suite => selected_cases all (snd suite)) suites)).
Proof.
  induction suites as [|[suiteName suite] suites IH]; intros Hsuites s.
  - cbn. rewrite !app_nil_r. split; [reflexivity|].
    exists []. rewrite app_nil_r. split; [reflexivity | apply incl_refl].
  - cbn [run_suites flat_map snd]. rewrite !map_app.
    destruct (has_cases suite) eqn:Hcases.
    + destruct (run_cases_calls (selected_cases all suite)
                  (selected_cases_defined suite
                     (Hsuites (suiteName, suite) (or_introl eq_refl)))
                  (after s (st_world s) [Out (SuiteLine suiteName)]))
        as (Hev & bs & Hbs & Hincl).
      destruct (run_cases data content (selected_cases all suite)
                  (after s (st_world s) [Out (SuiteLine suiteName)]))
        as [rs s1].
      cbn [snd after st_trace] in Hev, Hbs.
      change [Out (SuiteLine suiteName)] with (map Out [SuiteLine suiteName])
        in Hev, Hbs.
      rewrite evaluations_app, evaluations_lines, app_nil_r in Hev.
      rewrite benchmarks_app, benchmarks_lines, app_nil_r in Hbs.
      destruct (IH (fun x Hin => Hsuites x (or_intror Hin)) s1)
        as (Hev' & bs' & Hbs' & Hincl').
      destruct (run_suites data all content suites s1) as [entries s2].
      cbn [snd] in Hev', Hbs' |- *.
      rewrite Hev', Hev, Hbs', Hbs, <- !app_assoc. split; [reflexivity|].
      exists (bs ++ bs')%list. split; [reflexivity|].
      apply incl_app; intros b Hb; apply in_or_app; [left | right]; auto.
    + assert (Hnone : selected_cases all suite = []).
      { unfold has_cases in Hcases. unfold selected_cases.
        now destruct (props_of suite). }
      rewrite Hnone. cbn [map app].
      exact (IH (fun x Hin => Hsuites x (or_intror Hin)) s).
Qed.

(** The calls of a run of [Challenge.test] into the sandbox: one evaluation
    for each selected test, in order, and benchmarks of selected tests
    only. *)
Lemma test_calls (s : state) :
  throws_printable sandbox ->
  not_nullish data = true ->
  tests_ok (field data "tests") = true ->
  evaluations (st_trace (snd (Challenge.test data all content s)))
  = (evaluations (st_trace s)
     ++ map (fun case => test_code data content (snd case))
          (selected_of all (field data "tests")))%list
  /\ exists bs,
       benchmarks (st_trace (snd (Challenge.test data all content s)))
       = (benchmarks (st_trace s) ++ bs)%list
       /\ incl bs
            (map (fun case => bench_code data content (snd case))
               (selected_of all (field data "tests"))).
Proof.
  intros Hsandbox Hdata Hok.
  rewrite (test_refines data all content Hdata Hsandbox s Hok).
  destruct (tests_ok_suites _ Hok) as (_ & _ & Hsuites).
  destruct (run_suites_calls (props_of (field data "tests"))
              (fun suite Hin =>
                 proj2 (Hsuites (fst suite) (snd suite)
                          ltac:(destruct suite; exact Hin))) s)
    as (Hev & bs & Hbs & Hincl).
  cbn [snd after st_trace].
  change [Out (SummaryLine
                 (all_failures
                    (fst (run_suites data all content
                            (props_of (field data "tests")) s))))]
    with (map Out [SummaryLine
                     (all_failures
                        (fst (run_suites data all content
                                (props_of (field data "tests")) s)))]).
  rewrite evaluations_app, evaluations_lines, benchmarks_app, benchmarks_lines.
  rewrite !app_nil_r. split; [exact Hev|].
  exists bs. split; [exact Hbs | exact Hincl].
Qed.
End SandboxCalls.

(** ** [Challenge.test]: challenges out of shape, runs with nothing to run,
    and the count of failures *)

Lemma for_in_app {S Acc : Type} (keys keys' : list string)
  (body : string -> Acc -> M S Acc) :
  forall (acc : Acc) (s : S),
    for_in (keys ++ keys')%list body acc s
    = match for_in keys body acc s with
      | (inl acc', s') => for_in keys' body acc' s'
      | (inr e, s') => (inr e, s')
      end.
Proof.
  induction keys as [|key keys IH]; intros acc s; [reflexivity|].
  simpl app. rewrite !for_in_cons.
  destruct (body key acc s) as [[acc' | e] s']; [apply IH | reflexivity].
Qed.

Section MorePropertyLists.
Context {A : Type}.
Implicit Types (l : list (string * A)) (key : string).

Lemma assoc_app_l l l' key :
  In key (map fst l) -> assoc key (l ++ l')%list = assoc key l.
Proof.
  induction l as [|[k y] l IH]; simpl; intros Hin; [contradiction|].
  destruct (String.eqb_spec k key) as [_ | Hne]; [reflexivity|].
  apply IH. destruct Hin; [contradiction | assumption].
Qed.

Lemma assoc_app_r l l' key :
  ~ In key (map fst l) -> assoc key (l ++ l')%list = assoc key l'.
Proof.
  induction l as [|[k y] l IH]; simpl; intros Hfresh; [reflexivity|].
  destruct (String.eqb_spec k key) as [-> | _]; [tauto|].
  apply IH. tauto.
Qed.
End MorePropertyLists.

(** The results of a report, suite after suite. *)
Definition report_results (r : report) : list (string * test_result) :=
  flat_map (fun entry => suite_tests (snd entry)) (report_suites r).

Lemma all_failures_results (entries : list (string * suite_result)) :
  all_failures entries
  = failures (flat_map (fun entry => suite_tests (snd entry)) entries).
Proof.
  induction entries as [|entry entries IH]; simpl; [reflexivity|].
  rewrite IH. unfold failures. now rewrite filter_app, length_app.
Qed.

Lemma failures_none (rs : list (string * test_result)) :
  forallb passed rs = true <-> failures rs = 0%nat.
Proof.
  unfold failures. induction rs as [|entry rs IH]; simpl; [tauto|].
  destruct (passed entry); simpl; [exact IH|].
  split; discriminate.
Qed.

Lemma all_failures_none (entries : list (string * suite_result)) :
  Forall (fun entry => suite_pass (snd entry)
                       = forallb passed (suite_tests (snd entry))) entries ->
  forallb suite_passed entries = true <-> all_failures entries = 0%nat.
Proof.
  induction 1 as [|entry entries Hentry _ IH]; simpl; [tauto|].
  unfold suite_passed at 1. rewrite Hentry, andb_true_iff, IH, failures_none.
  lia.
Qed.

Lemma flat_map_nil {A B : Type} (f : A -> list B) (l : list A) :
  flat_map f l = [] -> forall x, In x l -> f x = [].
Proof.
  induction l as [|y l IH]; simpl; intros H x Hin; [contradiction|].
  apply app_eq_nil in H as [Hy Hl].
  destruct Hin as [<- | Hin]; [assumption | now apply IH].
Qed.

Section TestEdges.
Context {sandbox : Sandbox}.
Variables (data : value) (all : bool) (content : string).

(** The suites that get an entry when none of their tests is selected. *)
Definition idle_suites (tests : value) : list (string * value) :=
  filter (fun suite => has_cases (snd suite)) (props_of tests).

Lemma run_suites_idle (suites : list (string * value)) :
  (forall suite, In suite suites -> selected_cases all (snd suite) = []) ->
  forall s,
    run_suites data all content suites s
    = (map (fun suite => (fst suite, {| suite_pass := true; suite_tests := [] |}))
         (filter (fun suite => has_cases (snd suite)) suites),
       after s (st_world s)
         (map (fun suite => Out (SuiteLine (fst suite)))
            (filter (fun suite => has_cases (snd suite)) suites))).
Proof.
  induction suites as [|[suiteName suite] suites IH]; intros Hidle s; simpl.
  - now rewrite after_nil.
  - assert (Hsuite : selected_cases all suite = [])
      by (apply (Hidle (suiteName, suite)); now left).
    assert (Hrest : forall x, In x suites -> selected_cases all (snd x) = [])
      by (intros x Hx; apply Hidle; now right).
    destruct (has_cases suite); [|now apply IH].
    rewrite Hsuite. simpl run_cases. cbv iota. rewrite (IH Hrest). simpl.
    f_equal. unfold after. simpl. now rewrite <- app_assoc.
Qed.

(** X4: when what the sandbox throws can be printed, the suites and tests
    have plain names (not integer-like, not [__proto__]) and the suites
    before it are of the expected shape, a suite that is [null] (declared
    with no content) or [undefined] makes [Challenge.test] throw the
    [TypeError] of [Object.keys]: no report is returned.  Until then the
    sandbox has evaluated the selected tests of the suites declared before
    it, each once and in order, and has benchmarked selected tests of these
    suites only. *)
Theorem null_suite_aborts_the_run (s : state)
  (before rest : list (string * value)) (suiteName : string) (suite : value) :
  throws_printable sandbox ->
  not_nullish data = true ->
  field data "tests" = VObj (before ++ (suiteName, suite) :: rest) ->
  names_ok (field data "tests") = true ->
  tests_ok (VObj before) = true ->
  ~ In suiteName (map fst before) ->
  not_nullish suite = false ->
  exists s',
    Challenge.test data all content s
    = (inr (Exception "TypeError" "Cannot convert undefined or null to object"),
       s')
    /\ evaluations (st_trace s')
       = (evaluations (st_trace s)
          ++ map (fun case => test_code data content (snd case))
               (selected_of all (VObj before)))%list
    /\ (exists bs,
          benchmarks (st_trace s') = (benchmarks (st_trace s) ++ bs)%list
          /\ incl bs
               (map (fun case => bench_code data content (snd case))
                  (selected_of all (VObj before))))
    /\ executed_tests (st_trace s')
       = (executed_tests (st_trace s) ++ selected_tests all (VObj before))%list.
Proof.
  intros Hsandbox Hdata Htests _ Hbefore Hfresh Hnull.
  destruct (tests_ok_suites _ Hbefore) as (_ & Hnd & Hsuites).
  simpl props_of in Hnd, Hsuites.
  exists (snd (run_suites data all content before s)). split.
  - unfold Challenge.test, bind, lift.
    rewrite (Get_not_nullish data "tests" Hdata), Htests.
    simpl own_keys. rewrite map_app, for_in_app.
    rewrite (test_suites_loop data all content Hdata Hsandbox
               (before ++ (suiteName, suite) :: rest) before).
    + simpl map. rewrite for_in_cons.
      unfold Challenge.test_suite, bind, lift. simpl Get.
      rewrite assoc_app_r by assumption. simpl assoc.
      rewrite String.eqb_refl.
      destruct suite; try discriminate; reflexivity.
    + intros name x Hin. destruct (Hsuites name x Hin) as [Hassoc Hok].
      split; [|assumption].
      rewrite assoc_app_l; [assumption|].
      now apply (in_map fst) in Hin.
    + assumption.
    + intros name _ Hin. exact Hin.
  - destruct (run_suites_calls data all content before
                (fun x Hin =>
                   proj2 (Hsuites (fst x) (snd x)
                            ltac:(destruct x; exact Hin))) s)
      as (Hev & Hbs).
    split; [exact Hev|]. split; [exact Hbs|].
    destruct (run_suites_facts data all content before s) as (Htrace & _).
    exact Htrace.
Qed.

(** X5: on a challenge of the expected shape whose suites and tests have
    plain names (not integer-like, not [__proto__]), when what the sandbox
    throws can be printed and no test is selected (every test is hidden and
    [all] is false, or the challenge has no tests), [Challenge.test] calls
    the sandbox not once, prints the names of the suites that declare tests
    and the summary with no failure, and reports [pass: true], with an
    empty entry for each of these suites. *)
Theorem nothing_selected_passes (s : state) :
  throws_printable sandbox ->
  not_nullish data = true ->
  tests_ok (field data "tests") = true ->
  names_ok (field data "tests") = true ->
  selected_tests all (field data "tests") = [] ->
  Challenge.test data all content s
  = (inl {| report_all := all;
            report_pass := true;
            report_suites :=
              map (fun suite =>
                     (fst suite, {| suite_pass := true; suite_tests := [] |}))
                (idle_suites (field data "tests")) |},
     after s (st_world s)
       (map (fun suite => Out (SuiteLine (fst suite)))
          (idle_suites (field data "tests"))
        ++ [Out (SummaryLine 0)])).
Proof.
  intros Hsandbox Hdata Hok _ Hnone.
  rewrite (test_refines data all content Hdata Hsandbox s Hok).
  assert (Hidle : forall suite, In suite (props_of (field data "tests")) ->
                                selected_cases all (snd suite) = []).
  { intros suite Hin.
    pose proof (flat_map_nil _ _ Hnone suite Hin) as Hnames.
    cbv beta in Hnames.
    destruct (selected_cases all (snd suite)); [reflexivity | discriminate]. }
  rewrite (run_suites_idle _ Hidle). simpl fst. simpl snd.
  fold (idle_suites (field data "tests")).
  assert (Hpass : forall l : list (string * value),
             forallb suite_passed
               (map (fun suite =>
                       (fst suite, {| suite_pass := true; suite_tests := [] |})) l)
             = true) by (induction l; simpl; auto).
  assert (Hfails : forall l : list (string * value),
             all_failures
               (map (fun suite =>
                       (fst suite, {| suite_pass := true; suite_tests := [] |})) l)
             = 0%nat) by (induction l; simpl; auto).
  rewrite Hpass, Hfails. f_equal.
  unfold after. simpl. now rewrite <- app_assoc.
Qed.

(** X6: on a challenge of the expected shape whose suites and tests have
    plain names (not integer-like, not [__proto__]), when what the sandbox
    throws can be printed, the summary is the last line of a run of
    [Challenge.test], and the number of failed tests it gives is the number
    of results with [pass: false] in the report; it says that all tests
    passed exactly when the report has [pass: true]. *)
Theorem summary_counts_the_failures (s : state) :
  throws_printable sandbox ->
  not_nullish data = true ->
  tests_ok (field data "tests") = true ->
  names_ok (field data "tests") = true ->
  exists r s' trace,
    Challenge.test data all content s = (inl r, s')
    /\ st_trace s' = (trace ++ [Out (SummaryLine (failures (report_results r)))])%list
    /\ (report_pass r = true <-> failures (report_results r) = 0%nat).
Proof.
  intros Hsandbox Hdata Hok _.
  rewrite (test_refines data all content Hdata Hsandbox s Hok).
  destruct (run_suites_facts data all content (props_of (field data "tests")) s)
    as (_ & Hentries & _).
  eexists _, _, _. split; [reflexivity|]. unfold report_results. simpl.
  rewrite <- all_failures_results. split; [reflexivity|].
  apply all_failures_none.
  clear - Hentries. induction Hentries as [|e x l l' Hfor _ IH]; constructor.
  - apply Hfor.
  - exact IH.
Qed.
End TestEdges.

(** A challenge whose suite [edges] was left without content. *)
Definition challenge_with_null_suite : value :=
  VObj [("fn_name", VStr "add");
        ("tests",
         VObj [("correctness", VObj [("sum", sum_case)]);
               ("edges", VNull);
               ("performance", VObj [("large", large_case)])])].

(** A challenge whose tests are all hidden. *)
Definition challenge_with_hidden_tests : value :=
  VObj [("fn_name", VStr "add");
        ("tests",
         VObj [("correctness", VObj [("negative", negative_case)]);
               ("edges", VObj [("zero", zero_case)]);
               ("performance", VObj [])])].

Lemma null_suite_aborts_the_run_witness :
  throws_printable scripted
  /\ field challenge_with_null_suite "tests"
     = VObj ([("correctness", VObj [("sum", sum_case)])]
             ++ ("edges", VNull) :: [("performance", VObj [("large", large_case)])])
  /\ names_ok (field challenge_with_null_suite "tests") = true
  /\ exists s',
      @Challenge.test scripted challenge_with_null_suite true solution
        (start [inl (VNum 5%float)] [])
      = (inr (Exception "TypeError" "Cannot convert undefined or null to object"),
         s')
      /\ evaluations (st_trace s')
         = (evaluations []
            ++ map (fun case =>
                      test_code challenge_with_null_suite solution (snd case))
                 (selected_of true
                    (VObj [("correctness", VObj [("sum", sum_case)])])))%list
      /\ (exists bs,
            benchmarks (st_trace s') = (benchmarks [] ++ bs)%list
            /\ incl bs
                 (map (fun case =>
                         bench_code challenge_with_null_suite solution (snd case))
                    (selected_of true
                       (VObj [("correctness", VObj [("sum", sum_case)])]))))
      /\ executed_tests (st_trace s')
         = (executed_tests []
            ++ selected_tests true (VObj [("correctness", VObj [("sum", sum_case)])]))%list.
Proof.
  split; [exact scripted_throws_printable|].
  split; [reflexivity|]. split; [reflexivity|].
  apply (@null_suite_aborts_the_run scripted challenge_with_null_suite true
           solution (start [inl (VNum 5%float)] [])
           [("correctness", VObj [("sum", sum_case)])]
           [("performance", VObj [("large", large_case)])] "edges" VNull);
    [exact scripted_throws_printable | reflexivity | reflexivity | reflexivity
    | reflexivity | | reflexivity].
  simpl. intros [H | H]; [discriminate | exact H].
Defined.

Lemma nothing_selected_passes_witness :
  throws_printable scripted
  /\ tests_ok (field challenge_with_hidden_tests "tests") = true
  /\ names_ok (field challenge_with_hidden_tests "tests") = true
  /\ selected_tests false (field challenge_with_hidden_tests "tests") = []
  /\ @Challenge.test scripted challenge_with_hidden_tests false solution
       (start [] [])
     = (inl {| report_all := false;
               report_pass := true;
               report_suites :=
                 map (fun suite =>
                        (fst suite, {| suite_pass := true; suite_tests := [] |}))
                   (idle_suites (field challenge_with_hidden_tests "tests")) |},
        after (start [] []) (script [] [])
          (map (fun suite => Out (SuiteLine (fst suite)))
             (idle_suites (field challenge_with_hidden_tests "tests"))
           ++ [Out (SummaryLine 0)])).
Proof.
  split; [exact scripted_throws_printable|].
  split; [reflexivity|]. split; [reflexivity|]. split; [reflexivity|].
  apply (@nothing_selected_passes scripted challenge_with_hidden_tests false
           solution (start [] []));
    [exact scripted_throws_printable | reflexivity | reflexivity | reflexivity
    | reflexivity].
Defined.

(** On that challenge the two suites that declare tests are named, and
    nothing else happens. *)
Example nothing_selected_on_hidden_tests :
  @Challenge.test scripted challenge_with_hidden_tests false solution
    (start [] [])
  = (inl {| report_all := false;
            report_pass := true;
            report_suites :=
              [("correctness", {| suite_pass := true; suite_tests := [] |});
               ("edges", {| suite_pass := true; suite_tests := [] |})] |},
     {| st_world := script [] [];
        st_trace := [Out (SuiteLine "correctness"); Out (SuiteLine "edges");
                     Out (SummaryLine 0)] |}).
Proof. vm_compute. reflexivity. Qed.

Lemma summary_counts_the_failures_witness :
  throws_printable scripted
  /\ not_nullish add_challenge = true
  /\ tests_ok (field add_challenge "tests") = true
  /\ names_ok (field add_challenge "tests") = true
  /\ exists r s' trace,
      @Challenge.test scripted add_challenge true solution
        (start [inl (VNum 5%float); inl (VNum 3%float); inl (VNum 0%float);
                inl (VNum 1000001%float)] [inl 0.5%float])
      = (inl r, s')
      /\ st_trace s'
         = (trace ++ [Out (SummaryLine (failures (report_results r)))])%list
      /\ (report_pass r = true <-> failures (report_results r) = 0%nat).
Proof.
  split; [exact scripted_throws_printable|].
  split; [reflexivity|]. split; [reflexivity|]. split; [reflexivity|].
  apply (@summary_counts_the_failures scripted add_challenge true solution
           (start [inl (VNum 5%float); inl (VNum 3%float); inl (VNum 0%float);
                   inl (VNum 1000001%float)] [inl 0.5%float]));
    [exact scripted_throws_printable | reflexivity | reflexivity | reflexivity].
Defined.

(** In that run the second test returns a wrong value and the last one is
    too slow: the summary counts two failures. *)
Example summary_on_two_failures :
  last
    (st_trace
       (snd (@Challenge.test scripted add_challenge true solution
               (start [inl (VNum 5%float); inl (VNum 3%float); inl (VNum 0%float);
                       inl (VNum 1000001%float)] [inl 0.5%float]))))
    (Out Blank)
  = Out (SummaryLine 2).
Proof. vm_compute. reflexivity. Qed.

(** ** The validator: what its closing lines count *)

Definition is_red (ev : event) : bool :=
  match ev with
  | Out (Red _) => true
  | _ => false
  end.

Definition is_yellow (ev : event) : bool :=
  match ev with
  | Out (Yellow _) => true
  | _ => false
  end.

(** The lines printed in red, by [error], and in yellow, by [warn]. *)
Definition reds (evs : list event) : nat := List.length (filter is_red evs).
Definition yellows (evs : list event) : nat := List.length (filter is_yellow evs).

Lemma reds_app (evs1 evs2 : list event) :
  reds (evs1 ++ evs2) = (reds evs1 + reds evs2)%nat.
Proof. unfold reds. now rewrite filter_app, length_app. Qed.

Lemma yellows_app (evs1 evs2 : list event) :
  yellows (evs1 ++ evs2) = (yellows evs1 + yellows evs2)%nat.
Proof. unfold yellows. now rewrite filter_app, length_app. Qed.

(** The lines after the [try] statement, from the two counters. *)
Definition closing_lines (errors warnings : nat) : list line :=
  if Nat.ltb 0 errors then
    [Blank; Red (Text ("failed with " ++ Validator.count_string errors ++ " errors"))]
  else if Nat.ltb 0 warnings then
    [Blank;
     Yellow (Text ("found " ++ Validator.count_string warnings ++ " warnings"))]
  else [Green "ok"].

Section ValidatorCounts.
Context {sandbox : Sandbox}.

Import Validator.

(** Since the trace was [trace], the counters have followed the red and
    the yellow lines. *)
Definition counted (trace : list event) (vs : vstate) : Prop :=
  exists evs,
    st_trace (base vs) = (trace ++ evs)%list
    /\ reds evs = errors vs
    /\ yellows evs = warnings vs.

Definition keeps_count {A : Type} (m : M vstate A) : Prop :=
  forall trace vs r vs', m vs = (r, vs') -> counted trace vs -> counted trace vs'.

Lemma counted_printed (trace : list event) (vs : vstate) (lines : list line)
  (e w : nat) :
  counted trace vs ->
  e = (errors vs + reds (map Out lines))%nat ->
  w = (warnings vs + yellows (map Out lines))%nat ->
  counted trace (printed vs e w lines).
Proof.
  intros (evs & Htrace & Hreds & Hyellows) -> ->.
  exists (evs ++ map Out lines)%list. unfold printed, after. simpl.
  rewrite Htrace, reds_app, yellows_app, Hreds, Hyellows, app_assoc.
  repeat split.
Qed.

Lemma keeps_ret {A : Type} (a : A) : keeps_count (ret a).
Proof. intros trace vs r vs' H Hc. inversion H; subst. exact Hc. Qed.

Lemma keeps_lift {A : Type} (x : A + thrown) : keeps_count (lift x).
Proof. intros trace vs r vs' H Hc. inversion H; subst. exact Hc. Qed.

Lemma keeps_gets {A : Type} (f : vstate -> A) : keeps_count (gets f).
Proof. intros trace vs r vs' H Hc. inversion H; subst. exact Hc. Qed.

Lemma keeps_bind {A B : Type} (m : M vstate A) (k : A -> M vstate B) :
  keeps_count m -> (forall a, keeps_count (k a)) -> keeps_count (bind m k).
Proof.
  intros Hm Hk trace vs r vs' H Hc. unfold bind in H.
  destruct (m vs) as [[a | e] vs1] eqn:Hrun.
  - exact (Hk a trace vs1 r vs' H (Hm trace vs _ vs1 Hrun Hc)).
  - inversion H; subst. exact (Hm trace vs _ vs' Hrun Hc).
Qed.

Lemma keeps_try_catch {A : Type} (m : M vstate A) (handler : thrown -> M vstate A) :
  keeps_count m -> (forall e, keeps_count (handler e)) ->
  keeps_count (try_catch m handler).
Proof.
  intros Hm Hh trace vs r vs' H Hc. unfold try_catch in H.
  destruct (m vs) as [[a | e] vs1] eqn:Hrun.
  - inversion H; subst. exact (Hm trace vs _ vs' Hrun Hc).
  - exact (Hh e trace vs1 r vs' H (Hm trace vs _ vs1 Hrun Hc)).
Qed.

Lemma keeps_for_in {Acc : Type} (keys : list string)
  (body : string -> Acc -> M vstate Acc) :
  (forall key acc, keeps_count (body key acc)) ->
  forall acc, keeps_count (for_in keys body acc).
Proof.
  intros Hbody. induction keys as [|key keys IH]; intros acc; simpl.
  - apply keeps_ret.
  - apply keeps_bind; [apply Hbody | exact IH].
Qed.

Lemma keeps_when (c : bool) (m : M vstate unit) :
  keeps_count m -> keeps_count (when c m).
Proof. intros Hm. destruct c; [exact Hm | apply keeps_ret]. Qed.

Lemma keeps_error (str : message) : keeps_count (Validator.error str).
Proof.
  intros trace vs r vs' H Hc. rewrite error_run in H. inversion H; subst.
  apply counted_printed; [assumption | | ];
    destruct (Nat.eqb (errors vs) 0 && Nat.eqb (warnings vs) 0);
    unfold reds, yellows; simpl; lia.
Qed.

Lemma keeps_warn (str : message) : keeps_count (warn str).
Proof.
  intros trace vs r vs' H Hc. rewrite warn_run in H. inversion H; subst.
  apply counted_printed; [assumption | | ];
    destruct (Nat.eqb (errors vs) 0 && Nat.eqb (warnings vs) 0);
    unfold reds, yellows; simpl; lia.
Qed.

Lemma keeps_console_log (l : line) :
  is_red (Out l) = false -> is_yellow (Out l) = false ->
  keeps_count (console_log l).
Proof.
  intros Hred Hyellow trace vs r vs' H Hc. unfold console_log in H.
  inversion H; subst.
  apply (counted_printed trace vs [l] (errors vs) (warnings vs) Hc);
    destruct l; try discriminate Hred; try discriminate Hyellow;
    unfold reds, yellows; simpl; lia.
Qed.

Lemma runTest_spec_quiet fnName test content w r w' evs :
  runTest_spec fnName test content w r w' evs ->
  reds evs = 0%nat /\ yellows evs = 0%nat.
Proof. intros H. inversion H; split; reflexivity. Qed.

Lemma keeps_runTest (fnName test content : value) :
  keeps_count (in_base (runTest fnName test content)).
Proof.
  intros trace vs r vs' H (evs0 & Htrace & Hreds & Hyellows).
  unfold in_base in H.
  destruct (runTest_run fnName test content (base vs))
    as (r0 & w & evs & Hrun & Hspec).
  rewrite Hrun in H. inversion H; subst.
  destruct (runTest_spec_quiet _ _ _ _ _ _ _ Hspec) as [Hr Hy].
  exists (evs0 ++ evs)%list. simpl.
  rewrite Htrace, reds_app, yellows_app, Hr, Hy, app_assoc.
  repeat split; lia.
Qed.

Ltac keeps :=
  repeat first
    [ apply keeps_error
    | apply keeps_warn
    | apply keeps_console_log; reflexivity
    | apply keeps_gets
    | apply keeps_runTest
    | apply keeps_lift
    | apply keeps_when
    | apply keeps_ret
    | apply keeps_bind; [|intros] ].

Lemma keeps_validate_body (challenges : value) (cid : string) :
  keeps_count (validate_body challenges cid).
Proof.
  unfold validate_body. keeps.
  apply keeps_for_in. intros suiteName []. unfold validate_suite. keeps.
  apply keeps_for_in. intros testName []. unfold validate_test. keeps.
Qed.

Lemma summary_trace (vs : vstate) :
  st_trace (base (summary vs))
  = (st_trace (base vs)
     ++ map Out (closing_lines (errors vs) (warnings vs)))%list
  /\ st_world (base (summary vs)) = st_world (base vs).
Proof.
  unfold summary, closing_lines.
  destruct (Nat.ltb 0 (errors vs)); [|destruct (Nat.ltb 0 (warnings vs))];
    split; reflexivity.
Qed.

(** The trace of a validation: what the [try] statement printed, and the
    closing lines for it. *)
Lemma validator_trace (challenges : value) (cid : string) (s : state) :
  exists counts s' evs,
    validateChallengeById challenges cid s = (inl counts, s')
    /\ st_trace s'
       = (st_trace s ++ evs
          ++ map Out (closing_lines (reds evs) (yellows evs)))%list.
Proof.
  unfold validateChallengeById. rewrite validate_run.
  set (vs0 := {| errors := 0; warnings := 0; base := s |}).
  assert (Hstart : counted (st_trace s)
                     (printed vs0 (errors vs0) (warnings vs0) [Validating cid])).
  { apply counted_printed; [|reflexivity|reflexivity].
    exists []. simpl. rewrite app_nil_r. repeat split. }
  destruct (validate_body challenges cid
              (printed vs0 (errors vs0) (warnings vs0) [Validating cid]))
    as [[[] | e] vs'] eqn:Hbody.
  - pose proof (keeps_validate_body _ _ _ _ _ _ Hbody Hstart)
      as (evs & Htrace & Hreds & Hyellows).
    eexists _, _, evs. split; [reflexivity|].
    rewrite (proj1 (summary_trace vs')), Htrace, Hreds, Hyellows.
    now rewrite app_assoc.
  - pose proof (keeps_validate_body _ _ _ _ _ _ Hbody Hstart) as Hcount.
    assert (Hcaught : counted (st_trace s)
              (printed vs' (S (errors vs')) (warnings vs')
                 (if Nat.eqb (errors vs') 0 && Nat.eqb (warnings vs') 0
                  then [Blank; Red (problem cid e)] else [Red (problem cid e)]))).
    { apply counted_printed; [assumption | | ];
        destruct (Nat.eqb (errors vs') 0 && Nat.eqb (warnings vs') 0);
        unfold reds, yellows; simpl; lia. }
    destruct Hcaught as (evs & Htrace & Hreds & Hyellows).
    eexists _, _, evs. split; [reflexivity|].
    rewrite (proj1 (summary_trace _)), Htrace, Hreds, Hyellows.
    now rewrite app_assoc.
Qed.

(** X7: [validateChallengeById] always returns, and its closing lines
    count what it printed before them: with [n > 0] lines in red (the
    errors), they are a blank line and [failed with n errors]; with none
    in red and [m > 0] in yellow (the warnings), a blank line and
    [found m warnings]; and [ok] exactly when no error and no warning was
    printed. *)
Theorem closing_lines_count_the_reports (challenges : value) (cid : string)
  (s : state) :
  exists counts s' evs,
    validateChallengeById challenges cid s = (inl counts, s')
    /\ st_trace s'
       = (st_trace s ++ evs
          ++ map Out (closing_lines (reds evs) (yellows evs)))%list
    /\ (closing_lines (reds evs) (yellows evs) = [Green "ok"]
        <-> reds evs = 0%nat /\ yellows evs = 0%nat).
Proof.
  destruct (validator_trace challenges cid s) as (counts & s' & evs & Hrun & Htrace).
  exists counts, s', evs. split; [exact Hrun|]. split; [exact Htrace|].
  unfold closing_lines.
  destruct (reds evs) as [|n]; [destruct (yellows evs) as [|m]|]; simpl;
    split; try (intros [H1 H2]); try discriminate; auto.
Qed.

(** X8: for a [cid] that is no key of the object [challenges] and is not
    the name of a property of [Object.prototype] either, [challenges[cid]]
    is [undefined] and the first read in the [try] block throws; the
    validator prints that problem and [failed with 1 errors], runs nothing
    and does not throw. *)
Theorem validator_on_unknown_challenge (props : list (string * value))
  (cid : string) (s : state) :
  assoc cid props = None ->
  inherited cid = false ->
  validateChallengeById (VObj props) cid s
  = (inl (2%nat, 0%nat),
     after s (st_world s)
       [Out (Validating cid);
        Out Blank;
        Out (Red (Text ("problem occured while trying to verify " ++ cid
                        ++ ": TypeError: Cannot read properties of undefined (reading 'fn_name')")));
        Out Blank;
        Out (Red (Text "failed with 1 errors"))]).
Proof.
  intros Hkey _.
  assert (Hget : Get (VObj props) cid = inl VUndefined)
    by (cbn [Get]; now rewrite Hkey).
  unfold validateChallengeById. rewrite validate_run.
  unfold validate_body, bind, lift. rewrite Hget. simpl.
  unfold after, problem. simpl. rewrite <- !app_assoc. reflexivity.
Qed.
End ValidatorCounts.

Lemma validator_on_unknown_challenge_witness :
  assoc "sub" [("add", add_challenge)] = None
  /\ inherited "sub" = false
  /\ @Validator.validateChallengeById scripted
    (VObj [("add", add_challenge)]) "sub" (start [] [])
  = (inl (2%nat, 0%nat),
     after (start [] []) (script [] [])
       [Out (Validating "sub");
        Out Blank;
        Out (Red (Text ("problem occured while trying to verify " ++ "sub"
                        ++ ": TypeError: Cannot read properties of undefined (reading 'fn_name')")));
        Out Blank;
        Out (Red (Text "failed with 1 errors"))]).
Proof.
  split; [reflexivity|]. split; [reflexivity|].
  apply (@validator_on_unknown_challenge scripted
           [("add", add_challenge)] "sub" (start [] [])); reflexivity.
Defined.

(** ** The validator: what it runs *)

(** The evaluation of the sample solution on a test case. *)
Definition sample_run (challenge test : value) : string :=
  test_runner_code (field challenge "sample_solution")
    (field challenge "fn_name") (field test "args").

(** The evaluations due for the declared tests, suite after suite. *)
Definition sample_runs (challenge : value) : list string :=
  flat_map (fun suite =>
              map (fun case => sample_run challenge (snd case))
                (props_of (snd suite)))
    (props_of (field challenge "tests")).

Lemma flat_map_field {B : Type} (g : value -> list B)
  (props : list (string * value)) :
  NoDup (map fst props) ->
  flat_map (fun key => g (field (VObj props) key)) (map fst props)
  = flat_map (fun p => g (snd p)) props.
Proof.
  intros Hnd.
  assert (Hall : forall l, incl l props ->
            flat_map (fun key => g (field (VObj props) key)) (map fst l)
            = flat_map (fun p => g (snd p)) l).
  { induction l as [|[key x] l IH]; intros Hincl; [reflexivity|]. simpl.
    rewrite IH by (intros p Hp; apply Hincl; now right).
    unfold field at 1. simpl Get.
    rewrite (assoc_In_NoDup props key x Hnd) by (apply Hincl; now left).
    reflexivity. }
  apply Hall, incl_refl.
Qed.

Lemma flat_map_single {A B : Type} (f : A -> B) (l : list A) :
  flat_map (fun x => [f x]) l = map f l.
Proof. induction l as [|x l IH]; simpl; [reflexivity | now rewrite IH]. Qed.

Section ValidatorRuns.
Context {sandbox : Sandbox}.

Import Validator.

(** [m] returns, and evaluates [codes] on its way. *)
Definition evaluates {A : Type} (m : M vstate A) (codes : list string) : Prop :=
  forall vs,
    exists a vs',
      m vs = (inl a, vs')
      /\ evaluations (st_trace (base vs'))
         = (evaluations (st_trace (base vs)) ++ codes)%list.

Lemma evaluates_ret {A : Type} (a : A) : evaluates (ret a) [].
Proof. intros vs. exists a, vs. now rewrite app_nil_r. Qed.

Lemma evaluates_gets {A : Type} (f : vstate -> A) : evaluates (gets f) [].
Proof. intros vs. exists (f vs), vs. now rewrite app_nil_r. Qed.

Lemma evaluates_seq {A B : Type} (m : M vstate A) (k : A -> M vstate B)
  (codes codes' : list string) :
  evaluates m codes -> (forall a, evaluates (k a) codes') ->
  evaluates (bind m k) (codes ++ codes').
Proof.
  intros Hm Hk vs. destruct (Hm vs) as (a & vs1 & Hrun & Htrace).
  destruct (Hk a vs1) as (b & vs2 & Hrun' & Htrace').
  exists b, vs2. unfold bind. rewrite Hrun, Hrun', Htrace', Htrace.
  now rewrite app_assoc.
Qed.

Lemma evaluates_then {A B : Type} (m : M vstate A) (k : A -> M vstate B)
  (codes : list string) :
  evaluates m [] -> (forall a, evaluates (k a) codes) ->
  evaluates (bind m k) codes.
Proof. intros Hm Hk. exact (evaluates_seq m k [] codes Hm Hk). Qed.

Lemma evaluates_last {A B : Type} (m : M vstate A) (k : A -> M vstate B)
  (codes : list string) :
  evaluates m codes -> (forall a, evaluates (k a) []) ->
  evaluates (bind m k) codes.
Proof.
  intros Hm Hk. rewrite <- (app_nil_r codes).
  exact (evaluates_seq m k codes [] Hm Hk).
Qed.

Lemma evaluates_read {A : Type} (x : value) (k : value -> M vstate A)
  (codes : list string) :
  evaluates (k x) codes -> evaluates (bind (lift (inl x)) k) codes.
Proof. intros Hk vs. exact (Hk vs). Qed.

Lemma evaluates_printed {A : Type} (m : M vstate A) :
  (forall vs, exists a e w lines, m vs = (inl a, printed vs e w lines)) ->
  evaluates m [].
Proof.
  intros Hm vs. destruct (Hm vs) as (a & e & w & lines & Hrun).
  exists a, (printed vs e w lines). split; [assumption|].
  unfold printed, after. simpl.
  now rewrite evaluations_app, evaluations_lines.
Qed.

Lemma evaluates_error (str : message) : evaluates (Validator.error str) [].
Proof.
  apply evaluates_printed. intros vs. rewrite error_run. eauto.
Qed.

Lemma evaluates_warn (str : message) : evaluates (warn str) [].
Proof.
  apply evaluates_printed. intros vs. rewrite warn_run. eauto.
Qed.

Lemma evaluates_console_log (l : line) : evaluates (console_log l) [].
Proof.
  apply evaluates_printed. intros vs.
  exists tt, (errors vs), (warnings vs), [l]. reflexivity.
Qed.

Lemma evaluates_when (c : bool) (m : M vstate unit) :
  evaluates m [] -> evaluates (when c m) [].
Proof. intros Hm. destruct c; [exact Hm | apply evaluates_ret]. Qed.

Lemma evaluates_runTest (fnName test content : value) :
  not_nullish test = true ->
  evaluates (in_base (runTest fnName test content))
    [test_runner_code content fnName (field test "args")].
Proof.
  intros Htest vs. unfold in_base.
  destruct (runTest_run fnName test content (base vs))
    as (r & w & evs & Hrun & Hspec).
  rewrite Hrun. eexists _, _. split; [reflexivity|]. simpl.
  now rewrite evaluations_app, (runTest_spec_evaluations _ _ _ _ _ _ _ Htest Hspec).
Qed.

Lemma evaluates_for_in {Acc : Type} (keys : list string)
  (body : string -> Acc -> M vstate Acc) (codes : string -> list string) :
  (forall key acc, In key keys -> evaluates (body key acc) (codes key)) ->
  forall acc, evaluates (for_in keys body acc) (flat_map codes keys).
Proof.
  induction keys as [|key keys IH]; intros Hbody acc; simpl.
  - apply evaluates_ret.
  - apply evaluates_seq.
    + apply Hbody. now left.
    + apply IH. intros k a Hin. apply Hbody. now right.
Qed.

Ltac quiet :=
  first [ apply evaluates_error | apply evaluates_warn
        | apply evaluates_console_log | apply evaluates_gets
        | apply evaluates_when; quiet ].

Ltac evaluates_steps :=
  repeat first
    [ apply evaluates_read; cbv beta
    | apply evaluates_then; [quiet | intros ?] ].

Lemma evaluates_validate_test (challenge : value) (suiteName testName : string)
  (props : list (string * value)) :
  not_nullish challenge = true ->
  not_nullish (field (VObj props) testName) = true ->
  evaluates (validate_test challenge suiteName (VObj props) testName tt)
    [sample_run challenge (field (VObj props) testName)].
Proof.
  intros Hchallenge Htest. unfold validate_test.
  rewrite (Get_not_nullish (VObj props) testName eq_refl).
  apply evaluates_read; cbv beta.
  rewrite !(Get_not_nullish (field (VObj props) testName) _ Htest).
  rewrite !(Get_not_nullish challenge _ Hchallenge).
  evaluates_steps.
  apply evaluates_last.
  - apply evaluates_runTest. assumption.
  - intros r. quiet.
Qed.

Lemma suite_ok_fields (suite : value) (testName : string) :
  suite_ok suite = true -> In testName (own_keys suite) ->
  not_nullish (field suite testName) = true.
Proof.
  intros Hok Hin. destruct (suite_ok_props suite Hok) as (Hshape & _ & Hprops).
  rewrite Hshape in Hin |- *. simpl in Hin.
  apply in_map_iff in Hin as ([name test] & <- & Hin).
  destruct (Hprops name test Hin) as [Hassoc Htest].
  unfold field. simpl. now rewrite Hassoc.
Qed.

Lemma evaluates_validate_suite (challenge : value)
  (suites : list (string * value)) (suiteName : string) :
  not_nullish challenge = true ->
  suite_ok (field (VObj suites) suiteName) = true ->
  evaluates (validate_suite challenge (VObj suites) suiteName tt)
    (map (fun case => sample_run challenge (snd case))
       (props_of (field (VObj suites) suiteName))).
Proof.
  intros Hchallenge Hok. unfold validate_suite.
  rewrite (Get_not_nullish (VObj suites) suiteName eq_refl).
  apply evaluates_read; cbv beta.
  destruct (suite_ok_props _ Hok) as (Hshape & Hnd & _).
  pose proof (fun testName => suite_ok_fields _ testName Hok) as Hfields.
  remember (props_of (field (VObj suites) suiteName)) as props eqn:Hprops.
  rewrite Hshape in Hfields |- *. simpl own_keys in *.
  assert (Hcodes : map (fun case => sample_run challenge (snd case)) props
                   = flat_map
                       (fun key => [sample_run challenge (field (VObj props) key)])
                       (map fst props)).
  { symmetry. etransitivity.
    - exact (flat_map_field (fun test => [sample_run challenge test]) props Hnd).
    - exact (flat_map_single (fun case => sample_run challenge (snd case)) props). }
  rewrite Hcodes.
  apply evaluates_for_in. intros testName [] Hin.
  apply evaluates_validate_test; [assumption | now apply Hfields].
Qed.

Lemma evaluates_validate_body (challenges challenge : value) (cid : string) :
  Get challenges cid = inl challenge ->
  not_nullish challenge = true ->
  tests_ok (field challenge "tests") = true ->
  evaluates (validate_body challenges cid) (sample_runs challenge).
Proof.
  intros Hget Hchallenge Hok. unfold validate_body. rewrite Hget.
  apply evaluates_read; cbv beta.
  rewrite !(Get_not_nullish challenge _ Hchallenge).
  destruct (tests_ok_suites _ Hok) as (Hshape & Hnd & Hsuites).
  unfold sample_runs.
  remember (props_of (field challenge "tests")) as suites eqn:Hprops.
  rewrite Hshape.
  assert (Hcodes : flat_map
                     (fun suite =>
                        map (fun case => sample_run challenge (snd case))
                          (props_of (snd suite))) suites
                   = flat_map
                       (fun key =>
                          map (fun case => sample_run challenge (snd case))
                            (props_of (field (VObj suites) key)))
                       (map fst suites)).
  { symmetry.
    exact (flat_map_field
             (fun suite => map (fun case => sample_run challenge (snd case))
                             (props_of suite)) suites Hnd). }
  rewrite Hcodes.
  evaluates_steps.
  simpl own_keys.
  apply evaluates_for_in. intros suiteName [] Hin.
  apply evaluates_validate_suite; [assumption|].
  apply in_map_iff in Hin as ([name suite] & <- & Hin).
  destruct (Hsuites name suite Hin) as [Hassoc Hsuite].
  unfold field. simpl. now rewrite Hassoc.
Qed.

(** X9: on a challenge of the data model's shape whose suites and tests
    have plain names (not integer-like, not [__proto__]), the validator
    does not stop on a problem, and it evaluates the sample solution once
    for each declared test, hidden or visible, suite after suite in
    declared order, whatever it has reported on the test before. *)
Theorem validator_runs_every_test (challenges challenge : value) (cid : string)
  (s : state) :
  Get challenges cid = inl challenge ->
  not_nullish challenge = true ->
  tests_ok (field challenge "tests") = true ->
  names_ok (field challenge "tests") = true ->
  exists counts s',
    validateChallengeById challenges cid s = (inl counts, s')
    /\ evaluations (st_trace s')
       = (evaluations (st_trace s) ++ sample_runs challenge)%list.
Proof.
  intros Hget Hchallenge Hok _.
  unfold validateChallengeById. rewrite validate_run.
  set (vs0 := {| errors := 0; warnings := 0; base := s |}).
  destruct (evaluates_validate_body _ _ _ Hget Hchallenge Hok
              (printed vs0 (errors vs0) (warnings vs0) [Validating cid]))
    as ([] & vs' & Hbody & Htrace).
  rewrite Hbody. eexists _, _. split; [reflexivity|].
  rewrite (proj1 (summary_trace vs')), evaluations_app, evaluations_lines.
  rewrite app_nil_r, Htrace. unfold printed, after. simpl.
  now rewrite evaluations_app, app_nil_r.
Qed.
End ValidatorRuns.

Lemma validator_runs_every_test_witness :
  tests_ok (field add_challenge "tests") = true
  /\ names_ok (field add_challenge "tests") = true
  /\ exists counts s',
      @Validator.validateChallengeById scripted
        (VObj [("add", add_challenge)]) "add"
        (start [inl (VNum 5%float); inl (VNum 0%float); inl (VNum 0%float);
                inl (VNum 1000001%float)] [inl 0.0001%float])
      = (inl counts, s')
      /\ evaluations (st_trace s')
         = (evaluations [] ++ sample_runs add_challenge)%list.
Proof.
  split; [reflexivity|]. split; [reflexivity|].
  apply (@validator_runs_every_test scripted
           (VObj [("add", add_challenge)]) add_challenge "add"
           (start [inl (VNum 5%float); inl (VNum 0%float); inl (VNum 0%float);
                   inl (VNum 1000001%float)] [inl 0.0001%float]));
    reflexivity.
Defined.

(** ** The keypress reader over any run of reads and keys *)

Module ReaderRuns.
Import CharReader.

(** What happens to the reader once its constructor has built it: a call
    of [read], or a ['keypress'] event that [process.stdin] emits and the
    listener of the reader receives.  The events are those emitted after
    the listener was attached; what was typed earlier is not an event of
    this kind before the stream delivers it. *)
Inductive action : Type :=
| ReadChar
| Key (name : string).

Definition act (r : t) (a : action) : t :=
  match a with
  | ReadChar => snd (read r)
  | Key name => keypress name r
  end.

Definition acts (l : list action) (r : t) : t := fold_left act l r.

Definition is_read (a : action) : bool :=
  match a with
  | ReadChar => true
  | Key _ => false
  end.

(** The number of calls of [read]. *)
Definition reads (l : list action) : nat := List.length (filter is_read l).

(** The keys that found a read waiting, [pending] reads waiting at the
    start: the others arrive while no promise is pending. *)
Fixpoint answered (pending : nat) (l : list action) : list string :=
  match l with
  | [] => []
  | ReadChar :: l' => answered (S pending) l'
  | Key name :: l' =>
      match pending with
      | O => answered O l'
      | S n => name :: answered n l'
      end
  end.

Lemma answered_bound (l : list action) :
  forall pending,
    (List.length (answered pending l) <= pending + reads l)%nat.
Proof.
  unfold reads.
  induction l as [|[|name] l IH]; intros pending; cbn [answered filter is_read].
  - cbn. lia.
  - specialize (IH (S pending)). cbn [List.length]. lia.
  - destruct pending as [|n]; cbn [List.length].
    + exact (IH 0%nat).
    + specialize (IH n). lia.
Qed.

(** The reader after a run, from a reader with [done] promises resolved
    and [pending] promises waiting. *)
Lemma acts_from (l : list action) :
  forall (done pending : nat) (res : list (nat * string)),
    acts l {| promises := seq done pending;
              resolved := res;
              allocated := done + pending |}
    = {| promises :=
           seq (done + List.length (answered pending l))
             (pending + reads l - List.length (answered pending l));
         resolved :=
           res ++ combine (seq done (List.length (answered pending l)))
                    (answered pending l);
         allocated := done + pending + reads l |}.
Proof.
  unfold reads.
  induction l as [|[|name] l IH]; intros done pending res;
    cbn [acts fold_left act answered filter is_read].
  - cbn [List.length seq combine]. rewrite app_nil_r.
    f_equal; first [lia | f_equal; lia | reflexivity].
  - unfold read. cbn [snd promises resolved allocated].
    replace (seq done pending ++ [(done + pending)%nat])%list
      with (seq done (S pending)) by (now rewrite seq_S).
    replace (S (done + pending)) with (done + S pending)%nat by lia.
    fold (acts l {| promises := seq done (S pending); resolved := res;
                    allocated := done + S pending |}).
    rewrite IH. cbn [List.length]. f_equal; first [lia | f_equal; lia | reflexivity].
  - destruct pending as [|n].
    + unfold keypress. cbn [promises seq].
      fold (acts l {| promises := []; resolved := res;
                      allocated := done + 0 |}).
      exact (IH done 0%nat res).
    + unfold keypress. cbn [promises seq resolved allocated].
      replace (done + S n)%nat with (S done + n)%nat by lia.
      fold (acts l {| promises := seq (S done) n;
                      resolved := res ++ [(done, name)];
                      allocated := S done + n |}).
      rewrite IH. cbn [List.length seq combine].
      rewrite <- app_assoc. cbn [app].
      f_equal; first [lia | f_equal; lia | reflexivity].
Qed.

(** X10: from the reader as its constructor builds it, whatever the order
    of the calls of [read] and of the keypress events that its listener
    receives: a key that arrives while reads are waiting resolves the
    oldest waiting promise with its name, a key that arrives while none is
    waiting is dropped.  So the promises resolved are the first ones
    handed out, in that order, the n-th with the name of the n-th key that
    found a read waiting; the promises still pending are the following
    ones, in the order they were handed out; none is resolved twice and
    none is lost. *)
Theorem promises_resolve_in_order (l : list action) :
  resolved (acts l constructor)
  = combine (seq 0 (List.length (answered 0 l))) (answered 0 l)
  /\ promises (acts l constructor)
     = seq (List.length (answered 0 l)) (reads l - List.length (answered 0 l))
  /\ allocated (acts l constructor) = reads l
  /\ (List.length (answered 0 l) <= reads l)%nat.
Proof.
  change constructor
    with {| promises := seq 0 0; resolved := []; allocated := 0 + 0 |}.
  rewrite acts_from. cbn [promises resolved allocated app Nat.add].
  repeat split. exact (answered_bound l 0).
Qed.

(** Three reads and three keys: the key that arrives while no read is
    waiting is dropped. *)
Example reads_and_keys :
  acts [ReadChar; Key "a"; Key "b"; ReadChar; ReadChar; Key "c"] constructor
  = {| promises := [2%nat];
       resolved := [(0%nat, "a"); (1%nat, "c")];
       allocated := 3 |}.
Proof. reflexivity. Qed.

(** In the loop of [Challenge.run] a read is followed by the key that
    answers it: every promise is resolved with that key. *)
Example reads_in_a_session :
  acts [ReadChar; Key "space"; ReadChar; Key "t"; ReadChar; Key "return"]
    constructor
  = {| promises := [];
       resolved := [(0%nat, "space"); (1%nat, "t"); (2%nat, "return")];
       allocated := 3 |}.
Proof. reflexivity. Qed.

End ReaderRuns.

(** ** The duration formatter: what the fragments add up to *)

(** X11: for a safe integer [ms] from one second on, the counts of hours,
    minutes and seconds that [msToReadableDuration] prints add up to the
    duration rounded down to the second, with fewer than 60 minutes and
    fewer than 60 seconds; the counts that are zero are left out. *)
Theorem duration_value (ms : Z) :
  safe_integer ms ->
  SECOND <= ms ->
  exists h m s,
    0 <= h /\ 0 <= m < 60 /\ 0 <= s < 60
    /\ h * HOUR + m * MINUTE + s * SECOND = ms - ms mod SECOND
    /\ msToReadableDuration ms false
       = join_space
           (map render
              (filter (fun f => 0 <? fst f) [(h, "h"); (m, "min"); (s, "s")])).
Proof.
  intros _ Hms.
  exists (ms / HOUR), ((ms mod HOUR) / MINUTE), (((ms mod HOUR) mod MINUTE) / SECOND).
  rewrite duration_refines. unfold fragments.
  destruct (Z.ltb_spec ms SECOND) as [Hlt | _]; [lia|].
  unfold_units. repeat split; try reflexivity;
    Z.div_mod_to_equations; lia.
Qed.

Lemma duration_value_witness :
  safe_integer 3725999
  /\ SECOND <= 3725999
  /\ exists h m s,
      0 <= h /\ 0 <= m < 60 /\ 0 <= s < 60
      /\ h * HOUR + m * MINUTE + s * SECOND = 3725999 - 3725999 mod SECOND
      /\ msToReadableDuration 3725999 false
         = join_space
             (map render
                (filter (fun f => 0 <? fst f) [(h, "h"); (m, "min"); (s, "s")])).
Proof.
  split; [split; vm_compute; discriminate|].
  split; [vm_compute; discriminate|].
  apply (duration_value 3725999);
    [split; vm_compute; discriminate | vm_compute; discriminate].
Defined.

Example duration_value_sample : msToReadableDuration 3725999 false = "1h 2min 5s".
Proof. vm_compute. reflexivity. Qed.

(* ================================================================== *)
(** * Part V: the interactive part of [Challenge]                      *)
(* ================================================================== *)

(** ** The constructor, [run], [submit] and the commands

    [run] talks to the file system, the clock, the keyboard and the
    process.  What they answer is given in advance: the outcome of
    [fs.writeFile], the start time, the outcome of building the keypress
    reader at the first [readChar] (its constructor throws when
    [process.stdin] is not a terminal), and for each turn of the loop the
    key name [readChar] resolves with, the time [Date.now()] shows during
    the turn and the outcome of [fs.readFile] should the turn read
    [challenge.js].  A line whose text is fixed, or made of a key name or
    of a duration, is kept as its text; a line with a date, a path or a
    percentage is kept as the data it renders. *)
Module ChallengeRun.

Record challenge : Type := {
  cid : string;
  data : value
}.

(** The reads [v[key]] that [Get] gives as the program does: of an own
    property, of a name that a plain object neither has nor inherits, and
    on [undefined] and [null].  The other reads may find an inherited
    property, such as [constructor] on an object or [length] on an
    array. *)
Definition own_read (v : value) (key : string) : bool :=
  match v with
  | VUndefined | VNull => true
  | VObj props =>
      match assoc key props with
      | Some _ => true
      | None => negb (inherited key)
      end
  | VArr items =>
      match nth_keyed 0 key items with
      | Some _ => true
      | None => false
      end
  | VStr s =>
      match nth_keyed 0 key (list_ascii_of_string s) with
      | Some _ => true
      | None => false
      end
  | VBool _ | VNum _ => false
  end.

(** [new Challenge(cid)], with the parsed [challenges]; [None] when
    [challenges[cid]] is not a read that [Get] gives. *)
Definition constructor (challenges : value) (cid : string)
  : option (challenge + thrown) :=
  if own_read challenges cid then
    Some match Get challenges cid with
         | inl d =>
             if negb (ToBoolean d) then
               inr (Exception "Error" ("No challenge with id " ++ cid ++ " found"))
             else inl {| cid := cid; data := d |}
         | inr e => inr e
         end
  else None.

Inductive notice : Type :=
| Say (text : string)
| StartedAt (cid : string) (startTime : Z)
| ChallengePath
| RecommendedDuration (recommended_time_ms : value)
| FinishBefore (startTime : Z) (recommended_time_ms : value)
| Progress (elapsed : Z) (recommended_time_ms : value).

Inductive happening : Type :=
| WriteFile (template : value)
| Printed (n : notice)
| Prompt
| Engine (ev : event).

Record turn : Type := {
  char : value;
  now : Z;
  file : string + thrown
}.

(** How [run] ends, when it is not rejected: by [process.exit], or never,
    waiting for a key. *)
Inductive ending : Type :=
| Exited (code : Z)
| Waiting.

Section Run.
Context {sandbox : Sandbox}.

Record session : Type := {
  s_world : world;
  s_log : list happening;
  testResults : option report
}.

Definition record (h : happening) : M session unit :=
  fun s => (inl tt, {| s_world := s_world s;
                       s_log := s_log s ++ [h];
                       testResults := testResults s |}).

Definition say (n : notice) : M session unit := record (Printed n).

(** A function of the engine, run from here: what it does is added to the
    log. *)
Definition in_engine {A : Type} (m : M state A) : M session A :=
  fun s =>
    let (r, s') := m {| st_world := s_world s; st_trace := [] |} in
    (r, {| s_world := st_world s';
           s_log := s_log s ++ map Engine (st_trace s');
           testResults := testResults s |}).

(** [this.test(all)]: [Challenge.test] on what [fs.readFile] gave, and the
    report stored in [this.testResults]. *)
Definition test (c : challenge) (all : bool) (read : string + thrown)
  : M session unit :=
  content <- lift read ;;
  results <- in_engine (Challenge.test (data c) all content) ;;
  fun s => (inl tt, {| s_world := s_world s;
                       s_log := s_log s;
                       testResults := Some results |}).

Definition submit (c : challenge) (startTime : Z) (t : turn) : M session unit :=
  let endTime := now t in
  let elapsed := endTime - startTime in
  say (Say ("Submitting challenge after " ++ msToReadableDuration elapsed false
            ++ ".")) ;;;
  say (Say "") ;;;
  say (Say "Running tests...") ;;;
  test c true (file t).

Definition logRunningChallengeCommands : M session unit :=
  say (Say "  [space] to run available tests") ;;;
  say (Say "  [enter] to simulate submitting the challenge. This runs more tests and summarizes your scores") ;;;
  say (Say "  [t] to see time elapsed") ;;;
  say (Say "  [x] or [c] to exit").

(** [char === name] *)
Definition is_key (char : value) (name : string) : bool :=
  match char with
  | VStr s => String.eqb s name
  | _ => false
  end.

(** The [switch] on the key: [Some code] when the process exits. *)
Definition command (c : challenge) (startTime : Z) (t : turn)
  : M session (option Z) :=
  if is_key (char t) "space" then
    say (Say "[space]") ;;;
    say (Say ("Running tests after "
              ++ msToReadableDuration (now t - startTime) false)) ;;;
    say (Say "") ;;;
    test c false (file t) ;;;
    ret None
  else if is_key (char t) "return" then
    say (Say "[enter]") ;;;
    submit c startTime t ;;;
    ret (Some 0)
  else if is_key (char t) "t" then
    say (Say "t") ;;;
    let elapsed := now t - startTime in
    recommended_time_ms <- lift (Get (data c) "recommended_time_ms") ;;
    say (Progress elapsed recommended_time_ms) ;;;
    ret None
  else if is_key (char t) "x" || is_key (char t) "c" then
    say (Say (ToString (char t))) ;;;
    say (Say ("Exiting after "
              ++ msToReadableDuration (now t - startTime) false)) ;;;
    ret (Some 0)
  else
    say (Say (ToString (char t))) ;;;
    say (Say ("Unknown command " ++ dquote ++ ToString (char t) ++ dquote
              ++ ". Your options are:")) ;;;
    logRunningChallengeCommands ;;;
    ret None.

(** The loop [while (true)], over the turns to come.  [reader] is the
    outcome of [CharReader.get()] in [readChar]: at the first turn that of
    the constructor, which sets the raw mode of [process.stdin] and throws
    when it is not a terminal; afterwards the instance exists. *)
Fixpoint commands (c : challenge) (startTime : Z) (reader : unit + thrown)
  (turns : list turn) : M session ending :=
  match turns with
  | [] => record Prompt ;;; lift reader ;;; ret Waiting
  | t :: turns' =>
      record Prompt ;;;
      lift reader ;;;
      exit <- command c startTime t ;;
      match exit with
      | Some code => ret (Exited code)
      | None => commands c startTime (inl tt) turns'
      end
  end.

Definition run (c : challenge) (written : unit + thrown) (startTime : Z)
  (reader : unit + thrown) (turns : list turn) : M session ending :=
  template <- lift (Get (data c) "template") ;;
  record (WriteFile template) ;;;
  lift written ;;;
  say (StartedAt (cid c) startTime) ;;;
  say (Say "") ;;;
  say (Say "You can solve it by editing the file at") ;;;
  say ChallengePath ;;;
  say (Say "") ;;;
  say (Say "The recommended challenge duration is") ;;;
  recommended_time_ms <- lift (Get (data c) "recommended_time_ms") ;;
  say (RecommendedDuration recommended_time_ms) ;;;
  say (Say "so try to finish before") ;;;
  say (FinishBefore startTime recommended_time_ms) ;;;
  say (Say "") ;;;
  say (Say "You are allowed to write/run your own tests, referring to that file, or copy-paste the contents into another file") ;;;
  say (Say "for editing. Just remember to paste them back and save the file before submitting!") ;;;
  say (Say "") ;;;
  say (Say "On this terminal, you can now press:") ;;;
  logRunningChallengeCommands ;;;
  say (Say "") ;;;
  commands c startTime reader turns.
End Run.

End ChallengeRun.

(** ** Properties of the loop of commands *)

(** What the engine did, out of a log. *)
Definition engine_events (log : list ChallengeRun.happening) : list event :=
  flat_map (fun h => match h with
                     | ChallengeRun.Engine ev => [ev]
                     | _ => []
                     end) log.

(** The tests executed, in order. *)
Definition tests_run (log : list ChallengeRun.happening) : list string :=
  executed_tests (engine_events log).

(** How often the prompt was written. *)
Definition prompts (log : list ChallengeRun.happening) : nat :=
  List.length (filter (fun h => match h with
                                | ChallengeRun.Prompt => true
                                | _ => false
                                end) log).

Lemma engine_events_app (log log' : list ChallengeRun.happening) :
  engine_events (log ++ log') = (engine_events log ++ engine_events log')%list.
Proof. apply flat_map_app. Qed.

Lemma engine_events_Engine (evs : list event) :
  engine_events (map ChallengeRun.Engine evs) = evs.
Proof. induction evs as [|ev evs IH]; simpl; [reflexivity | now rewrite IH]. Qed.

Lemma tests_run_app (log log' : list ChallengeRun.happening) :
  tests_run (log ++ log') = (tests_run log ++ tests_run log')%list.
Proof. unfold tests_run. now rewrite engine_events_app, executed_tests_app. Qed.

Lemma prompts_app (log log' : list ChallengeRun.happening) :
  prompts (log ++ log') = (prompts log + prompts log')%nat.
Proof. unfold prompts. now rewrite filter_app, length_app. Qed.

Lemma prompts_Engine (evs : list event) :
  prompts (map ChallengeRun.Engine evs) = 0%nat.
Proof. induction evs as [|ev evs IH]; [reflexivity | exact IH]. Qed.

Section SessionFacts.
Context {sandbox : Sandbox}.

Import ChallengeRun.

(** The keys that end the process. *)
Definition exits (t : turn) : bool :=
  is_key (char t) "return" || is_key (char t) "x" || is_key (char t) "c".

(** The turns the loop gets to: all of them up to the first key that
    exits. *)
Fixpoint processed (turns : list turn) : list turn :=
  match turns with
  | [] => []
  | t :: turns' => t :: (if exits t then [] else processed turns')
  end.

Definition ending_of (turns : list turn) : ending :=
  if existsb exits turns then Exited 0 else Waiting.

(** The tests a key is to run. *)
Definition tests_of (c : challenge) (t : turn) : list string :=
  if is_key (char t) "space" then selected_tests false (field (data c) "tests")
  else if is_key (char t) "return" then
    selected_tests true (field (data c) "tests")
  else [].

(** The code a key has the sandbox run, [code] being the code for a test:
    for the visible tests on [space], for all the tests on Enter, on the
    content [challenge.js] has at that turn. *)
Definition calls_of (code : value -> string -> value -> string)
  (c : challenge) (t : turn) : list string :=
  match file t with
  | inl content =>
      if is_key (char t) "space" then
        map (fun case => code (data c) content (snd case))
          (selected_of false (field (data c) "tests"))
      else if is_key (char t) "return" then
        map (fun case => code (data c) content (snd case))
          (selected_of true (field (data c) "tests"))
      else []
  | inr _ => []
  end.

Definition evaluations_of : challenge -> turn -> list string :=
  calls_of test_code.

Definition benchmarks_of : challenge -> turn -> list string :=
  calls_of bench_code.

(** [m] returns [a], having run the tests [names] and written the prompt
    [n] times. *)
Definition runs {A : Type} (m : M session A) (a : A) (names : list string)
  (n : nat) : Prop :=
  forall s,
    exists s',
      m s = (inl a, s')
      /\ tests_run (s_log s') = (tests_run (s_log s) ++ names)%list
      /\ prompts (s_log s') = (prompts (s_log s) + n)%nat.

Lemma runs_ret {A : Type} (a : A) : runs (ret a) a [] 0.
Proof. intros s. exists s. rewrite app_nil_r. repeat split. lia. Qed.

Lemma runs_bind {A B : Type} (m : M session A) (k : A -> M session B)
  (a : A) (b : B) (names names' : list string) (n n' : nat) :
  runs m a names n -> runs (k a) b names' n' ->
  runs (bind m k) b (names ++ names') (n + n').
Proof.
  intros Hm Hk s. destruct (Hm s) as (s1 & Hrun & Htests & Hprompts).
  destruct (Hk s1) as (s2 & Hrun' & Htests' & Hprompts').
  exists s2. unfold bind. rewrite Hrun, Hrun', Htests', Htests, Hprompts', Hprompts.
  rewrite app_assoc. repeat split. lia.
Qed.

Lemma runs_then {A B : Type} (m : M session A) (k : A -> M session B)
  (a : A) (b : B) (names : list string) (n : nat) :
  runs m a [] 0 -> runs (k a) b names n -> runs (bind m k) b names n.
Proof. intros Hm Hk. exact (runs_bind m k a b [] names 0 n Hm Hk). Qed.

Lemma runs_say (n : notice) : runs (say n) tt [] 0.
Proof.
  intros s. eexists. split; [reflexivity|]. simpl.
  rewrite tests_run_app, prompts_app. simpl. repeat split.
Qed.

Lemma runs_record (h : happening) :
  engine_events [h] = [] -> prompts [h] = 0%nat -> runs (record h) tt [] 0.
Proof.
  intros Hengine Hprompt s. eexists. split; [reflexivity|]. simpl.
  rewrite tests_run_app, prompts_app, Hprompt. unfold tests_run at 2.
  rewrite Hengine. repeat split.
Qed.

Lemma runs_lift {A : Type} (x : A) : runs (lift (inl x)) x [] 0.
Proof. intros s. exists s. rewrite app_nil_r. repeat split. lia. Qed.

Lemma runs_prompt : runs (record Prompt) tt [] 1.
Proof.
  intros s. eexists. split; [reflexivity|]. simpl.
  rewrite tests_run_app, prompts_app. simpl. repeat split.
Qed.

Lemma runs_read {A : Type} (x : value) (k : value -> M session A) (a : A)
  (names : list string) (n : nat) :
  runs (k x) a names n -> runs (bind (lift (inl x)) k) a names n.
Proof. intros Hk s. exact (Hk s). Qed.

Lemma runs_logRunningChallengeCommands :
  runs logRunningChallengeCommands tt [] 0.
Proof.
  unfold logRunningChallengeCommands.
  repeat (eapply runs_then; [apply runs_say|]). apply runs_say.
Qed.

Variable c : challenge.
Hypothesis sandbox_printable : throws_printable sandbox.
Hypothesis data_defined : not_nullish (data c) = true.
Hypothesis tests_shaped : tests_ok (field (data c) "tests") = true.

Lemma runs_test (all : bool) (content : string) :
  runs (test c all (inl content)) tt
    (selected_tests all (field (data c) "tests")) 0.
Proof.
  intros s. unfold test, bind, lift, in_engine.
  destruct (test_report (data c) all content
              {| st_world := s_world s; st_trace := [] |}
              sandbox_printable data_defined tests_shaped)
    as (r & s' & Hrun & _ & _ & _ & Htrace & _).
  rewrite Hrun. eexists. split; [reflexivity|]. simpl.
  rewrite tests_run_app, prompts_app, prompts_Engine.
  unfold tests_run at 2. rewrite engine_events_Engine, Htrace.
  repeat split; lia.
Qed.

Lemma is_key_eq (char : value) (name : string) :
  is_key char name = true -> char = VStr name.
Proof.
  destruct char; simpl; try discriminate.
  intros H. apply String.eqb_eq in H. now subst.
Qed.

Lemma runs_command (startTime : Z) (t : turn) :
  (exists content, file t = inl content) ->
  runs (command c startTime t) (if exits t then Some 0 else None)
    (tests_of c t) 0.
Proof.
  intros [content Hfile]. unfold command, tests_of, exits.
  destruct (is_key (char t) "space") eqn:Hspace.
  - rewrite (is_key_eq _ _ Hspace). simpl. rewrite Hfile.
    repeat (eapply runs_then; [apply runs_say|]).
    rewrite <- (app_nil_r (selected_tests false (field (data c) "tests"))).
    apply (runs_bind _ _ tt None _ [] 0 0); [apply runs_test | apply runs_ret].
  - destruct (is_key (char t) "return") eqn:Hreturn.
    + simpl. unfold submit. rewrite Hfile.
      repeat (eapply runs_then; [apply runs_say|]).
      rewrite <- (app_nil_r (selected_tests true (field (data c) "tests"))).
      apply (runs_bind _ _ tt (Some 0) _ [] 0 0).
      * repeat (eapply runs_then; [apply runs_say|]). apply runs_test.
      * apply runs_ret.
    + destruct (is_key (char t) "t") eqn:Ht.
      * rewrite (is_key_eq _ _ Ht). simpl.
        rewrite (Get_not_nullish (data c) _ data_defined).
        eapply runs_then; [apply runs_say|]. apply runs_read.
        eapply runs_then; [apply runs_say|]. apply runs_ret.
      * simpl.
        destruct (is_key (char t) "x" || is_key (char t) "c").
        -- repeat (eapply runs_then; [apply runs_say|]). apply runs_ret.
        -- repeat (eapply runs_then; [apply runs_say|]).
           eapply runs_then; [apply runs_logRunningChallengeCommands|].
           apply runs_ret.
Qed.

Lemma runs_weaken {A : Type} (m : M session A) (a : A)
  (names names' : list string) (n n' : nat) :
  runs m a names n -> names = names' -> n = n' -> runs m a names' n'.
Proof. intros H <- <-. exact H. Qed.

Lemma runs_commands (startTime : Z) (turns : list turn) :
  Forall (fun t => exists content, file t = inl content) turns ->
  runs (commands c startTime (inl tt) turns) (ending_of turns)
    (flat_map (tests_of c) (processed turns))
    (List.length (processed turns) + (if existsb exits turns then 0 else 1)).
Proof.
  induction 1 as [|t turns Hfile _ IH].
  - eapply runs_weaken;
      [ eapply runs_bind;
        [ apply runs_prompt
        | eapply runs_then; [apply runs_lift | apply runs_ret] ]
      | reflexivity | reflexivity ].
  - pose proof (runs_command startTime t Hfile) as Hcmd.
    unfold ending_of in *. simpl. destruct (exits t) eqn:Hexit; simpl.
    + eapply runs_weaken;
        [ eapply runs_bind;
          [ apply runs_prompt
          | eapply runs_then;
            [ apply runs_lift
            | eapply runs_bind; [exact Hcmd | cbv beta iota; apply runs_ret] ] ]
        | reflexivity | reflexivity ].
    + eapply runs_weaken;
        [ eapply runs_bind;
          [ apply runs_prompt
          | eapply runs_then;
            [ apply runs_lift
            | eapply runs_bind; [exact Hcmd | cbv beta iota; exact IH] ] ]
        | reflexivity | simpl; lia ].
Qed.

Lemma runs_run (startTime : Z) (turns : list turn) :
  Forall (fun t => exists content, file t = inl content) turns ->
  runs (run c (inl tt) startTime (inl tt) turns) (ending_of turns)
    (flat_map (tests_of c) (processed turns))
    (List.length (processed turns) + (if existsb exits turns then 0 else 1)).
Proof.
  intros Hfiles. unfold run.
  rewrite !(Get_not_nullish (data c) _ data_defined).
  repeat first [ eapply runs_then; [apply runs_say|]
               | eapply runs_then; [apply runs_record; reflexivity|]
               | eapply runs_then; [apply runs_lift|]
               | eapply runs_then; [apply runs_logRunningChallengeCommands|] ].
  now apply runs_commands.
Qed.
End SessionFacts.

Section SessionCalls.
Context {sandbox : Sandbox}.

Import ChallengeRun.

(** [m] has the sandbox evaluate [codes], and benchmark code of [benches]
    only. *)
Definition calls {A : Type} (m : M session A) (codes benches : list string)
  : Prop :=
  forall s,
    evaluations (engine_events (s_log (snd (m s))))
    = (evaluations (engine_events (s_log s)) ++ codes)%list
    /\ exists bs,
         benchmarks (engine_events (s_log (snd (m s))))
         = (benchmarks (engine_events (s_log s)) ++ bs)%list
         /\ incl bs benches.

Lemma calls_nothing {A : Type} (m : M session A) :
  (forall s, engine_events (s_log (snd (m s))) = engine_events (s_log s)) ->
  calls m [] [].
Proof.
  intros Hm s. rewrite Hm, app_nil_r. split; [reflexivity|].
  exists []. rewrite app_nil_r. split; [reflexivity | apply incl_refl].
Qed.

Lemma calls_ret {A : Type} (a : A) : calls (ret a) [] [].
Proof. now apply calls_nothing. Qed.

Lemma calls_lift {A : Type} (r : A + thrown) : calls (lift r) [] [].
Proof. now apply calls_nothing. Qed.

Lemma calls_record (h : happening) :
  engine_events [h] = [] -> calls (record h) [] [].
Proof.
  intros Hh. apply calls_nothing. intros s. cbn [record snd s_log].
  now rewrite engine_events_app, Hh, app_nil_r.
Qed.

Lemma calls_say (n : notice) : calls (say n) [] [].
Proof. now apply calls_record. Qed.

Lemma calls_bind {A B : Type} (m : M session A) (k : A -> M session B)
  (a : A) (names : list string) (n : nat)
  (codes benches codes' benches' : list string) :
  runs m a names n -> calls m codes benches -> calls (k a) codes' benches' ->
  calls (bind m k) (codes ++ codes') (benches ++ benches').
Proof.
  intros Hruns Hm Hk s. destruct (Hruns s) as (s1 & Hrun & _).
  specialize (Hm s). rewrite Hrun in Hm. cbn [snd] in Hm.
  destruct Hm as (Hev & bs & Hbs & Hincl).
  destruct (Hk s1) as (Hev' & bs' & Hbs' & Hincl').
  unfold bind. rewrite Hrun. split.
  - now rewrite Hev', Hev, app_assoc.
  - exists (bs ++ bs')%list. rewrite Hbs', Hbs, app_assoc.
    split; [reflexivity|].
    apply incl_app; [now apply incl_appl | now apply incl_appr].
Qed.

Lemma calls_then {A B : Type} (m : M session A) (k : A -> M session B)
  (a : A) (names : list string) (n : nat) (codes benches : list string) :
  runs m a names n -> calls m [] [] -> calls (k a) codes benches ->
  calls (bind m k) codes benches.
Proof.
  intros Hruns Hm Hk.
  exact (calls_bind m k a names n [] [] codes benches Hruns Hm Hk).
Qed.

Lemma calls_weaken {A : Type} (m : M session A)
  (codes benches codes' benches' : list string) :
  calls m codes benches -> codes = codes' -> benches = benches' ->
  calls m codes' benches'.
Proof. intros H <- <-. exact H. Qed.

Lemma calls_logRunningChallengeCommands :
  calls logRunningChallengeCommands [] [].
Proof.
  unfold logRunningChallengeCommands.
  repeat (eapply calls_then; [apply runs_say | apply calls_say |]).
  apply calls_say.
Qed.

(** [m] is rejected with [e], having written the prompt [n] times and
    run no test. *)
Definition fails {A : Type} (m : M session A) (e : thrown) (n : nat) : Prop :=
  forall s,
    exists s',
      m s = (inr e, s')
      /\ prompts (s_log s') = (prompts (s_log s) + n)%nat
      /\ tests_run (s_log s') = tests_run (s_log s).

Lemma fails_lift {A : Type} (e : thrown) : fails (@lift session A (inr e)) e 0.
Proof. intros s. exists s. repeat split. cbn. lia. Qed.

Lemma fails_bind {A B : Type} (m : M session A) (k : A -> M session B)
  (e : thrown) (n : nat) :
  fails m e n -> fails (bind m k) e n.
Proof.
  intros Hm s. destruct (Hm s) as (s1 & Hrun & Hfacts).
  exists s1. unfold bind. now rewrite Hrun.
Qed.

Lemma fails_after {A B : Type} (m : M session A) (k : A -> M session B)
  (a : A) (e : thrown) (n n' : nat) :
  runs m a [] n -> fails (k a) e n' -> fails (bind m k) e (n + n').
Proof.
  intros Hm Hk s. destruct (Hm s) as (s1 & Hrun & Htests & Hprompts).
  destruct (Hk s1) as (s2 & Hrun' & Hprompts' & Htests').
  exists s2. unfold bind. rewrite Hrun, Hrun', Hprompts', Hprompts, Htests', Htests.
  rewrite app_nil_r. repeat split. lia.
Qed.

Lemma fails_then {A B : Type} (m : M session A) (k : A -> M session B)
  (a : A) (e : thrown) (n : nat) :
  runs m a [] 0 -> fails (k a) e n -> fails (bind m k) e n.
Proof. intros Hm Hk. exact (fails_after m k a e 0 n Hm Hk). Qed.

Variable c : challenge.
Hypothesis sandbox_printable : throws_printable sandbox.
Hypothesis data_defined : not_nullish (data c) = true.
Hypothesis tests_shaped : tests_ok (field (data c) "tests") = true.

Lemma calls_test (all : bool) (content : string) :
  calls (test c all (inl content))
    (map (fun case => test_code (data c) content (snd case))
       (selected_of all (field (data c) "tests")))
    (map (fun case => bench_code (data c) content (snd case))
       (selected_of all (field (data c) "tests"))).
Proof.
  intros s. unfold test, bind, lift, in_engine.
  destruct (test_calls (data c) all content
              {| st_world := s_world s; st_trace := [] |}
              sandbox_printable data_defined tests_shaped)
    as (Hev & bs & Hbs & Hincl).
  destruct (test_report (data c) all content
              {| st_world := s_world s; st_trace := [] |}
              sandbox_printable data_defined tests_shaped)
    as (r & s' & Hrun & _).
  rewrite Hrun in Hev, Hbs |- *. cbn [snd st_trace] in Hev, Hbs.
  cbn [snd s_log].
  rewrite engine_events_app, engine_events_Engine.
  rewrite evaluations_app, benchmarks_app, Hev, Hbs.
  split; [reflexivity|]. exists bs. split; [reflexivity | exact Hincl].
Qed.

Lemma runs_submit (startTime : Z) (t : turn) (content : string) :
  file t = inl content ->
  runs (submit c startTime t) tt
    (selected_tests true (field (data c) "tests")) 0.
Proof.
  intros Hfile. unfold submit. rewrite Hfile.
  repeat (eapply runs_then; [apply runs_say|]).
  now apply runs_test.
Qed.

Lemma calls_submit (startTime : Z) (t : turn) (content : string) :
  file t = inl content ->
  calls (submit c startTime t)
    (map (fun case => test_code (data c) content (snd case))
       (selected_of true (field (data c) "tests")))
    (map (fun case => bench_code (data c) content (snd case))
       (selected_of true (field (data c) "tests"))).
Proof.
  intros Hfile. unfold submit. rewrite Hfile.
  repeat (eapply calls_then; [apply runs_say | apply calls_say |]).
  apply calls_test.
Qed.

Lemma calls_command (startTime : Z) (t : turn) :
  (exists content, file t = inl content) ->
  calls (command c startTime t) (evaluations_of c t) (benchmarks_of c t).
Proof.
  intros [content Hfile].
  unfold command, evaluations_of, benchmarks_of, calls_of. rewrite Hfile.
  destruct (is_key (char t) "space") eqn:Hspace.
  - repeat (eapply calls_then; [apply runs_say | apply calls_say |]).
    eapply calls_weaken;
      [ eapply calls_bind;
        [ now apply runs_test | apply calls_test | apply calls_ret ]
      | apply app_nil_r | apply app_nil_r ].
  - destruct (is_key (char t) "return") eqn:Hreturn.
    + eapply calls_then; [apply runs_say | apply calls_say |].
      eapply calls_weaken;
        [ eapply calls_bind;
          [ exact (runs_submit startTime t content Hfile)
          | exact (calls_submit startTime t content Hfile)
          | apply calls_ret ]
        | apply app_nil_r | apply app_nil_r ].
    + destruct (is_key (char t) "t") eqn:Ht.
      * rewrite (Get_not_nullish (data c) _ data_defined).
        eapply calls_then; [apply runs_say | apply calls_say |].
        eapply calls_then; [apply runs_lift | apply calls_lift |].
        eapply calls_then; [apply runs_say | apply calls_say |].
        apply calls_ret.
      * destruct (is_key (char t) "x" || is_key (char t) "c").
        -- repeat (eapply calls_then; [apply runs_say | apply calls_say |]).
           apply calls_ret.
        -- repeat (eapply calls_then; [apply runs_say | apply calls_say |]).
           eapply calls_then;
             [ apply runs_logRunningChallengeCommands
             | apply calls_logRunningChallengeCommands |].
           apply calls_ret.
Qed.

Lemma calls_commands (startTime : Z) (turns : list turn) :
  Forall (fun t => exists content, file t = inl content) turns ->
  calls (commands c startTime (inl tt) turns)
    (flat_map (evaluations_of c) (processed turns))
    (flat_map (benchmarks_of c) (processed turns)).
Proof.
  induction 1 as [|t turns Hfile _ IH].
  - cbn [commands processed flat_map].
    eapply calls_then; [apply runs_prompt | now apply calls_record |].
    eapply calls_then; [apply runs_lift | apply calls_lift |].
    apply calls_ret.
  - pose proof (runs_command c sandbox_printable data_defined tests_shaped
                  startTime t Hfile) as Hruns.
    pose proof (calls_command startTime t Hfile) as Hcalls.
    cbn [commands processed flat_map].
    eapply calls_then; [apply runs_prompt | now apply calls_record |].
    eapply calls_then; [apply runs_lift | apply calls_lift |].
    destruct (exits t).
    + eapply calls_bind; [exact Hruns | exact Hcalls |].
      cbv beta iota. apply calls_ret.
    + eapply calls_bind; [exact Hruns | exact Hcalls |].
      cbv beta iota. exact IH.
Qed.

Lemma calls_run (startTime : Z) (turns : list turn) :
  Forall (fun t => exists content, file t = inl content) turns ->
  calls (run c (inl tt) startTime (inl tt) turns)
    (flat_map (evaluations_of c) (processed turns))
    (flat_map (benchmarks_of c) (processed turns)).
Proof.
  intros Hfiles. unfold run.
  rewrite !(Get_not_nullish (data c) _ data_defined).
  repeat first
    [ eapply calls_then; [apply runs_say | apply calls_say |]
    | eapply calls_then;
      [apply runs_record; reflexivity | apply calls_record; reflexivity |]
    | eapply calls_then; [apply runs_lift | apply calls_lift |]
    | eapply calls_then;
      [ apply runs_logRunningChallengeCommands
      | apply calls_logRunningChallengeCommands |] ].
  now apply calls_commands.
Qed.

Lemma fails_commands (startTime : Z) (turns : list turn) (e : thrown) :
  fails (commands c startTime (inr e) turns) e 1.
Proof.
  destruct turns as [|t turns]; cbn [commands];
    (eapply (fails_after _ _ tt e 1 0); [apply runs_prompt|]);
    apply fails_bind, fails_lift.
Qed.

Lemma fails_run (startTime : Z) (turns : list turn) (e : thrown) :
  fails (run c (inl tt) startTime (inr e) turns) e 1.
Proof.
  unfold run.
  rewrite !(Get_not_nullish (data c) _ data_defined).
  repeat first
    [ eapply fails_then; [apply runs_say|]
    | eapply fails_then; [apply runs_record; reflexivity|]
    | eapply fails_then; [apply runs_lift|]
    | eapply fails_then; [apply runs_logRunningChallengeCommands|] ].
  apply fails_commands.
Qed.
End SessionCalls.

Section SessionClaims.
Context {sandbox : Sandbox}.

Import ChallengeRun.

(** The keys that ask for the hidden tests too. *)
Definition submits (t : turn) : bool := is_key (char t) "return".

Lemma truthy_not_nullish (v : value) : ToBoolean v = true -> not_nullish v = true.
Proof. destruct v; simpl; intros H; try discriminate; reflexivity. Qed.

(** A challenge that was constructed has data, found under its [cid]. *)
Lemma constructor_data (challenges : value) (id : string) (c : challenge) :
  constructor challenges id = Some (inl c) ->
  Get challenges id = inl (data c) /\ cid c = id /\ not_nullish (data c) = true.
Proof.
  unfold constructor. destruct (own_read challenges id); [|discriminate].
  destruct (Get challenges id) as [d | e]; [|discriminate].
  destruct (ToBoolean d) eqn:Hd; simpl; [|discriminate].
  intros H. inversion H; subst. simpl.
  repeat split. now apply truthy_not_nullish.
Qed.

(** The challenges that are constructed: those whose [cid] is read from
    [challenges] with a truthy value, which is then an own property. *)
Lemma constructor_succeeds (challenges : value) (id : string) (c : challenge) :
  constructor challenges id = Some (inl c)
  <-> Get challenges id = inl (data c)
      /\ ToBoolean (data c) = true
      /\ cid c = id.
Proof.
  unfold constructor. split.
  - destruct (own_read challenges id); [|discriminate].
    destruct (Get challenges id) as [d | e]; [|discriminate].
    destruct (ToBoolean d) eqn:Hd; simpl; [|discriminate].
    intros H. inversion H; subst. simpl. repeat split. exact Hd.
  - intros (Hget & Htruthy & Hid).
    assert (Hown : own_read challenges id = true).
    { destruct challenges as [| |b|x|text|items|props];
        cbn [Get own_read] in *; try reflexivity.
      - inversion Hget as [Hd]. rewrite <- Hd in Htruthy. discriminate.
      - inversion Hget as [Hd]. rewrite <- Hd in Htruthy. discriminate.
      - destruct (nth_keyed 0 id (list_ascii_of_string text)); [reflexivity|].
        inversion Hget as [Hd]. rewrite <- Hd in Htruthy. discriminate.
      - destruct (nth_keyed 0 id items); [reflexivity|].
        inversion Hget as [Hd]. rewrite <- Hd in Htruthy. discriminate.
      - destruct (assoc id props); [reflexivity|].
        inversion Hget as [Hd]. rewrite <- Hd in Htruthy. discriminate. }
    rewrite Hown, Hget, Htruthy. cbn [negb].
    destruct c as [i d]. cbn in Hid. now subst.
Qed.

(** Without a key that submits, the tests the keys ask for are visible
    ones. *)
Lemma tests_of_visible (c : challenge) (turns : list turn) :
  existsb submits turns = false ->
  forall name,
    In name (flat_map (tests_of c) (processed turns)) ->
    In name (selected_tests false (field (data c) "tests")).
Proof.
  induction turns as [|t turns IH]; simpl; intros Hnone name Hin;
    [contradiction|].
  apply orb_false_iff in Hnone as [Ht Hturns].
  apply in_app_or in Hin as [Hin | Hin].
  - unfold tests_of in Hin. unfold submits in Ht. rewrite Ht in Hin.
    destruct (is_key (char t) "space"); [assumption | contradiction].
  - destruct (exits t); [contradiction | now apply IH].
Qed.

(** Without a key that submits, the code the keys have evaluated is that
    of visible tests, on the content of the file at one of the turns. *)
Lemma evaluations_of_visible (c : challenge) (turns : list turn) :
  existsb submits turns = false ->
  forall code,
    In code (flat_map (evaluations_of c) (processed turns)) ->
    exists t content case,
      In t turns
      /\ file t = inl content
      /\ In case (selected_of false (field (data c) "tests"))
      /\ code = test_code (data c) content (snd case).
Proof.
  induction turns as [|t turns IH]; simpl; intros Hnone code Hin;
    [contradiction|].
  apply orb_false_iff in Hnone as [Ht Hturns].
  apply in_app_or in Hin as [Hin | Hin].
  - unfold evaluations_of, calls_of in Hin. unfold submits in Ht.
    rewrite Ht in Hin.
    destruct (file t) as [content | e] eqn:Hfile; [|contradiction].
    destruct (is_key (char t) "space"); [|contradiction].
    apply in_map_iff in Hin as (case & <- & Hcase).
    exists t, content, case.
    split; [now left|]. split; [exact Hfile|]. split; [exact Hcase | reflexivity].
  - destruct (exits t); [contradiction|].
    destruct (IH Hturns code Hin) as (t' & content & case & Hin' & Hrest).
    exists t', content, case. split; [now right | exact Hrest].
Qed.

(** X12: a challenge that was constructed and is run on a terminal, where
    the keypress reader is built, leaves [run] only by [process.exit(0)],
    on the first of the keys Enter, [x] and [c]: the prompt is written once
    for each key up to that one, and the keys after it are never asked
    for; as long as none of these keys comes, [run] writes the prompt once
    more and waits.  This is for a challenge of the data model's shape,
    reads of [challenge.js] that succeed and a sandbox that throws
    printable values.  When [process.stdin] is not a terminal, so that
    building the reader throws, [run] is rejected with what was thrown
    after it has written the prompt once, and no test is run. *)
Theorem run_is_left_by_an_exit_key (challenges : value) (id : string)
  (c : challenge) (startTime : Z) (turns : list turn) (s : session) :
  throws_printable sandbox ->
  constructor challenges id = Some (inl c) ->
  tests_ok (field (data c) "tests") = true ->
  Forall (fun t => exists content, file t = inl content) turns ->
  (exists s',
     run c (inl tt) startTime (inl tt) turns s
     = (inl (if existsb exits turns then Exited 0 else Waiting), s')
     /\ prompts (s_log s')
        = (prompts (s_log s) + List.length (processed turns)
           + (if existsb exits turns then 0 else 1))%nat)
  /\ (forall e,
        exists s',
          run c (inl tt) startTime (inr e) turns s = (inr e, s')
          /\ prompts (s_log s') = (prompts (s_log s) + 1)%nat
          /\ tests_run (s_log s') = tests_run (s_log s)).
Proof.
  intros Hsandbox Hc Htests Hfiles.
  destruct (constructor_data _ _ _ Hc) as (_ & _ & Hdata). split.
  - destruct (runs_run c Hsandbox Hdata Htests startTime turns Hfiles s)
      as (s' & Hrun & _ & Hprompts).
    exists s'. split; [exact Hrun|]. rewrite Hprompts. lia.
  - intros e. exact (fails_run c Hdata startTime turns e s).
Qed.

(** X13: in such a run on a terminal, for a challenge whose suites and
    tests have plain names (not integer-like, not [__proto__]), the code
    the sandbox evaluates is, key after key up to the one that exits: for
    [space] that of the visible tests, for Enter that of all the tests,
    each test once and in declared order on the content [challenge.js] has
    at that key, and nothing for any other key; the benchmarks are of these
    tests only.  So as long as Enter is not pressed, what is evaluated is
    the code of visible tests. *)
Theorem keys_run_the_tests (challenges : value) (id : string)
  (c : challenge) (startTime : Z) (turns : list turn) (s : session) :
  throws_printable sandbox ->
  constructor challenges id = Some (inl c) ->
  tests_ok (field (data c) "tests") = true ->
  names_ok (field (data c) "tests") = true ->
  Forall (fun t => exists content, file t = inl content) turns ->
  exists e s',
    run c (inl tt) startTime (inl tt) turns s = (inl e, s')
    /\ evaluations (engine_events (s_log s'))
       = (evaluations (engine_events (s_log s))
          ++ flat_map (evaluations_of c) (processed turns))%list
    /\ (exists bs,
          benchmarks (engine_events (s_log s'))
          = (benchmarks (engine_events (s_log s)) ++ bs)%list
          /\ incl bs (flat_map (benchmarks_of c) (processed turns)))
    /\ tests_run (s_log s')
       = (tests_run (s_log s) ++ flat_map (tests_of c) (processed turns))%list
    /\ (existsb submits turns = false ->
        forall code,
          In code (evaluations (engine_events (s_log s'))) ->
          In code (evaluations (engine_events (s_log s)))
          \/ exists t content case,
               In t turns
               /\ file t = inl content
               /\ In case (selected_of false (field (data c) "tests"))
               /\ code = test_code (data c) content (snd case)).
Proof.
  intros Hsandbox Hc Htests _ Hfiles.
  destruct (constructor_data _ _ _ Hc) as (_ & _ & Hdata).
  destruct (runs_run c Hsandbox Hdata Htests startTime turns Hfiles s)
    as (s' & Hrun & Hnames & _).
  destruct (calls_run c Hsandbox Hdata Htests startTime turns Hfiles s)
    as (Hev & Hbs).
  rewrite Hrun in Hev, Hbs. cbn [snd] in Hev, Hbs.
  exists (ending_of turns), s'. split; [exact Hrun|].
  split; [exact Hev|]. split; [exact Hbs|]. split; [exact Hnames|].
  intros Hnone code Hin. rewrite Hev in Hin.
  apply in_app_or in Hin as [Hin | Hin]; [now left | right].
  now apply (evaluations_of_visible c turns Hnone).
Qed.
End SessionClaims.

(** A session on the challenge [add]: an unknown key, the tests twice, the
    time, and [x]; the key after [x] is not read. *)
Definition add_session : list ChallengeRun.turn :=
  [ {| ChallengeRun.char := VStr "h"; ChallengeRun.now := 1000;
       ChallengeRun.file := inl solution |};
    {| ChallengeRun.char := VStr "space"; ChallengeRun.now := 61000;
       ChallengeRun.file := inl solution |};
    {| ChallengeRun.char := VStr "t"; ChallengeRun.now := 62000;
       ChallengeRun.file := inl solution |};
    {| ChallengeRun.char := VStr "space"; ChallengeRun.now := 125000;
       ChallengeRun.file := inl solution |};
    {| ChallengeRun.char := VStr "x"; ChallengeRun.now := 126000;
       ChallengeRun.file := inl solution |};
    {| ChallengeRun.char := VStr "return"; ChallengeRun.now := 127000;
       ChallengeRun.file := inl solution |} ].

Definition add_session_start : @ChallengeRun.session scripted :=
  {| ChallengeRun.s_world :=
       script [inl (VNum 5%float); inl (VNum 1000001%float);
               inl (VNum 5%float); inl (VNum 1000001%float)]
              [inl 0.0001%float; inl 0.0001%float];
     ChallengeRun.s_log := [];
     ChallengeRun.testResults := None |}.

Lemma add_session_files :
  Forall (fun t => exists content, ChallengeRun.file t = inl content) add_session.
Proof. repeat constructor; eexists; reflexivity. Qed.

Lemma run_is_left_by_an_exit_key_witness :
  throws_printable scripted
  /\ ChallengeRun.constructor (VObj [("add", add_challenge)]) "add"
     = Some (inl {| ChallengeRun.cid := "add"; ChallengeRun.data := add_challenge |})
  /\ tests_ok (field add_challenge "tests") = true
  /\ (exists s',
        ChallengeRun.run
          {| ChallengeRun.cid := "add"; ChallengeRun.data := add_challenge |}
          (inl tt) 0 (inl tt) add_session add_session_start
        = (inl (ChallengeRun.Exited 0), s')
        /\ prompts (ChallengeRun.s_log s') = 5%nat)
  /\ (forall e,
        exists s',
          ChallengeRun.run
            {| ChallengeRun.cid := "add"; ChallengeRun.data := add_challenge |}
            (inl tt) 0 (inr e) add_session add_session_start
          = (inr e, s')
          /\ prompts (ChallengeRun.s_log s') = 1%nat
          /\ tests_run (ChallengeRun.s_log s') = tests_run []).
Proof.
  split; [exact scripted_throws_printable|].
  split; [reflexivity|]. split; [reflexivity|].
  apply (@run_is_left_by_an_exit_key scripted
           (VObj [("add", add_challenge)]) "add"
           {| ChallengeRun.cid := "add"; ChallengeRun.data := add_challenge |}
           0 add_session add_session_start);
    [ exact scripted_throws_printable | reflexivity | reflexivity
    | exact add_session_files ].
Defined.

Lemma keys_run_the_tests_witness :
  throws_printable scripted
  /\ tests_ok (field add_challenge "tests") = true
  /\ names_ok (field add_challenge "tests") = true
  /\ existsb submits (firstn 4 add_session) = false
  /\ exists e s',
      ChallengeRun.run
        {| ChallengeRun.cid := "add"; ChallengeRun.data := add_challenge |}
        (inl tt) 0 (inl tt) (firstn 4 add_session) add_session_start
      = (inl e, s')
      /\ evaluations (engine_events (ChallengeRun.s_log s'))
         = (evaluations (engine_events [])
            ++ flat_map
                 (evaluations_of
                    {| ChallengeRun.cid := "add"; ChallengeRun.data := add_challenge |})
                 (processed (firstn 4 add_session)))%list
      /\ (exists bs,
            benchmarks (engine_events (ChallengeRun.s_log s'))
            = (benchmarks (engine_events []) ++ bs)%list
            /\ incl bs
                 (flat_map
                    (benchmarks_of
                       {| ChallengeRun.cid := "add";
                          ChallengeRun.data := add_challenge |})
                    (processed (firstn 4 add_session))))
      /\ tests_run (ChallengeRun.s_log s')
         = (tests_run []
            ++ flat_map
                 (tests_of
                    {| ChallengeRun.cid := "add"; ChallengeRun.data := add_challenge |})
                 (processed (firstn 4 add_session)))%list
      /\ (existsb submits (firstn 4 add_session) = false ->
          forall code,
            In code (evaluations (engine_events (ChallengeRun.s_log s'))) ->
            In code (evaluations (engine_events []))
            \/ exists t content case,
                 In t (firstn 4 add_session)
                 /\ ChallengeRun.file t = inl content
                 /\ In case (selected_of false (field add_challenge "tests"))
                 /\ code = test_code add_challenge content (snd case)).
Proof.
  split; [exact scripted_throws_printable|].
  split; [reflexivity|]. split; [reflexivity|]. split; [reflexivity|].
  apply (@keys_run_the_tests scripted
           (VObj [("add", add_challenge)]) "add"
           {| ChallengeRun.cid := "add"; ChallengeRun.data := add_challenge |}
           0 (firstn 4 add_session) add_session_start);
    [ exact scripted_throws_printable | reflexivity | reflexivity | reflexivity
    | repeat constructor; eexists; reflexivity ].
Defined.

(** In the session above the visible tests [sum] and [large] are run
    twice, and the process exits on [x]. *)
Example add_session_run :
  exists s',
    @ChallengeRun.run scripted
      {| ChallengeRun.cid := "add"; ChallengeRun.data := add_challenge |}
      (inl tt) 0 (inl tt) add_session add_session_start
    = (inl (ChallengeRun.Exited 0), s')
    /\ tests_run (ChallengeRun.s_log s') = ["sum"; "large"; "sum"; "large"]
    /\ last (ChallengeRun.s_log s') ChallengeRun.Prompt
       = ChallengeRun.Printed (ChallengeRun.Say "Exiting after 2min 6s").
Proof. eexists. vm_compute. repeat split. Qed.

Section SessionErrors.
Context {sandbox : Sandbox}.

Import ChallengeRun.

(** [m] is rejected with [e], having run the tests [names]. *)
Definition rejects {A : Type} (m : M session A) (e : thrown)
  (names : list string) : Prop :=
  forall s,
    exists s',
      m s = (inr e, s')
      /\ tests_run (s_log s') = (tests_run (s_log s) ++ names)%list.

Lemma rejects_after {A B : Type} (m : M session A) (k : A -> M session B)
  (a : A) (e : thrown) (names names' : list string) (n : nat) :
  runs m a names n -> rejects (k a) e names' ->
  rejects (bind m k) e (names ++ names').
Proof.
  intros Hm Hk s. destruct (Hm s) as (s1 & Hrun & Htests & _).
  destruct (Hk s1) as (s2 & Hrun' & Htests').
  exists s2. unfold bind. rewrite Hrun, Hrun', Htests', Htests.
  now rewrite app_assoc.
Qed.

Lemma rejects_then {A B : Type} (m : M session A) (k : A -> M session B)
  (a : A) (e : thrown) (names : list string) (n : nat) :
  runs m a [] n -> rejects (k a) e names -> rejects (bind m k) e names.
Proof. intros Hm Hk. exact (rejects_after m k a e [] names n Hm Hk). Qed.

Lemma rejects_bind {A B : Type} (m : M session A) (k : A -> M session B)
  (e : thrown) (names : list string) :
  rejects m e names -> rejects (bind m k) e names.
Proof.
  intros Hm s. destruct (Hm s) as (s1 & Hrun & Htests).
  exists s1. unfold bind. now rewrite Hrun.
Qed.

Lemma rejects_test (c : challenge) (all : bool) (e : thrown) :
  rejects (test c all (inr e)) e [].
Proof. intros s. exists s. rewrite app_nil_r. split; reflexivity. Qed.

Lemma rejects_command (c : challenge) (startTime : Z) (t : turn) (e : thrown) :
  is_key (char t) "space" = true \/ is_key (char t) "return" = true ->
  file t = inr e ->
  rejects (command c startTime t) e [].
Proof.
  intros Hkey Hfile. unfold command.
  destruct (is_key (char t) "space") eqn:Hspace.
  - rewrite Hfile.
    repeat (eapply rejects_then; [apply runs_say|]).
    apply rejects_bind, rejects_test.
  - destruct Hkey as [Hkey | Hkey]; [discriminate|]. rewrite Hkey.
    unfold submit. rewrite Hfile.
    eapply rejects_then; [apply runs_say|].
    apply rejects_bind.
    repeat (eapply rejects_then; [apply runs_say|]).
    apply rejects_test.
Qed.

Variable c : challenge.
Hypothesis sandbox_printable : throws_printable sandbox.
Hypothesis data_defined : not_nullish (data c) = true.
Hypothesis tests_shaped : tests_ok (field (data c) "tests") = true.

Lemma rejects_commands (startTime : Z) (t : turn) (rest : list turn)
  (e : thrown) :
  is_key (char t) "space" = true \/ is_key (char t) "return" = true ->
  file t = inr e ->
  forall before,
    Forall (fun t => exists content, file t = inl content) before ->
    existsb exits before = false ->
    rejects (commands c startTime (inl tt) (before ++ t :: rest)) e
      (flat_map (tests_of c) before).
Proof.
  intros Hkey Hfile. induction 1 as [|t0 before Hfile0 _ IH]; intros Hnone.
  - change (rejects (record Prompt ;;;
                     lift (inl tt) ;;;
                     exit <- command c startTime t ;;
                     match exit with
                     | Some code => ret (Exited code)
                     | None => commands c startTime (inl tt) rest
                     end) e []).
    eapply rejects_then; [apply runs_prompt|].
    eapply rejects_then; [apply runs_lift|].
    apply rejects_bind. now apply rejects_command.
  - cbn [existsb] in Hnone. apply orb_false_iff in Hnone as [Ht0 Hbefore].
    pose proof (runs_command c sandbox_printable data_defined tests_shaped
                  startTime t0 Hfile0) as Hcmd.
    rewrite Ht0 in Hcmd.
    change (rejects (record Prompt ;;;
                     lift (inl tt) ;;;
                     exit <- command c startTime t0 ;;
                     match exit with
                     | Some code => ret (Exited code)
                     | None => commands c startTime (inl tt) (before ++ t :: rest)
                     end) e
              (tests_of c t0 ++ flat_map (tests_of c) before)).
    eapply rejects_then; [apply runs_prompt|].
    eapply rejects_then; [apply runs_lift|].
    eapply rejects_after; [exact Hcmd|].
    cbv beta iota. exact (IH Hbefore).
Qed.

Lemma rejects_run (startTime : Z) (t : turn) (before rest : list turn)
  (e : thrown) :
  is_key (char t) "space" = true \/ is_key (char t) "return" = true ->
  file t = inr e ->
  Forall (fun t => exists content, file t = inl content) before ->
  existsb exits before = false ->
  rejects (run c (inl tt) startTime (inl tt) (before ++ t :: rest)) e
    (flat_map (tests_of c) before).
Proof.
  intros Hkey Hfile Hfiles Hnone. unfold run.
  rewrite !(Get_not_nullish (data c) _ data_defined).
  repeat first [ eapply rejects_then; [apply runs_say|]
               | eapply rejects_then; [apply runs_record; reflexivity|]
               | eapply rejects_then; [apply runs_lift|]
               | eapply rejects_then; [apply runs_logRunningChallengeCommands|] ].
  now apply rejects_commands.
Qed.
End SessionErrors.

Section SessionErrorClaims.
Context {sandbox : Sandbox}.

Import ChallengeRun.

(** X14: when [challenge.js] cannot be read as [space] or Enter asks for
    the tests, [run] is rejected with the error of the read: it is not
    caught, no test is executed for that key, the process does not exit,
    and the later keys are not read.  This is for a run on a terminal,
    where the keypress reader is built. *)
Theorem unreadable_file_rejects_run (challenges : value) (id : string)
  (c : challenge) (startTime : Z) (before rest : list turn) (t : turn)
  (e : thrown) (s : session) :
  throws_printable sandbox ->
  constructor challenges id = Some (inl c) ->
  tests_ok (field (data c) "tests") = true ->
  Forall (fun t => exists content, file t = inl content) before ->
  existsb exits before = false ->
  is_key (char t) "space" = true \/ is_key (char t) "return" = true ->
  file t = inr e ->
  exists s',
    run c (inl tt) startTime (inl tt) (before ++ t :: rest) s = (inr e, s')
    /\ tests_run (s_log s')
       = (tests_run (s_log s) ++ flat_map (tests_of c) before)%list.
Proof.
  intros Hsandbox Hc Htests Hfiles Hnone Hkey Hfile.
  destruct (constructor_data _ _ _ Hc) as (_ & _ & Hdata).
  exact (rejects_run c Hsandbox Hdata Htests startTime t before rest e
           Hkey Hfile Hfiles Hnone s).
Qed.
End SessionErrorClaims.

Lemma unreadable_file_rejects_run_witness :
  exists s',
    ChallengeRun.run
      {| ChallengeRun.cid := "add"; ChallengeRun.data := add_challenge |}
      (inl tt) 0 (inl tt)
      (firstn 3 add_session
       ++ {| ChallengeRun.char := VStr "space"; ChallengeRun.now := 125000;
             ChallengeRun.file :=
               inr (Exception "Error" "ENOENT: no such file or directory, open './challenge.js'") |}
          :: skipn 4 add_session)
      add_session_start
    = (inr (Exception "Error" "ENOENT: no such file or directory, open './challenge.js'"),
       s')
    /\ tests_run (ChallengeRun.s_log s')
       = (tests_run []
          ++ flat_map
               (tests_of
                  {| ChallengeRun.cid := "add"; ChallengeRun.data := add_challenge |})
               (firstn 3 add_session))%list.
Proof.
  apply (@unreadable_file_rejects_run scripted
           (VObj [("add", add_challenge)]) "add"
           {| ChallengeRun.cid := "add"; ChallengeRun.data := add_challenge |}
           0 (firstn 3 add_session) (skipn 4 add_session)
           {| ChallengeRun.char := VStr "space"; ChallengeRun.now := 125000;
              ChallengeRun.file :=
                inr (Exception "Error" "ENOENT: no such file or directory, open './challenge.js'") |}
           (Exception "Error" "ENOENT: no such file or directory, open './challenge.js'")
           add_session_start);
    [ exact scripted_throws_printable | reflexivity | reflexivity
    | repeat constructor; eexists; reflexivity | reflexivity
    | left; reflexivity | reflexivity ].
Defined.

(* ================================================================== *)
(** * Part VI: more on the comparator, the validator and the report    *)
(* ================================================================== *)

(** ** Expected values that are missing or are mappings *)

(** Every character of the string satisfies [p]. *)
Fixpoint string_forall (p : ascii -> bool) (s : string) : bool :=
  match s with
  | EmptyString => true
  | String c s' => p c && string_forall p s'
  end.

Lemma string_forall_app (p : ascii -> bool) (a b : string) :
  string_forall p (a ++ b) = string_forall p a && string_forall p b.
Proof.
  induction a as [|c a IH]; simpl; [reflexivity|].
  now rewrite IH, andb_assoc.
Qed.

Lemma string_forall_substring (p : ascii -> bool) (s : string) :
  string_forall p s = true ->
  forall n m, string_forall p (substring n m s) = true.
Proof.
  induction s as [|c s IH]; intros Hs n m.
  - now destruct n, m.
  - simpl in Hs. apply andb_true_iff in Hs as [Hc Hs].
    destruct n as [|n]; [destruct m as [|m]|]; simpl; auto.
    now rewrite Hc, IH.
Qed.

(** The characters of the decimal representation of a number. *)
Definition number_char (c : ascii) : bool :=
  negb (string_forall (fun d => negb (Ascii.eqb c d)) "0123456789-+.eNaInfity").

Lemma string_of_uint_chars (u : Decimal.uint) :
  string_forall number_char (NilEmpty.string_of_uint u) = true.
Proof. induction u; simpl; auto. Qed.

Lemma Z_to_string_chars (z : Z) : string_forall number_char (Z_to_string z) = true.
Proof.
  unfold Z_to_string. destruct (Z.to_int z); simpl;
    auto using string_of_uint_chars.
Qed.

Lemma zeros_chars (n : nat) : string_forall number_char (zeros n) = true.
Proof. induction n; simpl; auto. Qed.

Lemma layout_chars (d : shortest) : string_forall number_char (layout d) = true.
Proof.
  pose proof (Z_to_string_chars (sh_s d)) as Hds.
  unfold layout, substring_from.
  repeat match goal with
         | |- context [if ?b then _ else _] => destruct b
         end;
    repeat (rewrite string_forall_app; apply andb_true_intro; split);
    first [ apply Z_to_string_chars
          | apply zeros_chars
          | apply string_forall_substring; exact Hds
          | reflexivity ].
Qed.

Lemma Number_toString_chars (x : number) :
  string_forall number_char (Number_toString x) = true.
Proof.
  unfold Number_toString.
  destruct (Prim2SF x) as [[|] | [|] | | [|] m e]; try reflexivity;
    rewrite string_forall_app, layout_chars; reflexivity.
Qed.

(** The first character of a string, if it has one, is not [c]. *)
Definition not_headed (c : ascii) (s : string) : bool :=
  match s with
  | EmptyString => true
  | String c' _ => negb (Ascii.eqb c' c)
  end.

Lemma string_forall_head (p : ascii -> bool) (c : ascii) (s : string) :
  string_forall p s = true -> p c = false -> not_headed c s = true.
Proof.
  destruct s as [|c' s]; simpl; intros Hs Hc; [reflexivity|].
  apply andb_true_iff in Hs as [Hc' _].
  destruct (Ascii.eqb_spec c' c) as [-> | _]; [congruence | reflexivity].
Qed.

(** The text of [JSON.stringify], when there is one, does not start with
    the letter o. *)
Lemma JSON_stringify_head (v : value) (s : string) :
  JSON_stringify v = Some s -> not_headed "o" s = true.
Proof.
  destruct v as [| | [|] | x | t | items | props]; simpl; intros H;
    inversion H; subst; try reflexivity.
  destruct (is_finite x); [|reflexivity].
  apply (string_forall_head number_char);
    [apply Number_toString_chars | reflexivity].
Qed.

Lemma bracketed_not_object (e : string) (l : list string) :
  not_headed "o" e = true ->
  String.eqb ("[" ++ join_comma (e :: l) ++ "]") "[object Object]" = false.
Proof.
  intros Hhead. destruct e as [|c e].
  - destruct l; reflexivity.
  - assert (Hsplit : join_comma (String c e :: l)
                     = String c (join_comma (e :: l)))
      by (destruct l; reflexivity).
    rewrite Hsplit. cbn [append String.eqb]. simpl in Hhead.
    apply negb_true_iff in Hhead. now rewrite Hhead.
Qed.

Lemma JSON_stringify_not_object (v : value) (s : string) :
  JSON_stringify v = Some s -> String.eqb s "[object Object]" = false.
Proof.
  destruct v as [| | [|] | x | t | items | props]; intros H;
    try discriminate; try (inversion H; subst; reflexivity).
  - simpl in H. destruct (is_finite x); inversion H; subst; [|reflexivity].
    apply String.eqb_neq. intros Heq.
    pose proof (Number_toString_chars x) as Hchars.
    rewrite Heq in Hchars. discriminate.
  - destruct items as [|item items].
    + inversion H; subst. reflexivity.
    + cbn [JSON_stringify] in H. inversion H; subst. clear H.
      apply bracketed_not_object.
      destruct (JSON_stringify item) as [s|] eqn:Hitem; [|reflexivity].
      exact (JSON_stringify_head item s Hitem).
Qed.

Lemma JSON_stringify_undefined (v : value) :
  JSON_stringify v = None <-> v = VUndefined.
Proof. destruct v; simpl; split; intros H; congruence. Qed.

Section ComparatorEdges.

(** X15: against an expected value that is missing ([undefined], a test
    case that lacks [res]) or [null], the comparator passes exactly the
    values whose [JSON.stringify] is [undefined]: of the values of this
    model, [undefined] alone, whatever [delta] is. *)
Theorem missing_res_passes_undefined_only (v res delta : value) :
  not_nullish res = false ->
  comparator v res delta = true <-> v = VUndefined.
Proof.
  intros Hres. rewrite <- JSON_stringify_undefined. unfold comparator.
  assert (Htype : String.eqb (typeof res) "number" = false)
    by (destruct res; try discriminate; reflexivity).
  rewrite Htype. cbn [andb].
  destruct res; try discriminate;
    destruct (JSON_stringify v); cbn [IsLooselyEqual]; split;
    intros H; try reflexivity; discriminate.
Qed.

(** X16: an expected value that is a mapping (a plain object) is never
    matched: whatever the solution returns and whatever [delta] is, the
    comparator fails, because [==] compares the text of [JSON.stringify]
    with "[object Object]" and the tolerance is for numbers only. *)
Theorem mapping_as_res_never_passes (v : value) (props : list (string * value))
  (delta : value) :
  comparator v (VObj props) delta = false.
Proof.
  unfold comparator.
  assert (Htype : String.eqb (typeof (VObj props)) "number" = false)
    by reflexivity.
  rewrite Htype. cbn [andb].
  destruct (JSON_stringify v) as [s|] eqn:Hs; cbn [IsLooselyEqual];
    [|reflexivity].
  change (ToString (VObj props)) with "[object Object]".
  now rewrite (JSON_stringify_not_object v s Hs).
Qed.
End ComparatorEdges.

Lemma missing_res_passes_undefined_only_witness :
  comparator VUndefined (field (VObj [("args", VStr "1")]) "res") (VNum 1%float)
  = true
  <-> VUndefined = VUndefined.
Proof.
  apply (missing_res_passes_undefined_only VUndefined
           (field (VObj [("args", VStr "1")]) "res") (VNum 1%float)).
  reflexivity.
Defined.

(** A solution that returns [{a: 1}] against the mapping [{a: 1}] and
    against its text. *)
Example mapping_against_its_text :
  comparator (VObj [("a", VNum 1%float)]) (VObj [("a", VNum 1%float)]) VUndefined
  = false
  /\ comparator (VObj [("a", VNum 1%float)])
       (VStr ("{" ++ dquote ++ "a" ++ dquote ++ ":1}")) VUndefined
     = true.
Proof. vm_compute. split; reflexivity. Qed.


(** ** The validator: which failures it reports *)

Section RunTestFrame.
Context {sandbox : Sandbox}.

(** From a world, [runTest] has one way to go. *)
Lemma runTest_spec_functional fnName test content w r1 w1 evs1 r2 w2 evs2 :
  runTest_spec fnName test content w r1 w1 evs1 ->
  runTest_spec fnName test content w r2 w2 evs2 ->
  r1 = r2 /\ w1 = w2 /\ evs1 = evs2.
Proof.
  intros H1 H2. inversion H1; subst; inversion H2; subst;
    repeat match goal with
           | H : Get ?t ?k = inr _, H' : not_nullish ?t = true |- _ =>
               rewrite (Get_not_nullish t k H') in H; discriminate
           | H : ?a && ?b = false, Ha : ?a = true, Hb : ?b = true |- _ =>
               rewrite Ha, Hb in H; discriminate
           | H : ?x = _, H' : ?x = _ |- _ =>
               rewrite H in H'; inversion H'; subst; clear H'
           end;
    try discriminate; repeat split; reflexivity.
Qed.

(** [runTest] reads the world and not the trace. *)
Lemma runTest_frame (fnName test content : value) (s : state) :
  runTest fnName test content s
  = let (r, s0) := runTest fnName test content
                     {| st_world := st_world s; st_trace := [] |} in
    (r, after s (st_world s0) (st_trace s0)).
Proof.
  destruct (runTest_run fnName test content s) as (r & w & evs & Hrun & Hspec).
  destruct (runTest_run fnName test content
              {| st_world := st_world s; st_trace := [] |})
    as (r0 & w0 & evs0 & Hrun0 & Hspec0).
  rewrite Hrun, Hrun0. simpl in Hspec0 |- *.
  destruct (runTest_spec_functional _ _ _ _ _ _ _ _ _ _ Hspec Hspec0)
    as (-> & -> & ->).
  reflexivity.
Qed.
End RunTestFrame.

(** The failures of tests reported in red. *)
Definition failed_tests (evs : list event) : list message :=
  flat_map (fun ev => match ev with
                      | Out (Red (TestFailed suiteName testName r test)) =>
                          [TestFailed suiteName testName r test]
                      | _ => []
                      end) evs.

Lemma failed_tests_app (evs1 evs2 : list event) :
  failed_tests (evs1 ++ evs2) = (failed_tests evs1 ++ failed_tests evs2)%list.
Proof. apply flat_map_app. Qed.

Lemma failed_tests_reds (evs : list event) :
  reds evs = 0%nat -> failed_tests evs = [].
Proof.
  unfold reds. induction evs as [|ev evs IH]; [reflexivity|]. simpl.
  destruct ev as [| | l]; simpl; auto.
  destruct l; simpl; auto. discriminate.
Qed.

Lemma failed_tests_closing (e w : nat) :
  failed_tests (map Out (closing_lines e w)) = [].
Proof.
  unfold closing_lines.
  destruct (Nat.ltb 0 e); [|destruct (Nat.ltb 0 w)]; reflexivity.
Qed.

(** The declared tests, each with the names of its suite and of the
    test. *)
Definition declared (tests : value) : list (string * string * value) :=
  flat_map (fun suite =>
              map (fun case => (fst suite, fst case, snd case))
                (props_of (snd suite)))
    (props_of tests).

Lemma flat_map_field_keyed {B : Type} (g : string -> value -> list B)
  (props : list (string * value)) :
  NoDup (map fst props) ->
  flat_map (fun key => g key (field (VObj props) key)) (map fst props)
  = flat_map (fun p => g (fst p) (snd p)) props.
Proof.
  intros Hnd.
  assert (Hall : forall l, incl l props ->
            flat_map (fun key => g key (field (VObj props) key)) (map fst l)
            = flat_map (fun p => g (fst p) (snd p)) l).
  { induction l as [|[key x] l IH]; intros Hincl; [reflexivity|].
    cbn [map flat_map fst snd].
    rewrite IH by (intros p Hp; apply Hincl; now right).
    unfold field at 1. cbn [Get].
    rewrite (assoc_In_NoDup props key x Hnd) by (apply Hincl; now left).
    reflexivity. }
  apply Hall, incl_refl.
Qed.

Lemma last_app_nonempty {A : Type} (l l' : list A) (d : A) :
  l' <> [] -> last (l ++ l') d = last l' d.
Proof.
  intros Hl'. induction l as [|x l IH]; [reflexivity|].
  cbn [app]. destruct (l ++ l')%list eqn:Happ.
  - apply app_eq_nil in Happ as [_ ->]. contradiction.
  - rewrite <- IH. reflexivity.
Qed.

Section ValidatorFailures.
Context {sandbox : Sandbox}.

Import Validator.

Variable challenge : value.

(** The sample solution on one test, from the world [w]. *)
Definition sample_result (test : value) (w : world) : test_result * world :=
  match runTest (field challenge "fn_name") test
          (field challenge "sample_solution")
          {| st_world := w; st_trace := [] |} with
  | (inl r, s) => (r, st_world s)
  | (inr e, s) => (error_result e, st_world s)
  end.

(** The sample solution on the tests one after the other: the reports due
    for the tests it fails, and the world left. *)
Fixpoint sample_failures (l : list (string * string * value)) (w : world)
  : list message * world :=
  match l with
  | [] => ([], w)
  | (suiteName, testName, test) :: l' =>
      let (r, w1) := sample_result test w in
      let (reports, w2) := sample_failures l' w1 in
      ((if pass r then [] else [TestFailed suiteName testName r test])
       ++ reports, w2)%list
  end.

Lemma sample_failures_app (l l' : list (string * string * value)) :
  forall w,
    sample_failures (l ++ l') w
    = let (reports, w1) := sample_failures l w in
      let (reports', w2) := sample_failures l' w1 in
      ((reports ++ reports')%list, w2).
Proof.
  induction l as [|[[suiteName testName] test] l IH]; intros w.
  - cbn [app sample_failures]. now destruct (sample_failures l' w).
  - cbn [app sample_failures]. destruct (sample_result test w) as [r w1].
    rewrite IH. destruct (sample_failures l w1) as [reports w2].
    destruct (sample_failures l' w2) as [reports' w3].
    now rewrite app_assoc.
Qed.

(** [m] returns, having run the sample solution on the tests [l] and
    reported the failures. *)
Definition checks {A : Type} (m : M vstate A)
  (l : list (string * string * value)) : Prop :=
  forall vs,
    exists a vs',
      m vs = (inl a, vs')
      /\ failed_tests (st_trace (base vs'))
         = (failed_tests (st_trace (base vs))
            ++ fst (sample_failures l (st_world (base vs))))%list
      /\ st_world (base vs') = snd (sample_failures l (st_world (base vs))).

Lemma checks_seq {A B : Type} (m : M vstate A) (k : A -> M vstate B)
  (l l' : list (string * string * value)) :
  checks m l -> (forall a, checks (k a) l') -> checks (bind m k) (l ++ l').
Proof.
  intros Hm Hk vs. destruct (Hm vs) as (a & vs1 & Hrun & Htrace & Hworld).
  destruct (Hk a vs1) as (b & vs2 & Hrun' & Htrace' & Hworld').
  exists b, vs2. unfold bind. rewrite Hrun, Hrun', Htrace', Htrace, Hworld'.
  rewrite sample_failures_app, Hworld.
  destruct (sample_failures l (st_world (base vs))) as [reports w1].
  cbn [fst snd].
  destruct (sample_failures l' w1) as [reports' w2]. cbn [fst snd].
  rewrite app_assoc. repeat split.
Qed.

Lemma checks_then {A B : Type} (m : M vstate A) (k : A -> M vstate B)
  (l : list (string * string * value)) :
  checks m [] -> (forall a, checks (k a) l) -> checks (bind m k) l.
Proof. intros Hm Hk. exact (checks_seq m k [] l Hm Hk). Qed.

Lemma checks_read {A : Type} (x : value) (k : value -> M vstate A)
  (l : list (string * string * value)) :
  checks (k x) l -> checks (bind (lift (inl x)) k) l.
Proof. intros Hk vs. exact (Hk vs). Qed.

Lemma checks_ret {A : Type} (a : A) : checks (ret a) [].
Proof. intros vs. exists a, vs. cbn. now rewrite app_nil_r. Qed.

Lemma checks_gets {A : Type} (f : vstate -> A) : checks (gets f) [].
Proof. intros vs. exists (f vs), vs. cbn. now rewrite app_nil_r. Qed.

Lemma checks_printed {A : Type} (m : M vstate A) :
  (forall vs, exists a e w lines,
      m vs = (inl a, printed vs e w lines)
      /\ failed_tests (map Out lines) = []) ->
  checks m [].
Proof.
  intros Hm vs. destruct (Hm vs) as (a & e & w & lines & Hrun & Hlines).
  exists a, (printed vs e w lines). split; [assumption|].
  unfold printed, after. cbn.
  now rewrite failed_tests_app, Hlines.
Qed.

Lemma checks_error (text : string) : checks (Validator.error (Text text)) [].
Proof.
  apply checks_printed. intros vs. rewrite error_run.
  eexists _, _, _, _. split; [reflexivity|].
  now destruct (Nat.eqb (errors vs) 0 && Nat.eqb (warnings vs) 0).
Qed.

Lemma checks_warn (str : message) : checks (warn str) [].
Proof.
  apply checks_printed. intros vs. rewrite warn_run.
  eexists _, _, _, _. split; [reflexivity|].
  now destruct (Nat.eqb (errors vs) 0 && Nat.eqb (warnings vs) 0).
Qed.

Lemma checks_console_log (l : line) :
  failed_tests [Out l] = [] -> checks (console_log l) [].
Proof.
  intros Hl. apply checks_printed. intros vs.
  exists tt, (errors vs), (warnings vs), [l]. split; [reflexivity | exact Hl].
Qed.

Lemma checks_when (c : bool) (m : M vstate unit) :
  checks m [] -> checks (when c m) [].
Proof. intros Hm. destruct c; [exact Hm | apply checks_ret]. Qed.

Lemma runTest_spec_failed_tests fnName test content w r w' evs :
  runTest_spec fnName test content w r w' evs -> failed_tests evs = [].
Proof. intros H. inversion H; reflexivity. Qed.

(** The last two steps on a test: [runTest] with the sample solution, and
    the error when it did not pass. *)
Lemma checks_run (suiteName testName : string) (test : value) :
  checks
    (bind (in_base (runTest (field challenge "fn_name") test
                      (field challenge "sample_solution")))
       (fun r => when (negb (pass r))
                   (Validator.error (TestFailed suiteName testName r test))))
    [(suiteName, testName, test)].
Proof.
  intros vs. unfold bind, in_base. rewrite runTest_frame.
  cbn [sample_failures]. unfold sample_result.
  destruct (runTest_run (field challenge "fn_name") test
              (field challenge "sample_solution")
              {| st_world := st_world (base vs); st_trace := [] |})
    as (r & w & evs & Hrun & Hspec).
  rewrite Hrun. cbn [st_world st_trace after fst snd app].
  pose proof (runTest_spec_failed_tests _ _ _ _ _ _ _ Hspec) as Hquiet.
  destruct (pass r); cbn [negb when].
  - eexists _, _. split; [reflexivity|]. cbn.
    rewrite failed_tests_app, Hquiet. split; reflexivity.
  - rewrite error_run. eexists _, _. split; [reflexivity|].
    unfold printed, after. cbn.
    rewrite !failed_tests_app, Hquiet, app_nil_r.
    destruct (Nat.eqb (errors vs) 0 && Nat.eqb (warnings vs) 0);
      split; reflexivity.
Qed.

Lemma checks_for_in {Acc : Type} (keys : list string)
  (body : string -> Acc -> M vstate Acc)
  (tests : string -> list (string * string * value)) :
  (forall key acc, In key keys -> checks (body key acc) (tests key)) ->
  forall acc, checks (for_in keys body acc) (flat_map tests keys).
Proof.
  induction keys as [|key keys IH]; intros Hbody acc; cbn [for_in flat_map].
  - apply checks_ret.
  - apply checks_seq.
    + apply Hbody. now left.
    + apply IH. intros k a Hin. apply Hbody. now right.
Qed.

Ltac unreported :=
  first [ apply checks_error | apply checks_warn
        | apply checks_console_log; reflexivity | apply checks_gets
        | apply checks_when; unreported ].

Ltac checks_steps :=
  repeat first
    [ apply checks_read; cbv beta
    | apply checks_then; [unreported | intros ?] ].

Hypothesis challenge_defined : not_nullish challenge = true.

Lemma checks_validate_test (suiteName testName : string)
  (props : list (string * value)) :
  not_nullish (field (VObj props) testName) = true ->
  checks (validate_test challenge suiteName (VObj props) testName tt)
    [(suiteName, testName, field (VObj props) testName)].
Proof.
  intros Htest. unfold validate_test.
  rewrite (Get_not_nullish (VObj props) testName eq_refl).
  apply checks_read; cbv beta.
  rewrite !(Get_not_nullish (field (VObj props) testName) _ Htest).
  rewrite !(Get_not_nullish challenge _ challenge_defined).
  checks_steps.
  apply checks_run.
Qed.

Lemma checks_validate_suite (suites : list (string * value))
  (suiteName : string) :
  suite_ok (field (VObj suites) suiteName) = true ->
  checks (validate_suite challenge (VObj suites) suiteName tt)
    (map (fun case => (suiteName, fst case, snd case))
       (props_of (field (VObj suites) suiteName))).
Proof.
  intros Hok. unfold validate_suite.
  rewrite (Get_not_nullish (VObj suites) suiteName eq_refl).
  apply checks_read; cbv beta.
  destruct (suite_ok_props _ Hok) as (Hshape & Hnd & _).
  pose proof (fun testName => suite_ok_fields _ testName Hok) as Hfields.
  remember (props_of (field (VObj suites) suiteName)) as props eqn:Hprops.
  rewrite Hshape in Hfields |- *. cbn [own_keys] in *.
  assert (Htests : map (fun case => (suiteName, fst case, snd case)) props
                   = flat_map
                       (fun key => [(suiteName, key, field (VObj props) key)])
                       (map fst props)).
  { symmetry. etransitivity.
    - exact (flat_map_field_keyed
               (fun key test => [(suiteName, key, test)]) props Hnd).
    - exact (flat_map_single (fun case => (suiteName, fst case, snd case)) props). }
  rewrite Htests.
  apply checks_for_in. intros testName [] Hin.
  apply checks_validate_test. now apply Hfields.
Qed.

Lemma checks_validate_body (challenges : value) (cid : string) :
  Get challenges cid = inl challenge ->
  tests_ok (field challenge "tests") = true ->
  checks (validate_body challenges cid) (declared (field challenge "tests")).
Proof.
  intros Hget Hok. unfold validate_body. rewrite Hget.
  apply checks_read; cbv beta.
  rewrite !(Get_not_nullish challenge _ challenge_defined).
  destruct (tests_ok_suites _ Hok) as (Hshape & Hnd & Hsuites).
  unfold declared.
  remember (props_of (field challenge "tests")) as suites eqn:Hprops.
  rewrite Hshape.
  assert (Htests : flat_map
                     (fun suite =>
                        map (fun case => (fst suite, fst case, snd case))
                          (props_of (snd suite))) suites
                   = flat_map
                       (fun key =>
                          map (fun case => (key, fst case, snd case))
                            (props_of (field (VObj suites) key)))
                       (map fst suites)).
  { symmetry.
    exact (flat_map_field_keyed
             (fun key suite => map (fun case => (key, fst case, snd case))
                                 (props_of suite)) suites Hnd). }
  rewrite Htests.
  checks_steps.
  cbn [own_keys].
  apply checks_for_in. intros suiteName [] Hin.
  apply checks_validate_suite.
  apply in_map_iff in Hin as ([name suite] & <- & Hin).
  destruct (Hsuites name suite Hin) as [Hassoc Hsuite].
  unfold field. cbn [Get fst]. now rewrite Hassoc.
Qed.
End ValidatorFailures.

Section ValidatorFailureClaims.
Context {sandbox : Sandbox}.

Import Validator.

(** X17: on a challenge of the data model's shape whose suites and tests
    have plain names (not integer-like, not [__proto__]), the failures of
    tests that the validator reports in red are, in declared order, those
    of the declared tests on which [runTest] with the sample solution
    returns [pass: false], each test being run in the world the one before
    left; and when the validator ends on [ok], the sample solution has
    passed every declared test. *)
Theorem validator_reports_the_failed_tests (challenges challenge : value)
  (cid : string) (s : state) :
  Get challenges cid = inl challenge ->
  not_nullish challenge = true ->
  tests_ok (field challenge "tests") = true ->
  names_ok (field challenge "tests") = true ->
  exists counts s',
    validateChallengeById challenges cid s = (inl counts, s')
    /\ failed_tests (st_trace s')
       = (failed_tests (st_trace s)
          ++ fst (sample_failures challenge
                    (declared (field challenge "tests")) (st_world s)))%list
    /\ (last (st_trace s') (Out Blank) = Out (Green "ok") ->
        fst (sample_failures challenge
               (declared (field challenge "tests")) (st_world s)) = []).
Proof.
  intros Hget Hchallenge Hok _.
  assert (Hreports :
            exists counts s',
              validateChallengeById challenges cid s = (inl counts, s')
              /\ failed_tests (st_trace s')
                 = (failed_tests (st_trace s)
                    ++ fst (sample_failures challenge
                              (declared (field challenge "tests"))
                              (st_world s)))%list).
  { unfold validateChallengeById. rewrite validate_run.
    set (vs0 := {| errors := 0; warnings := 0; base := s |}).
    destruct (checks_validate_body challenge Hchallenge _ _ Hget Hok
                (printed vs0 (errors vs0) (warnings vs0) [Validating cid]))
      as ([] & vs' & Hbody & Htrace & _).
    rewrite Hbody. eexists _, _. split; [reflexivity|].
    rewrite (proj1 (summary_trace vs')), failed_tests_app, failed_tests_closing.
    rewrite app_nil_r, Htrace. unfold printed, after. cbn.
    now rewrite failed_tests_app, app_nil_r. }
  destruct Hreports as (counts & s' & Hrun & Hfailed).
  exists counts, s'. split; [exact Hrun|]. split; [exact Hfailed|].
  intros Hlast.
  destruct (validator_trace challenges cid s)
    as (counts0 & s0 & evs & Hrun0 & Htrace).
  rewrite Hrun in Hrun0. inversion Hrun0; subst counts0 s0. clear Hrun0.
  rewrite Htrace, app_assoc in Hlast.
  assert (Hreds : reds evs = 0%nat).
  { unfold closing_lines in Hlast.
    destruct (reds evs) as [|n]; [reflexivity|].
    rewrite last_app_nonempty in Hlast by discriminate.
    discriminate. }
  rewrite Htrace, !failed_tests_app, failed_tests_closing in Hfailed.
  rewrite (failed_tests_reds evs Hreds), app_nil_r in Hfailed.
  symmetry in Hfailed. rewrite <- (app_nil_r (failed_tests (st_trace s))) in Hfailed at 2.
  now apply app_inv_head in Hfailed.
Qed.
End ValidatorFailureClaims.

Lemma validator_reports_the_failed_tests_witness :
  tests_ok (field add_challenge "tests") = true
  /\ names_ok (field add_challenge "tests") = true
  /\ exists counts s',
      @Validator.validateChallengeById scripted
        (VObj [("add", add_challenge)]) "add"
        (start [inl (VNum 5%float); inl (VNum 3%float); inl (VNum 0%float);
                inl (VNum 1000001%float)] [inl 0.0001%float])
      = (inl counts, s')
      /\ failed_tests (st_trace s')
         = (failed_tests []
            ++ fst (sample_failures add_challenge
                      (declared (field add_challenge "tests"))
                      (script [inl (VNum 5%float); inl (VNum 3%float);
                               inl (VNum 0%float); inl (VNum 1000001%float)]
                              [inl 0.0001%float])))%list
      /\ (last (st_trace s') (Out Blank) = Out (Green "ok") ->
          fst (sample_failures add_challenge
                 (declared (field add_challenge "tests"))
                 (script [inl (VNum 5%float); inl (VNum 3%float);
                          inl (VNum 0%float); inl (VNum 1000001%float)]
                         [inl 0.0001%float])) = []).
Proof.
  split; [reflexivity|]. split; [reflexivity|].
  apply (@validator_reports_the_failed_tests scripted
           (VObj [("add", add_challenge)]) add_challenge "add"
           (start [inl (VNum 5%float); inl (VNum 3%float); inl (VNum 0%float);
                   inl (VNum 1000001%float)] [inl 0.0001%float]));
    reflexivity.
Defined.

(** In that validation the sample solution returns 3 on the test
    [negative], which expects -1: one failure is reported, and the
    validation fails with one error. *)
Example validator_on_a_wrong_sample :
  exists s',
    @Validator.validateChallengeById scripted
      (VObj [("add", add_challenge)]) "add"
      (start [inl (VNum 5%float); inl (VNum 3%float); inl (VNum 0%float);
              inl (VNum 1000001%float)] [inl 0.0001%float])
    = (inl (2%nat, 0%nat), s')
    /\ failed_tests (st_trace s')
       = [TestFailed "correctness" "negative"
            {| pass := false; res := Some (VNum 3%float); error := None;
               time := None; validityPass := None |}
            negative_case]
    /\ last (st_trace s') (Out Blank) = Out (Red (Text "failed with 1 errors")).
Proof. eexists. vm_compute. repeat split. Qed.

(** ** The report of [Challenge.test], result by result *)

Section ReportResults.
Context {sandbox : Sandbox}.
Variables (data : value) (all : bool) (content : string).

(** [runTest] on one test with the content of the file, from the world
    [w]. *)
Definition result_of (test : value) (w : world) : test_result * world :=
  match runTest (field data "fn_name") test (VStr content)
          {| st_world := w; st_trace := [] |} with
  | (inl r, s) => (r, st_world s)
  | (inr e, s) => (error_result e, st_world s)
  end.

(** [runTest] on the tests one after the other, each from the world the
    one before left. *)
Fixpoint results_of (cases : list (string * value)) (w : world)
  : list (string * test_result) * world :=
  match cases with
  | [] => ([], w)
  | (testName, test) :: cases' =>
      let (r, w1) := result_of test w in
      let (rs, w2) := results_of cases' w1 in
      ((testName, r) :: rs, w2)
  end.

Lemma results_of_app (cases cases' : list (string * value)) :
  forall w,
    results_of (cases ++ cases') w
    = let (rs, w1) := results_of cases w in
      let (rs', w2) := results_of cases' w1 in
      ((rs ++ rs')%list, w2).
Proof.
  induction cases as [|[testName test] cases IH]; intros w.
  - cbn [app results_of]. now destruct (results_of cases' w).
  - cbn [app results_of]. destruct (result_of test w) as [r w1].
    rewrite IH. destruct (results_of cases w1) as [rs w2].
    now destruct (results_of cases' w2).
Qed.

Lemma run_case_result (testName : string) (test : value) (s : state) :
  (fst (run_case data content testName test s),
   st_world (snd (run_case data content testName test s)))
  = result_of test (st_world s).
Proof.
  unfold run_case, result_of. rewrite runTest_frame.
  cbn [after st_world st_trace].
  destruct (runTest_run (field data "fn_name") test (VStr content)
              {| st_world := st_world s; st_trace := [] |})
    as (r & w & evs & Hrun & _).
  rewrite Hrun. reflexivity.
Qed.

Lemma run_cases_results (cases : list (string * value)) :
  forall s,
    (fst (run_cases data content cases s),
     st_world (snd (run_cases data content cases s)))
    = results_of cases (st_world s).
Proof.
  induction cases as [|[testName test] cases IH]; intros s; [reflexivity|].
  cbn [run_cases results_of].
  pose proof (run_case_result testName test s) as Hcase.
  destruct (run_case data content testName test s) as [r s1].
  cbn [fst snd] in Hcase. rewrite <- Hcase.
  pose proof (IH s1) as Hrest.
  destruct (run_cases data content cases s1) as [rs s2].
  cbn [fst snd] in Hrest |- *. now rewrite <- Hrest.
Qed.

Lemma run_suites_results (suites : list (string * value)) :
  forall s,
    (flat_map (fun entry => suite_tests (snd entry))
       (fst (run_suites data all content suites s)),
     st_world (snd (run_suites data all content suites s)))
    = results_of (flat_map (fun suite => selected_cases all (snd suite)) suites)
        (st_world s).
Proof.
  induction suites as [|[suiteName suite] suites IH]; intros s; [reflexivity|].
  cbn [run_suites flat_map snd]. rewrite results_of_app.
  destruct (has_cases suite) eqn:Hcases.
  - pose proof (run_cases_results (selected_cases all suite)
                  (after s (st_world s) [Out (SuiteLine suiteName)])) as Hsuite.
    destruct (run_cases data content (selected_cases all suite)
                (after s (st_world s) [Out (SuiteLine suiteName)])) as [rs s1].
    cbn [fst snd after st_world] in Hsuite. rewrite <- Hsuite.
    pose proof (IH s1) as Hrest.
    destruct (run_suites data all content suites s1) as [entries s2].
    cbn [fst snd flat_map suite_tests] in Hrest |- *. now rewrite <- Hrest.
  - assert (Hnone : selected_cases all suite = []).
    { unfold has_cases in Hcases. unfold selected_cases.
      now destruct (props_of suite). }
    rewrite Hnone. cbn [results_of]. rewrite <- IH.
    now destruct (run_suites data all content suites s).
Qed.

(** X18: on a challenge of the expected shape whose suites and tests have
    plain names (not integer-like, not [__proto__]), when what the sandbox
    throws can be printed, the results stored in the report of
    [Challenge.test] are, for the selected tests in declared order, what
    [runTest] returns on each of them with [fn_name] and the content of the
    file, each test being run in the world the one before left. *)
Theorem report_holds_the_results (s : state) :
  throws_printable sandbox ->
  not_nullish data = true ->
  tests_ok (field data "tests") = true ->
  names_ok (field data "tests") = true ->
  exists r s',
    Challenge.test data all content s = (inl r, s')
    /\ (report_results r, st_world s')
       = results_of
           (flat_map (fun suite => selected_cases all (snd suite))
              (props_of (field data "tests")))
           (st_world s).
Proof.
  intros Hsandbox Hdata Hok _.
  rewrite (test_refines data all content Hdata Hsandbox s Hok).
  eexists _, _. split; [reflexivity|].
  unfold report_results. cbn [report_suites after st_world].
  apply run_suites_results.
Qed.
End ReportResults.

Lemma report_holds_the_results_witness :
  throws_printable scripted
  /\ tests_ok (field add_challenge "tests") = true
  /\ names_ok (field add_challenge "tests") = true
  /\ exists r s',
      @Challenge.test scripted add_challenge true solution
        (start [inl (VNum 5%float); inl (VNum 3%float); inl (VNum 0%float);
                inl (VNum 1000001%float)] [inl 0.5%float])
      = (inl r, s')
      /\ (report_results r, st_world s')
         = results_of add_challenge solution
             (flat_map (fun suite => selected_cases true (snd suite))
                (props_of (field add_challenge "tests")))
             (st_world
                (start [inl (VNum 5%float); inl (VNum 3%float);
                        inl (VNum 0%float); inl (VNum 1000001%float)]
                   [inl 0.5%float])).
Proof.
  split; [exact scripted_throws_printable|].
  split; [reflexivity|]. split; [reflexivity|].
  apply (@report_holds_the_results scripted add_challenge true solution
           (start [inl (VNum 5%float); inl (VNum 3%float); inl (VNum 0%float);
                   inl (VNum 1000001%float)] [inl 0.5%float]));
    [exact scripted_throws_printable | reflexivity | reflexivity | reflexivity].
Defined.

(** ** A solution that throws a falsy value *)

Section FalsyThrow.
Context {sandbox : Sandbox}.

(** X19: when the evaluation throws a value that is falsy ([throw 0],
    [throw null], an empty string), [runTest] records it as the error of
    the result, but the lines of [Challenge.test] on the failure test
    [testResult.error] as a condition: they do not say that an error was
    received, they say what was expected and that [undefined] was got. *)
Theorem falsy_throw_reads_as_a_wrong_value (fnName test content : value)
  (s s' : state) (v : value) w1 :
  not_nullish test = true ->
  vm_runInNewContext
    (test_runner_code content fnName (field test "args")) (st_world s)
  = (inr (ThrownValue v), w1) ->
  ToBoolean v = false ->
  runTest fnName test content s
  = (inl {| pass := false; res := None; error := Some (ThrownValue v);
            time := None; validityPass := None |},
     after s w1 [VmRun (test_runner_code content fnName (field test "args"))])
  /\ Challenge.explain_failure test
       {| pass := false; res := None; error := Some (ThrownValue v);
          time := None; validityPass := None |} s'
     = (inl tt,
        after s' (st_world s')
          [Out (ExpectedButGot (field test "res") (field test "delta") None)]).
Proof.
  intros Htest Hrun Hfalsy. split.
  - unfold runTest, try_catch, bind, lift, ret.
    rewrite (Get_not_nullish test "args" Htest).
    unfold run_in_new_context. rewrite Hrun. reflexivity.
  - unfold Challenge.explain_failure, bind, lift.
    rewrite !(Get_not_nullish test _ Htest).
    cbn [time Challenge.over_limit andb error thrown_truthy].
    rewrite andb_false_r, Hfalsy. reflexivity.
Qed.
End FalsyThrow.

(** A sandbox in which every piece of code throws the number 0. *)
Definition throwing_zero : Sandbox :=
  {| world := unit;
     vm_runInNewContext := fun _ w => (inr (ThrownValue (VNum zero)), w);
     vm_benchmark := fun _ w => (inr (ThrownValue (VNum zero)), w) |}.

Definition zero_start : @state throwing_zero := @Build_state throwing_zero tt [].

Lemma falsy_throw_reads_as_a_wrong_value_witness :
  @runTest throwing_zero (VStr "add") sum_case (VStr solution) zero_start
  = (inl {| pass := false; res := None; error := Some (ThrownValue (VNum zero));
            time := None; validityPass := None |},
     after zero_start tt
       [VmRun (test_runner_code (VStr solution) (VStr "add")
                 (field sum_case "args"))])
  /\ @Challenge.explain_failure throwing_zero sum_case
       {| pass := false; res := None; error := Some (ThrownValue (VNum zero));
          time := None; validityPass := None |} zero_start
     = (inl tt,
        after zero_start (st_world zero_start)
          [Out (ExpectedButGot (field sum_case "res") (field sum_case "delta")
                  None)]).
Proof.
  apply (@falsy_throw_reads_as_a_wrong_value throwing_zero (VStr "add") sum_case
           (VStr solution) zero_start zero_start (VNum zero) tt);
    reflexivity.
Defined.

(** The lines of a run on that sandbox, for the one visible test of a
    suite. *)
Example falsy_throw_in_a_run :
  st_trace
    (snd (@Challenge.test throwing_zero
            (VObj [("fn_name", VStr "add");
                   ("tests", VObj [("correctness", VObj [("sum", sum_case)])])])
            false solution zero_start))
  = [Out (SuiteLine "correctness");
     Out (TestLine "sum" (VStr "2,3") (VStr "5"));
     VmRun (test_runner_code (VStr solution) (VStr "add") (VStr "2,3"));
     Out (OutcomeLine sum_case
            {| pass := false; res := None;
               error := Some (ThrownValue (VNum zero));
               time := None; validityPass := None |});
     Out (ExpectedButGot (VStr "5") VUndefined None);
     Out (SummaryLine 1)].
Proof. vm_compute. reflexivity. Qed.

(* ================================================================== *)
(** * Part VII: the report of [Challenge.test], entry by entry         *)
(* ================================================================== *)

Section ReportEntries.
Context {sandbox : Sandbox}.
Variables (data : value) (all : bool) (content : string).

(** A result of the report against the test case it is for: it is stored
    under the name of the test, and it is what [runTest] returned on that
    test, with [fn_name] and the content of the file. *)
Definition result_for (entry : string * test_result) (case : string * value)
  : Prop :=
  fst entry = fst case
  /\ exists s s',
       runTest (field data "fn_name") (snd case) (VStr content) s
       = (inl (snd entry), s').

(** An entry of [results.suites] against the declared suite it is for: it
    is stored under the name of the suite, it holds one result for each
    selected test of the suite, in order, and its [pass] is the
    conjunction of their [pass]. *)
Definition results_for (entry : string * suite_result)
  (suite : string * value) : Prop :=
  fst entry = fst suite
  /\ Forall2 result_for (suite_tests (snd entry)) (selected_cases all (snd suite))
  /\ suite_pass (snd entry) = forallb passed (suite_tests (snd entry)).

Lemma run_case_entry (testName : string) (test : value) (s : state) :
  exists s0 s1,
    runTest (field data "fn_name") test (VStr content) s0
    = (inl (fst (run_case data content testName test s)), s1).
Proof.
  unfold run_case.
  destruct (runTest_run (field data "fn_name") test (VStr content)
              (after s (st_world s)
                 [Out (TestLine testName (field test "args") (field test "res"))]))
    as (r & w & evs & Hrun & _).
  rewrite Hrun. cbn [fst]. eauto.
Qed.

Lemma run_cases_entries (cases : list (string * value)) :
  forall s, Forall2 result_for (fst (run_cases data content cases s)) cases.
Proof.
  induction cases as [|[testName test] cases IH]; intros s; cbn [run_cases].
  - constructor.
  - pose proof (run_case_entry testName test s) as Hcase.
    destruct (run_case data content testName test s) as [r s1].
    specialize (IH s1).
    destruct (run_cases data content cases s1) as [rs s2].
    cbn [fst] in *. constructor; [|exact IH].
    split; [reflexivity | exact Hcase].
Qed.

Lemma run_suites_entries (suites : list (string * value)) :
  forall s,
    Forall2 results_for (fst (run_suites data all content suites s))
      (filter (fun suite => has_cases (snd suite)) suites).
Proof.
  induction suites as [|[suiteName suite] suites IH]; intros s;
    cbn [run_suites filter snd].
  - constructor.
  - destruct (has_cases suite).
    + pose proof (run_cases_entries (selected_cases all suite)
                    (after s (st_world s) [Out (SuiteLine suiteName)]))
        as Hcases.
      destruct (run_cases data content (selected_cases all suite)
                  (after s (st_world s) [Out (SuiteLine suiteName)]))
        as [rs s1].
      specialize (IH s1).
      destruct (run_suites data all content suites s1) as [entries s2].
      cbn [fst] in *. constructor; [|exact IH].
      split; [reflexivity|]. split; [exact Hcases | reflexivity].
    + apply IH.
Qed.

(** The entries of the report of a run on a challenge of the expected
    shape. *)
Lemma test_entries (s : state) :
  throws_printable sandbox ->
  not_nullish data = true ->
  tests_ok (field data "tests") = true ->
  Forall2 results_for
    (match fst (Challenge.test data all content s) with
     | inl r => report_suites r
     | inr _ => []
     end)
    (filter (fun suite => has_cases (snd suite))
       (props_of (field data "tests"))).
Proof.
  intros Hsandbox Hdata Hok.
  rewrite (test_refines data all content Hdata Hsandbox s Hok).
  cbn [fst report_suites]. apply run_suites_entries.
Qed.

(** The results of that report, and the world the run leaves: those of
    the selected tests, each run in the world the one before left. *)
Lemma test_results (s : state) :
  throws_printable sandbox ->
  not_nullish data = true ->
  tests_ok (field data "tests") = true ->
  match Challenge.test data all content s with
  | (inl r, s') =>
      (report_results r, st_world s')
      = results_of data content (selected_of all (field data "tests"))
          (st_world s)
  | (inr _, _) => False
  end.
Proof.
  intros Hsandbox Hdata Hok.
  rewrite (test_refines data all content Hdata Hsandbox s Hok).
  unfold report_results. cbn [report_suites after st_world].
  apply run_suites_results.
Qed.
End ReportEntries.

Section ReportClaims.
Context {sandbox : Sandbox}.

(** C3: no result of [runTest] has both [pass] and [validityPass] true.
    When the evaluation of a test returns a value the comparator accepts,
    [max_time_s] is truthy and the benchmark measures a mean greater than
    [max_time_s], [runTest] returns [pass: false] and [validityPass: true],
    with the value and the mean.  And in the report of [Challenge.test]
    every selected test has its result, the one [runTest] returned on it,
    in the entry of its suite; a result with [validityPass: true], like
    every result with [pass: false], leaves the entry of its suite and
    the report with [pass: false]; the results are those of the selected
    tests run one after the other, each in the world the one before left.
    The part on the report is for challenges of the expected shape whose
    suites and tests have plain names, and for thrown values that can be
    printed. *)
Theorem validity_failure_is_a_failure :
  (forall (fnName test content : value) (s : state),
      exists r s',
        runTest fnName test content s = (inl r, s')
        /\ ~ (pass r = true /\ validityPass r = Some true))
  /\ (forall (fnName test content : value) (s : state) v w1 mean w2,
         not_nullish test = true ->
         vm_runInNewContext
           (test_runner_code content fnName (field test "args")) (st_world s)
         = (inl v, w1) ->
         comparator v (field test "res") (field test "delta") = true ->
         ToBoolean (field test "max_time_s") = true ->
         vm_benchmark
           (benchmark_runner_code content fnName (field test "args")) w1
         = (inl mean, w2) ->
         gt mean (field test "max_time_s") = true ->
         runTest fnName test content s
         = (inl {| pass := false; res := Some v; error := None;
                   time := Some mean; validityPass := Some true |},
            after s w2
              [VmRun (test_runner_code content fnName (field test "args"));
               VmBench (benchmark_runner_code content fnName
                          (field test "args"))]))
  /\ (forall (data : value) (all : bool) (content : string) (s : state),
         throws_printable sandbox ->
         not_nullish data = true ->
         tests_ok (field data "tests") = true ->
         names_ok (field data "tests") = true ->
         exists r s',
           Challenge.test data all content s = (inl r, s')
           /\ Forall2 (results_for data all content) (report_suites r)
                (filter (fun suite => has_cases (snd suite))
                   (props_of (field data "tests")))
           /\ (report_results r, st_world s')
              = results_of data content
                  (selected_of all (field data "tests")) (st_world s)
           /\ forall suiteName sr testName tr,
               In (suiteName, sr) (report_suites r) ->
               In (testName, tr) (suite_tests sr) ->
               ~ (pass tr = true /\ validityPass tr = Some true)
               /\ (validityPass tr = Some true \/ pass tr = false ->
                   suite_pass sr = false /\ report_pass r = false)).
Proof.
  split; [|split].
  - intros fnName test content s.
    destruct (runTest_run fnName test content s) as (r & w & evs & Hrun & Hspec).
    exists r, (after s w evs). split; [assumption|].
    intros [Hpass Hvalid]. inversion Hspec; subst; simpl in *; discriminate.
  - intros fnName test content s v w1 mean w2 Htest Heval Hcmp Hmax Hbench Hgt.
    destruct (runTest_run fnName test content s) as (r & w & evs & Hrun & Hspec).
    rewrite Hrun.
    inversion Hspec; subst;
      try (rewrite (Get_not_nullish test "args" Htest) in *; discriminate);
      repeat match goal with
             | H1 : vm_runInNewContext ?c ?w = _,
               H2 : vm_runInNewContext ?c ?w = _ |- _ =>
                 rewrite H1 in H2; inversion H2; subst; clear H2
             | H1 : vm_benchmark ?c ?w = _,
               H2 : vm_benchmark ?c ?w = _ |- _ =>
                 rewrite H1 in H2; inversion H2; subst; clear H2
             end;
      try discriminate;
      try (rewrite Hcmp, Hmax in *; discriminate);
      congruence.
  - intros data all content s Hsandbox Hdata Hok _.
    pose proof (test_entries data all content s Hsandbox Hdata Hok) as Hfor.
    pose proof (test_results data all content s Hsandbox Hdata Hok) as Hres.
    destruct (test_report data all content s Hsandbox Hdata Hok)
      as (r & s' & Hrun & _ & Hpass & Hentries & _ & Hfrom).
    rewrite Hrun in Hfor, Hres. cbn [fst] in Hfor.
    exists r, s'. split; [assumption|]. split; [exact Hfor|].
    split; [exact Hres|].
    intros suiteName sr testName tr Hsuite Htest.
    assert (Hexcl : ~ (pass tr = true /\ validityPass tr = Some true)).
    { rewrite Forall_forall in Hfrom. specialize (Hfrom _ Hsuite).
      rewrite Forall_forall in Hfrom. specialize (Hfrom _ Htest).
      exact (from_runTest_exclusive content tr Hfrom). }
    split; [assumption|].
    intros Hfail.
    assert (Hfalse : pass tr = false).
    { destruct Hfail as [Hvalid | Hfalse]; [|assumption].
      destruct (pass tr) eqn:Hp; [|reflexivity]. exfalso. apply Hexcl. now split. }
    destruct (Forall2_In_left _ _ _ Hentries _ Hsuite) as (suite & _ & Hentry).
    destruct Hentry as (_ & _ & Hand).
    exact (failed_test_fails_suite r suiteName testName sr tr Hpass Hand
             Hsuite Htest Hfalse).
Qed.

(** C5, as the code has it: on a challenge of the expected shape whose
    suites and tests have plain names (not integer-like, not [__proto__]),
    for either value of [all] and thrown values that can be printed, the
    sandbox evaluates, suite after suite and test after test in declared
    order, exactly the tests with [all || test.visible], each once, and
    benchmarks tests of these only; [results.suites] has one entry for
    each suite with at least one declared test, in declared order, also
    when none of its tests was executed; the entry holds the results of
    the executed tests of the suite, in order, each the one [runTest]
    returned on its test, the tests being run one after the other, each in
    the world the one before left, and its [pass] is the conjunction of
    their [pass]. *)
Theorem test_runs_selected_tests (data : value) (all : bool) (content : string)
  (s : state) :
  throws_printable sandbox ->
  not_nullish data = true ->
  tests_ok (field data "tests") = true ->
  names_ok (field data "tests") = true ->
  exists r s',
    Challenge.test data all content s = (inl r, s')
    /\ evaluations (st_trace s')
       = (evaluations (st_trace s)
          ++ map (fun case => test_code data content (snd case))
               (selected_of all (field data "tests")))%list
    /\ (exists bs,
          benchmarks (st_trace s') = (benchmarks (st_trace s) ++ bs)%list
          /\ incl bs
               (map (fun case => bench_code data content (snd case))
                  (selected_of all (field data "tests"))))
    /\ executed_tests (st_trace s')
       = (executed_tests (st_trace s) ++ selected_tests all (field data "tests"))%list
    /\ Forall2 (results_for data all content) (report_suites r)
         (filter (fun suite => has_cases (snd suite))
            (props_of (field data "tests")))
    /\ (report_results r, st_world s')
       = results_of data content (selected_of all (field data "tests"))
           (st_world s)
    /\ report_pass r = forallb suite_passed (report_suites r).
Proof.
  intros Hsandbox Hdata Hok _.
  pose proof (test_entries data all content s Hsandbox Hdata Hok) as Hfor.
  pose proof (test_results data all content s Hsandbox Hdata Hok) as Hres.
  pose proof (test_calls data all content s Hsandbox Hdata Hok) as Hcalls.
  destruct (test_report data all content s Hsandbox Hdata Hok)
    as (r & s' & Hrun & _ & Hpass & _ & Htrace & _).
  rewrite Hrun in Hfor, Hres, Hcalls. cbn [fst snd] in Hfor, Hcalls.
  destruct Hcalls as (Hev & Hbs).
  exists r, s'. repeat split; assumption.
Qed.
End ReportClaims.

Lemma validity_failure_is_a_failure_witness :
  (@runTest scripted (VStr "add") large_case (VStr solution)
     (start [inl (VNum 1000001%float)] [inl 0.5%float])
   = (inl {| pass := false; res := Some (VNum 1000001%float); error := None;
             time := Some 0.5%float; validityPass := Some true |},
      after (start [inl (VNum 1000001%float)] [inl 0.5%float]) (script [] [])
        [VmRun (test_runner_code (VStr solution) (VStr "add")
                  (field large_case "args"));
         VmBench (benchmark_runner_code (VStr solution) (VStr "add")
                    (field large_case "args"))]))
  /\ throws_printable scripted
  /\ not_nullish add_challenge = true
  /\ tests_ok (field add_challenge "tests") = true
  /\ names_ok (field add_challenge "tests") = true
  /\ exists r s',
      @Challenge.test scripted add_challenge true solution
        (start [inl (VNum 5%float); inl (VNum (-1)%float); inl (VNum 0%float);
                inl (VNum 1000001%float)] [inl 0.5%float])
      = (inl r, s')
      /\ Forall2 (@results_for scripted add_challenge true solution) (report_suites r)
           (filter (fun suite => has_cases (snd suite))
              (props_of (field add_challenge "tests")))
      /\ (report_results r, st_world s')
         = @results_of scripted add_challenge solution
             (selected_of true (field add_challenge "tests"))
             (script [inl (VNum 5%float); inl (VNum (-1)%float);
                      inl (VNum 0%float); inl (VNum 1000001%float)]
                     [inl 0.5%float])
      /\ forall suiteName sr testName tr,
          In (suiteName, sr) (report_suites r) ->
          In (testName, tr) (suite_tests sr) ->
          ~ (pass tr = true /\ validityPass tr = Some true)
          /\ (validityPass tr = Some true \/ pass tr = false ->
              suite_pass sr = false /\ report_pass r = false).
Proof.
  split.
  - apply (proj1 (proj2 (@validity_failure_is_a_failure scripted))
             (VStr "add") large_case (VStr solution)
             (start [inl (VNum 1000001%float)] [inl 0.5%float])
             (VNum 1000001%float) (script [] [inl 0.5%float])
             0.5%float (script [] []));
      reflexivity.
  - split; [exact scripted_throws_printable|].
    split; [reflexivity|]. split; [reflexivity|]. split; [reflexivity|].
    apply (proj2 (proj2 (@validity_failure_is_a_failure scripted)));
      [exact scripted_throws_printable | reflexivity | reflexivity | reflexivity].
Defined.

Lemma test_runs_selected_tests_witness :
  throws_printable scripted
  /\ not_nullish add_challenge = true
  /\ tests_ok (field add_challenge "tests") = true
  /\ names_ok (field add_challenge "tests") = true
  /\ exists r s',
      @Challenge.test scripted add_challenge false solution
        (start [inl (VNum 5%float); inl (VNum 1000001%float)] [inl 0.0001%float])
      = (inl r, s')
      /\ evaluations (st_trace s')
         = (evaluations []
            ++ map (fun case => test_code add_challenge solution (snd case))
                 (selected_of false (field add_challenge "tests")))%list
      /\ (exists bs,
            benchmarks (st_trace s') = (benchmarks [] ++ bs)%list
            /\ incl bs
                 (map (fun case => bench_code add_challenge solution (snd case))
                    (selected_of false (field add_challenge "tests"))))
      /\ executed_tests (st_trace s')
         = (executed_tests [] ++ selected_tests false (field add_challenge "tests"))%list
      /\ Forall2 (@results_for scripted add_challenge false solution) (report_suites r)
           (filter (fun suite => has_cases (snd suite))
              (props_of (field add_challenge "tests")))
      /\ (report_results r, st_world s')
         = @results_of scripted add_challenge solution
             (selected_of false (field add_challenge "tests"))
             (script [inl (VNum 5%float); inl (VNum 1000001%float)]
                     [inl 0.0001%float])
      /\ report_pass r = forallb suite_passed (report_suites r).
Proof.
  split; [exact scripted_throws_printable|].
  split; [reflexivity|]. split; [reflexivity|]. split; [reflexivity|].
  apply (@test_runs_selected_tests scripted add_challenge false solution
           (start [inl (VNum 5%float); inl (VNum 1000001%float)] [inl 0.0001%float]));
    [exact scripted_throws_printable | reflexivity | reflexivity | reflexivity].
Defined.

(** The suite [edges] has one declared test, which is hidden: a run with
    [all = false] on the challenge [add], whose names are plain, evaluates
    the tests [sum] and [large] only, and [results.suites] still has the
    entry [edges: {pass: true, tests: {}}]. *)
Lemma suite_without_executed_tests_is_reported :
  tests_ok (field add_challenge "tests") = true
  /\ names_ok (field add_challenge "tests") = true
  /\ selected_cases false (VObj [("zero", zero_case)]) = []
  /\ selected_tests false (field add_challenge "tests") = ["sum"; "large"]
  /\ exists s',
      @Challenge.test scripted add_challenge false solution
        (start [inl (VNum 5%float); inl (VNum 1000001%float)] [inl 0.0001%float])
      = (inl {| report_all := false;
                report_pass := true;
                report_suites :=
                  [("correctness",
                    {| suite_pass := true;
                       suite_tests :=
                         [("sum", {| pass := true; res := Some (VNum 5%float);
                                     error := None; time := None;
                                     validityPass := None |})] |});
                   ("edges", {| suite_pass := true; suite_tests := [] |});
                   ("performance",
                    {| suite_pass := true;
                       suite_tests :=
                         [("large", {| pass := true;
                                       res := Some (VNum 1000001%float);
                                       error := None; time := Some 0.0001%float;
                                       validityPass := None |})] |})] |},
         s')
      /\ executed_tests (st_trace s') = ["sum"; "large"]
      /\ evaluations (st_trace s')
         = [test_code add_challenge solution sum_case;
            test_code add_challenge solution large_case].
Proof.
  split; [reflexivity|]. split; [reflexivity|].
  split; [reflexivity|]. split; [reflexivity|].
  eexists. split; [|split]; vm_compute; reflexivity.
Qed.
